(** * drive_checker: a shallow embedding of [main.py] and its properties

    The program polls [/dev] for [sd?] disks, asks [fdisk] for the NTFS
    partitions of a new disk, mounts each at [/mnt/4], lists the Windows
    profiles under [Users] and counts the image files of each profile.

    Text is modelled by [string]; the external tools (fdisk, mount,
    udevadm), the operator at the terminal and the mounted file system are
    the environment and are given to the functions as data. Exceptions are
    explicit: a call returns [Ok v] or [Raise e]. *)

From Stdlib Require Import ZArith Ascii String List Bool Lia.
From stdpp Require Import base gmap strings list.
Import ListNotations.

#[local] Set Warnings "-register-all,-clear-no-such-hyp".
Local Open Scope string_scope.
Local Open Scope list_scope.
Local Open Scope Z_scope.

(** ** Exceptions and results *)

Inductive exn : Type :=
  | AssertionError
  | UnboundLocalError       (* a local read before any assignment *)
  | AttributeError          (* [None.group] *)
  | TimeoutExpired          (* subprocess.run(..., timeout=10) *)
  | CalledProcessError      (* subprocess.run(..., check=True), exit <> 0 *)
  | ReError                 (* re.error: the pattern does not compile *)
  | ReOutsideFragment       (* pattern beyond the modelled part of [re] *)
  | FileNotFoundError
  | NotADirectoryError
  | KeyError
  | EOFError
  | RecursionError.

Inductive result (A : Type) : Type :=
  | Ok (v : A)
  | Raise (e : exn).
Arguments Ok {A} v.
Arguments Raise {A} e.

Definition is_ok {A} (r : result A) : bool :=
  match r with Ok _ => true | Raise _ => false end.

(** ** Python string operations *)

Module Str.

Definition newline : ascii := Ascii.ascii_of_nat 10.

(** [s.startswith(pre)] *)
Fixpoint startswith (pre s : string) : bool :=
  match pre, s with
  | EmptyString, _ => true
  | String a pre', String b s' => if Ascii.eqb a b then startswith pre' s' else false
  | String _ _, EmptyString => false
  end.

(** [sub in s] *)
Fixpoint contains (sub s : string) : bool :=
  if startswith sub s then true
  else match s with
       | EmptyString => false
       | String _ s' => contains sub s'
       end.

(** [s.split(sep)] for a one-character separator: the result is never
    empty, and a trailing separator gives a trailing empty piece. *)
Fixpoint split (sep : ascii) (s : string) : list string :=
  match s with
  | EmptyString => [EmptyString]
  | String c s' =>
      if Ascii.eqb c sep then EmptyString :: split sep s'
      else match split sep s' with
           | w :: ws => String c w :: ws
           | [] => [String c EmptyString]
           end
  end.

Definition lines (s : string) : list string := split newline s.

(** [s[n:]] *)
Fixpoint drop (n : nat) (s : string) : string :=
  match n, s with
  | O, _ => s
  | S n', String _ s' => drop n' s'
  | S _, EmptyString => EmptyString
  end.

(** [s[:n]] *)
Fixpoint take (n : nat) (s : string) : string :=
  match n, s with
  | S n', String c s' => String c (take n' s')
  | _, _ => EmptyString
  end.

Definition is_lower (c : ascii) : bool :=
  let n := Ascii.nat_of_ascii c in (97 <=? n)%nat && (n <=? 122)%nat.
Definition is_upper (c : ascii) : bool :=
  let n := Ascii.nat_of_ascii c in (65 <=? n)%nat && (n <=? 90)%nat.
Definition is_digit (c : ascii) : bool :=
  let n := Ascii.nat_of_ascii c in (48 <=? n)%nat && (n <=? 57)%nat.

Definition lower_char (c : ascii) : ascii :=
  if is_upper c then Ascii.ascii_of_nat (Ascii.nat_of_ascii c + 32) else c.
Definition upper_char (c : ascii) : ascii :=
  if is_lower c then Ascii.ascii_of_nat (Ascii.nat_of_ascii c - 32) else c.

(** [s.lower()], [s.upper()] on ASCII text: the letters A to Z and a to z
    change case and every other character stays. Python also changes the
    case of letters beyond ASCII, so the two agree on ASCII text only; the
    program applies them to the answers Y and n and to suffixes
    that it compares with ASCII extensions. *)
Fixpoint lower (s : string) : string :=
  match s with
  | EmptyString => EmptyString
  | String c s' => String (lower_char c) (lower s')
  end.
Fixpoint upper (s : string) : string :=
  match s with
  | EmptyString => EmptyString
  | String c s' => String (upper_char c) (upper s')
  end.

(** [s.rfind(c)]: the index of the last [c] in [s]. *)
Fixpoint rfind (c : ascii) (s : string) : option nat :=
  match s with
  | EmptyString => None
  | String a s' =>
      match rfind c s' with
      | Some i => Some (S i)
      | None => if Ascii.eqb a c then Some O else None
      end
  end.

End Str.

(** ** The part of Python's [re] that the program uses

    Three patterns are literals of the source and are modelled directly:
    the disk name, the partition path and the serial number patterns.
    [is_mounted] builds its pattern from its arguments, so there the
    pattern is compiled: the fragment has ordinary characters, [.] and a
    postfix [*]. [ReOutsideFragment] is no exception of Python: it marks a
    pattern with any other special character, on which this model says
    nothing about what [re] does. *)

Module Re.

Inductive atom : Type :=
  | Lit (c : ascii)
  | AnyChar.

(** An atom and whether it is starred. *)
Definition item : Type := (atom * bool)%type.

Definition special : list ascii :=
  list_ascii_of_string "\^$+?{}[]|()".

Definition is_special (c : ascii) : bool :=
  existsb (Ascii.eqb c) special.

Definition atom_of (c : ascii) : atom :=
  if Ascii.eqb c "." then AnyChar else Lit c.

(** [re.compile]: a star with nothing before it ("nothing to repeat") or
    after another star ("multiple repeat") is an [re.error]. *)
Fixpoint compile (p : string) : result (list item) :=
  match p with
  | EmptyString => Ok []
  | String c rest =>
      if Ascii.eqb c "*" then Raise ReError
      else if is_special c then Raise ReOutsideFragment
      else
        match rest with
        | String "*"%char rest' =>
            match compile rest' with
            | Ok items => Ok ((atom_of c, true) :: items)
            | Raise e => Raise e
            end
        | _ =>
            match compile rest with
            | Ok items => Ok ((atom_of c, false) :: items)
            | Raise e => Raise e
            end
        end
  end.

(** [.] matches any character but a newline. *)
Definition accepts (a : atom) (c : ascii) : bool :=
  match a with
  | Lit x => Ascii.eqb x c
  | AnyChar => negb (Ascii.eqb c Str.newline)
  end.

(** Does some prefix of [s] match the items?  ([re.match] anchors at
    the start only.) *)
Fixpoint matches (items : list item) (s : string) : bool :=
  match items with
  | [] => true
  | (a, false) :: rest =>
      match s with
      | String c s' => accepts a c && matches rest s'
      | EmptyString => false
      end
  | (a, true) :: rest =>
      (fix star (s : string) : bool :=
         matches rest s
         || match s with
            | String c s' => accepts a c && star s'
            | EmptyString => false
            end) s
  end.

(** [bool(re.match(pattern, s))] *)
Definition match_ (pattern s : string) : result bool :=
  match compile pattern with
  | Ok items => Ok (matches items s)
  | Raise e => Raise e
  end.

(** [re.match("^sd[a-z]$", name)]: [$] also matches before a final
    newline. *)
Definition match_disk_name (name : string) : bool :=
  match name with
  | String "s" (String "d" (String c rest)) =>
      Str.is_lower c
      && match rest with
         | EmptyString => true
         | String n EmptyString => Ascii.eqb n Str.newline
         | _ => false
         end
  | _ => false
  end.

(** The partition pattern of [get_ntfs_partitions]: the text "/dev/sd",
    one of a-z and one of 0-9 form group 1, anything may follow.
    [Some] of group 1, or [None] when there is no match. *)
Definition match_partition (x : string) : option string :=
  if Str.startswith "/dev/sd" x then
    match Str.drop 7 x with
    | String l (String d _) =>
        if Str.is_lower l && Str.is_digit d then Some (Str.take 9 x) else None
    | _ => None
    end
  else None.

(** The serial pattern of [get_disk_serial]: anything, the key
    "ID_SERIAL_SHORT=", then group 1. The leading repetition is greedy,
    so group 1 is what follows the last occurrence of the key. *)
Fixpoint match_serial (line : string) : option string :=
  match line with
  | EmptyString => None
  | String _ rest =>
      match match_serial rest with
      | Some v => Some v
      | None =>
          if Str.startswith "ID_SERIAL_SHORT=" line
          then Some (Str.drop 16 line) else None
      end
  end.

End Re.

(** ** Configuration constants *)

Definition MOUNT_POINT : string := "/mnt/4".
Definition IMAGE_EXTENSIONS : list string := [".png"; ".jpg"; ".jpeg"; ".cr2"].
Definition MIN_IMAGE_SIZE : Z := 300 * 1024.
Definition DEFAULT_MAX_DEPTH : Z := 5.

(** ** The file system seen through [pathlib]

    A [node] is what a directory entry is. The target of a symbolic link is
    given unfolded ([None] for a dangling link); a link back to an ancestor
    is unfolded as far as a walk can look, which the depth limit of
    [list_files] keeps finite. A [Path] is a path together with what the
    file system has there; [None] when nothing is there. *)

Inductive node : Type :=
  | File (size : Z)
  | Dir (entries : list (string * node))
  | Symlink (target : option node)
  | Special.                       (* device, fifo, socket *)

Record Path : Type := mkPath { parts : list string; entry : option node }.

Module Fs.

(** What [stat] sees: links are followed. *)
Fixpoint resolve (n : node) : option node :=
  match n with
  | Symlink (Some t) => resolve t
  | Symlink None => None
  | _ => Some n
  end.

Definition stat (p : Path) : option node :=
  match entry p with
  | Some n => resolve n
  | None => None
  end.

Definition exists_ (p : Path) : bool :=
  match stat p with Some _ => true | None => false end.

Definition is_file (p : Path) : bool :=
  match stat p with Some (File _) => true | _ => false end.

Definition is_dir (p : Path) : bool :=
  match stat p with Some (Dir _) => true | _ => false end.

Definition is_symlink (p : Path) : bool :=
  match entry p with Some (Symlink _) => true | _ => false end.

(** [list(p.iterdir())], in the order the directory gives its entries. *)
Definition iterdir (p : Path) : result (list Path) :=
  match stat p with
  | Some (Dir es) =>
      Ok (map (fun e : string * node => mkPath (parts p ++ [fst e]) (Some (snd e))) es)
  | Some _ => Raise NotADirectoryError
  | None => Raise FileNotFoundError
  end.

Fixpoint find_entry (name : string) (es : list (string * node)) : option node :=
  match es with
  | [] => None
  | (k, n) :: es' => if String.eqb k name then Some n else find_entry name es'
  end.

(** [Path(p, name)] *)
Definition join (p : Path) (name : string) : Path :=
  mkPath (parts p ++ [name])
         match stat p with
         | Some (Dir es) => find_entry name es
         | _ => None
         end.

(** [p.name] *)
Definition name (p : Path) : string := List.last (parts p) "".

(** [p.suffix]: the part of the name from its last dot, when that dot is
    neither the first nor the last character. *)
Definition suffix (p : Path) : string :=
  let nm := name p in
  match Str.rfind "." nm with
  | Some i =>
      if (0 <? i)%nat && (i <? String.length nm - 1)%nat
      then Str.drop i nm else ""
  | None => ""
  end.

End Fs.

(** ** Filesystem inventory scanner *)

(** The body of the [for] loop of [list_files]; [walk] is the recursive
    call on a subdirectory. *)
Fixpoint list_files_loop (walk : Path -> result (list Path))
    (paths : list Path) (files : list Path) : result (list Path) :=
  match paths with
  | [] => Ok files
  | path :: rest =>
      if Fs.is_file path then list_files_loop walk rest (files ++ [path])
      else if Fs.is_dir path && negb (Fs.is_symlink path) then
        match walk path with
        | Ok sub => list_files_loop walk rest (files ++ sub)
        | Raise e => Raise e
        end
      else list_files_loop walk rest files
  end.

(** [list_files(start_path, max_depth)]. [stack] is the number of frames
    the interpreter still allows: a call with none left is a
    [RecursionError]. *)
Fixpoint list_files (stack : nat) (start_path : Path) (max_depth : Z)
    : result (list Path) :=
  match stack with
  | O => Raise RecursionError
  | S stack' =>
      if max_depth <? 0 then Ok []
      else
        match Fs.iterdir start_path with
        | Raise e => Raise e
        | Ok paths =>
            list_files_loop
              (fun path => list_files stack' path (max_depth - 1)) paths []
        end
  end.

Definition is_image (f : Path) : bool :=
  existsb (String.eqb (Str.lower (Fs.suffix f))) IMAGE_EXTENSIONS.

(** [count_images(user_dir)]: the size test is commented out in the
    source, every file with an image extension counts. *)
Definition count_images (stack : nat) (user_dir : Path) : result nat :=
  match list_files stack user_dir DEFAULT_MAX_DEPTH with
  | Raise e => Raise e
  | Ok files =>
      Ok (fold_left (fun images f => if is_image f then S images else images)
                    files O)
  end.

(** [get_users()]; [mount_point] is [Path(MOUNT_POINT)]. *)
Definition get_users (mount_point : Path) : result (list Path) :=
  let users_path := Fs.join mount_point "Users" in
  match Fs.iterdir users_path with
  | Raise e => Raise e
  | Ok dirs =>
      Ok (fold_left
            (fun users dir =>
               if negb (Fs.is_dir dir) then users
               else if Fs.exists_ (Fs.join dir "ntuser.dat") then users ++ [dir]
               else if Fs.exists_ (Fs.join dir "NTUSER.DAT") then users ++ [dir]
               else users)
            dirs [])
  end.

(** ** The environment and the effects

    [env] is what the outside world answers; [state] is what a run
    consumes and produces: the lines the operator still types, the number
    of mount listings asked so far, and the trace of every visible
    action in the order it happened. *)

Inductive level : Type := DEBUG | INFO | WARNING | ERROR.

(** One constructor per message of the source, with the values that are
    formatted into it. *)
Inductive message : Type :=
  | FoundPartitions (lines : list string)
  | FoundNTFSPartitions (lines : list string)
  | ExtractedPaths (paths : list string)
  | MountFailed
  | FailedToMount (part dest : string)
  | SuccessfullyMounted (part dest : string)
  | FoundUsers (names : list string)
  | FoundUserWithImages (name : string) (images : nat)
  | UserHasImages (name : string) (images : nat)
  | TookToScan
  | FailedToGetSerial (disk : string)
  | ProcessingDisk (serial : string)
  | FoundDisk (serial : string)
  | FoundNoNTFSPartitions
  | FoundNTFSPartitionNames (names : list string)
  | FailedToProcessPartition (partition : string)
  | InvalidAnswer (answer : string)
  | Started
  | StartingWithDisks (names : list string)
  | FoundNewDisks (names : list string)
  | RemovedDisks (names : list string)
  | WaitingForNewDisks.

Inductive event : Type :=
  | Log (lvl : level) (msg : message)
  | Print (msg : message)
  | Input (question : string) (answers : list string)
  | Run (argv : list string)          (* subprocess.run *)
  | System (command : string)         (* os.system *)
  | Sleep.

(** The tools are taken to be installed and to print text that decodes:
    a missing executable ([FileNotFoundError] of [subprocess.run]) and
    output that is no UTF-8 ([UnicodeDecodeError]) are not modelled. *)
Record env : Type := mkEnv {
  (** stdout of [udevadm info --query=all --name=disk], decoded *)
  udevadm_info : string -> string;
  (** stdout of [fdisk -l disk]; [None] when it runs over the 10 seconds *)
  fdisk_list : string -> option string;
  (** stdout of the n-th call of [mount] without arguments *)
  mount_table : nat -> string;
  (** does [mount part dest] exit with status zero *)
  mount_succeeds : string -> string -> bool;
  (** what is at [MOUNT_POINT] while the partition is scanned *)
  volume_at : string -> option node;
  (** frames left for [list_files] *)
  stack_limit : nat
}.

Record state : Type := mkState {
  stdin : list string;
  listings : nat;
  trace : list event
}.

Definition M (A : Type) : Type := env -> state -> result A * state.

Definition ret {A} (v : A) : M A := fun _ st => (Ok v, st).
Definition raise {A} (e : exn) : M A := fun _ st => (Raise e, st).
Definition bind {A B} (c : M A) (k : A -> M B) : M B :=
  fun w st =>
    match c w st with
    | (Ok v, st') => k v w st'
    | (Raise e, st') => (Raise e, st')
    end.
Definition lift {A} (r : result A) : M A := fun _ st => (r, st).
Definition ask {A} (f : env -> A) : M A := fun w st => (Ok (f w), st).
Definition emit (e : event) : M unit :=
  fun _ st => (Ok tt, mkState (stdin st) (listings st) (trace st ++ [e])).

Declare Scope monad_scope.
Delimit Scope monad_scope with monad.
Notation "'let*' x ':=' c 'in' k" := (bind c (fun x => k))
  (at level 10, x name, c at level 100, k at level 200) : monad_scope.
Notation "c1 >> c2" := (bind c1 (fun _ => c2))
  (at level 62, right associativity) : monad_scope.
Local Open Scope monad_scope.

Definition log (lvl : level) (msg : message) : M unit := emit (Log lvl msg).
Definition print (msg : message) : M unit := emit (Print msg).

(** [for x in xs: body(x)] *)
Fixpoint for_each {A} (xs : list A) (body : A -> M unit) : M unit :=
  match xs with
  | [] => ret tt
  | x :: xs' => body x >> for_each xs' body
  end.

(** ** Operator interaction *)

(** The [while True] loop of [ask_question] reads one line per round;
    [input()] at the end of the input raises [EOFError]. *)
Fixpoint ask_question_loop (question : string) (answers : list string)
    (default : string) (lines : list string) (tr : list event)
    : result string * list string * list event :=
  match lines with
  | [] => (Raise EOFError, [], tr ++ [Input question answers])
  | i :: rest =>
      let tr := tr ++ [Input question answers] in
      let i := if String.eqb i "" then default else i in
      if existsb (String.eqb i) answers then (Ok (Str.lower i), rest, tr)
      else ask_question_loop question answers default rest
             (tr ++ [Print (InvalidAnswer i)])
  end.

Definition ask_question (question : string) (answers : list string) : M string :=
  fun _ st =>
    let default :=
      fold_left (fun d a => if String.eqb (Str.upper a) a then a else d)
                answers "" in
    match ask_question_loop question answers default (stdin st) (trace st) with
    | (r, rest, tr) => (r, mkState rest (listings st) tr)
    end.

(** ** Partition table parser *)

Definition is_ntfs_partition (fdisk_line : string) : bool :=
  if Str.contains "NTFS" fdisk_line then true
  else if Str.contains "Microsoft basic data" fdisk_line then true
  else false.

(** [re.match(...).group(1)] of one kept line. *)
Definition partition_path (x : string) : result string :=
  match Re.match_partition x with
  | Some g => Ok g
  | None => Raise AttributeError
  end.

(** [tuple(map(f, xs))] for an [f] that may raise: the first failure ends
    the whole map. *)
Fixpoint map_result {A B} (f : A -> result B) (xs : list A) : result (list B) :=
  match xs with
  | [] => Ok []
  | x :: xs' =>
      match f x with
      | Raise e => Raise e
      | Ok y =>
          match map_result f xs' with
          | Raise e => Raise e
          | Ok ys => Ok (y :: ys)
          end
      end
  end.

(** The lines of the listing that the two filters keep. *)
Definition ntfs_lines (disk output : string) : list string :=
  let partitions := List.filter (Str.startswith disk) (Str.lines output) in
  List.filter is_ntfs_partition partitions.

(** What [get_ntfs_partitions] computes from the text of the tool. *)
Definition parse_ntfs_partitions (disk output : string) : result (list string) :=
  map_result partition_path (ntfs_lines disk output).

Definition get_ntfs_partitions (disk : string) : M (list string) :=
  emit (Run ["/usr/bin/fdisk"; "-l"; disk]) >>
  let* p := ask (fun w => fdisk_list w disk) in
  match p with
  | None => raise TimeoutExpired
  | Some output =>
      let partitions := List.filter (Str.startswith disk) (Str.lines output) in
      log DEBUG (FoundPartitions partitions) >>
      let ntfs_parts := List.filter is_ntfs_partition partitions in
      log DEBUG (FoundNTFSPartitions partitions) >>
      let* ntfs_paths := lift (map_result partition_path ntfs_parts) in
      log DEBUG (ExtractedPaths ntfs_paths) >>
      ret (if (0 <? length ntfs_paths)%nat then ntfs_paths else [])
  end.

(** ** Mount controller *)

(** ["{}".format(x)] of an optional argument. *)
Definition format_opt (x : option string) : string :=
  match x with Some s => s | None => "None" end.

(** The [for line in out] loop of [is_mounted]. The local [regex] is
    [None] until one of the three branches assigns it. *)
Fixpoint is_mounted_loop (part dest : option string) (regex : option string)
    (out : list string) : result bool :=
  match out with
  | [] => Ok false
  | line :: rest =>
      let regex :=
        if bool_decide (dest <> None) && bool_decide (part <> None) then
          Some (format_opt part +:+ " on " +:+ format_opt dest +:+ " .*")
        else if bool_decide (part = None) then
          Some (".* on " +:+ format_opt dest +:+ " .*")
        else if bool_decide (dest <> None) then
          Some (format_opt part +:+ " on .*")
        else regex in
      match regex with
      | None => Raise UnboundLocalError
      | Some r =>
          match Re.match_ r line with
          | Raise e => Raise e
          | Ok true => Ok true
          | Ok false => is_mounted_loop part dest regex rest
          end
      end
  end.

(** [subprocess.run(['/usr/bin/mount'], capture_output=True)]: the
    listing is live, every call reads the next one. *)
Definition run_mount_listing : M string :=
  fun w st =>
    (Ok (mount_table w (listings st)),
     mkState (stdin st) (S (listings st)) (trace st ++ [Run ["/usr/bin/mount"]])).

Definition is_mounted (part dest : option string) : M bool :=
  if negb (bool_decide (part <> None) || bool_decide (dest <> None))
  then raise AssertionError
  else
    let* out := run_mount_listing in
    lift (is_mounted_loop part dest None (Str.lines out)).

(** [subprocess.run(['/usr/bin/mount', part, dest], check=True)] *)
Definition run_mount (part dest : string) : M unit :=
  emit (Run ["/usr/bin/mount"; part; dest]) >>
  let* ok := ask (fun w => mount_succeeds w part dest) in
  if ok then ret tt else raise CalledProcessError.

(** [try: c except CalledProcessError: handler] *)
Definition try_except_CalledProcessError {A} (c : M A) (handler : M A) : M A :=
  fun w st =>
    match c w st with
    | (Raise CalledProcessError, st') => handler w st'
    | other => other
    end.

(** What a function of the source hands back where it only says [return],
    [return True] or runs off its end. *)
Inductive pyvalue : Type := PyNone | PyTrue | PyFalse.

Definition truthy (v : pyvalue) : bool :=
  match v with PyTrue => true | _ => false end.

(** [mount(part, dest)]. The three ways out are spelt [inl v] for a
    [return v] inside the branches and [inr tt] for reaching the last
    line. *)
Definition mount (part dest : string) : M pyvalue :=
  let* already := is_mounted None (Some dest) in
  let* early :=
    if already then
      let* answer :=
        ask_question (part +:+ " is already mounted on " +:+ dest +:+ ", continue?")
                     ["Y"; "n"] in
      if negb (String.eqb answer "y") then ret (inl PyNone) else ret (inr tt)
    else
      try_except_CalledProcessError
        (run_mount part dest >> ret (inr tt))
        (log WARNING MountFailed >>
         let* m := is_mounted (Some part) (Some dest) in
         if negb m then
           log ERROR (FailedToMount part dest) >>
           let* answer :=
             ask_question ("Failed to mount " +:+ part +:+ " at " +:+ dest
                           +:+ ", do it manually?") ["Y"; "n"] in
           if negb (String.eqb answer "y") then ret (inl PyTrue)
           else
             let* m' := is_mounted (Some part) (Some dest) in
             (if negb m' then log ERROR (FailedToMount part dest) else ret tt) >>
             ret (inr tt)
         else ret (inr tt)) in
  match early with
  | inl v => ret v
  | inr tt => log INFO (SuccessfullyMounted part dest) >> ret PyNone
  end.

Definition unmount (dest : string) : M unit :=
  emit (System ("umount " +:+ dest)).

(** ** Device pipeline orchestrator *)

Definition mount_point_path (volume : option node) : Path :=
  mkPath ["/"; "mnt"; "4"] volume.

(** [Path(x).name] of a path written as text. *)
Definition basename (x : string) : string :=
  match Str.rfind "/" x with
  | Some i => Str.drop (S i) x
  | None => x
  end.

(** [process_ntfs_partition(part)]: [true] when the partition failed. *)
Definition process_ntfs_partition (part : string) : M bool :=
  let* failed := mount part MOUNT_POINT in
  if truthy failed then ret true
  else
    let* volume := ask (fun w => volume_at w part) in
    let* users := lift (get_users (mount_point_path volume)) in
    log INFO (FoundUsers (map Fs.name users)) >>
    for_each users (fun user =>
      let* limit := ask stack_limit in
      let* images := lift (count_images limit user) in
      print (FoundUserWithImages (Fs.name user) images) >>
      log INFO (UserHasImages (Fs.name user) images)) >>
    log INFO TookToScan >>
    ret false.

(** The loop of [get_disk_serial]: group 1 of the first line that matches. *)
Fixpoint first_serial (out : list string) : option string :=
  match out with
  | [] => None
  | line :: rest =>
      match Re.match_serial line with
      | Some serial => Some serial
      | None => first_serial rest
      end
  end.

Definition udevadm_argv (disk : string) : list string :=
  ["/usr/bin/udevadm"; "info"; "--query=all"; "--name=" +:+ disk].

(** [get_disk_serial(disk)], from the point where udevadm has run and
    [p.stdout.decode()] has given the text [udevadm_info w disk]. *)
Definition get_disk_serial (disk : string) : M string :=
  emit (Run (udevadm_argv disk)) >>
  let* out := ask (fun w => udevadm_info w disk) in
  match first_serial (Str.lines out) with
  | Some serial => ret serial
  | None => log WARNING (FailedToGetSerial disk) >> ret ""
  end.

Definition process_disk (path : string) : M unit :=
  let* serial := get_disk_serial path in
  log INFO (ProcessingDisk serial) >>
  print (FoundDisk serial) >>
  let* partitions := get_ntfs_partitions path in
  if (length partitions =? 0)%nat then
    log INFO FoundNoNTFSPartitions >>
    print FoundNoNTFSPartitions
  else
    log INFO (FoundNTFSPartitionNames (map basename partitions)) >>
    for_each partitions (fun partition =>
      let* failed := process_ntfs_partition partition in
      (if failed then log WARNING (FailedToProcessPartition partition) else ret tt) >>
      unmount partition).

(** ** Disk set monitor *)

(** An entry of [/dev]: its name and whether it is a block device. *)
Definition dev_entry : Type := (string * bool)%type.

Definition get_disks (dev : list dev_entry) : gset string :=
  fold_left
    (fun (devs : gset string) (e : dev_entry) =>
       if snd e then
         if Re.match_disk_name (fst e) then devs ∪ {["/dev/" +:+ fst e]} else devs
       else devs)
    dev ∅.

Definition new_disks_of (current_disks original_disks : gset string) : gset string :=
  current_disks ∖ original_disks.

Definition removed_disks_of (original_disks current_disks : gset string) : gset string :=
  original_disks ∖ current_disks.

(** The [for disk in new_disks] loop: the known set grows disk by disk.
    Python iterates a set in an order of its own; [tick] hands the disks
    over in the order of [elements], one of the possible orders. *)
Fixpoint process_new_disks (disks : list string) (original_disks : gset string)
    : M (gset string) :=
  match disks with
  | [] => ret original_disks
  | disk :: rest =>
      process_disk disk >>
      process_new_disks rest (original_disks ∪ {[disk]})
  end.

(** One round of the [while True] loop of [main]; [dev] is what [/dev]
    holds at this poll. The result is [original_disks] after the round. *)
Definition tick (original_disks : gset string) (dev : list dev_entry)
    : M (gset string) :=
  let current_disks := get_disks dev in
  let new_disks := new_disks_of current_disks original_disks in
  let* original_disks :=
    if (0 <? size new_disks)%nat then
      log INFO (FoundNewDisks (map basename (elements new_disks))) >>
      let* known := process_new_disks (elements new_disks) original_disks in
      print WaitingForNewDisks >>
      ret known
    else ret original_disks in
  let removed_disks := removed_disks_of original_disks current_disks in
  let* original_disks :=
    if (0 <? size removed_disks)%nat then
      log INFO (RemovedDisks (map basename (elements removed_disks))) >>
      ret (original_disks ∖ removed_disks)
    else ret original_disks in
  emit Sleep >>
  ret original_disks.

(** The first rounds of the loop, one per poll in [polls]. *)
Fixpoint main_loop (original_disks : gset string) (polls : list (list dev_entry))
    : M (gset string) :=
  match polls with
  | [] => ret original_disks
  | dev :: rest =>
      let* known := tick original_disks dev in
      main_loop known rest
  end.

(** [main()], run for as many rounds as there are [polls]; [startup] is
    what [/dev] holds at the first [get_disks()]. *)
Definition main (startup : list dev_entry) (polls : list (list dev_entry))
    : M (gset string) :=
  log INFO Started >>
  let original_disks := get_disks startup in
  if bool_decide ("/dev/sdc" ∈ original_disks) then
    let original_disks := original_disks ∖ {["/dev/sdc"]} in
    log INFO (StartingWithDisks (map basename (elements original_disks))) >>
    main_loop original_disks polls
  else raise KeyError.

(** [cleanup()] *)
Definition cleanup : M unit := unmount MOUNT_POINT.




(** ** The remaining functions of the program *)

(** [list_devices(path, recursive)]: the list it builds is never returned,
    and [recursive] is not used; the caller gets [None]. What
    [is_block_device] answers does not reach the result. *)
Definition list_devices (path : Path) (recursive : bool) : result pyvalue :=
  match Fs.iterdir path with
  | Raise e => Raise e
  | Ok _ => Ok PyNone
  end.

(** [try: c finally: handler]: the handler runs however [c] ends, and the
    outcome of [c] stands unless the handler raises. *)
Definition try_finally {A} (c : M A) (handler : M unit) : M A :=
  fun w st =>
    match c w st with
    | (r, st') =>
        match handler w st' with
        | (Ok _, st'') => (r, st'')
        | (Raise e, st'') => (Raise e, st'')
        end
    end.

(** The script run as a program, for the first [polls] rounds. *)
Definition run_program (startup : list dev_entry) (polls : list (list dev_entry))
    : M (gset string) :=
  try_finally (main startup polls) cleanup.
(** * Vocabulary of the properties *)

(** ** Strings *)

Definition has_prefix (pre s : string) : Prop := exists t, s = pre +:+ t.

Definition has_substring (sub s : string) : Prop :=
  exists a b, s = a +:+ sub +:+ b.

(** ** Partition table parser *)

(** The lines the parser is meant to keep for [disk]. *)
Definition kept_line (disk line : string) : Prop :=
  has_prefix disk line
  /\ (has_substring "NTFS" line \/ has_substring "Microsoft basic data" line).

(** [selected P xs ys]: [ys] is [xs] without the elements that fail [P],
    nothing added, nothing reordered. *)
Inductive selected {A : Type} (P : A -> Prop) : list A -> list A -> Prop :=
  | selected_nil : selected P [] []
  | selected_keep x xs ys : P x -> selected P xs ys -> selected P (x :: xs) (x :: ys)
  | selected_skip x xs ys : ~ P x -> selected P xs ys -> selected P (x :: xs) ys.

(** A partition path comes from a line as the nine characters the line
    starts with. *)
Definition derived_from (line partition : string) : Prop :=
  String.length partition = 9%nat /\ has_prefix partition line.

(** The line starts with "/dev/sd", a lower-case letter and a digit. *)
Definition begins_with_partition (line : string) : Prop :=
  exists l d rest,
    line = "/dev/sd" +:+ String l (String d rest)
    /\ Str.is_lower l = true /\ Str.is_digit d = true.

Definition sample_fdisk_output : string :=
  "Disk /dev/sdb: 931.5 GiB, 1000204886016 bytes
Device     Boot  Start      End  Sectors  Size Id Type
/dev/sdb1  *      2048  1026047  1024000  500M  7 HPFS/NTFS/exFAT
/dev/sdb2      1026048  9414655  8388608    4G 82 Linux swap
/dev/sdb3      9414656 99999999 90585344   43G    Microsoft basic data
".

(** A listing with a row that the filters keep although no partition
    number follows the disk path. *)
Definition odd_fdisk_output : string :=
  "/dev/sdb1  2048  1026047  1024000  500M  7 HPFS/NTFS/exFAT
/dev/sdb: NTFS signature found
".

Definition env_with_fdisk (listing : option string) : env :=
  mkEnv (fun _ => "") (fun _ => listing) (fun _ => "") (fun _ _ => true)
        (fun _ => None) 100.

Definition initial_state (typed : list string) : state := mkState typed O [].

(** ** Filesystem inventory scanner *)

(** The scenario of the specification: profile alice with the marker and
    three files, directory bob without a marker. The sizes are free. *)
Definition alice_dir (marker a b notes : Z) : node :=
  Dir [("ntuser.dat", File marker); ("holiday.jpg", File a);
       ("portrait.jpg", File b); ("notes.txt", File notes)].

Definition alice_bob_volume (marker a b notes c : Z) : node :=
  Dir [("Users",
        Dir [("alice", alice_dir marker a b notes);
             ("bob", Dir [("beach.jpg", File c)])])].

Definition alice_path (marker a b notes : Z) : Path :=
  mkPath ["/"; "mnt"; "4"; "Users"; "alice"] (Some (alice_dir marker a b notes)).

(** A profile marker lies directly inside the directory, in either case. *)
Definition has_marker (dir : Path) : Prop :=
  Fs.exists_ (Fs.join dir "ntuser.dat") = true
  \/ Fs.exists_ (Fs.join dir "NTUSER.DAT") = true.

Definition dir_path (ps : list string) (es : list (string * node)) : Path :=
  mkPath ps (Some (Dir es)).

(** [n] directories inside one another below the start, a picture in
    each. *)
Fixpoint nested_dirs (n : nat) : node :=
  match n with
  | O => Dir [("p.jpg", File 1)]
  | S n' => Dir [("p.jpg", File 1); ("sub", nested_dirs n')]
  end.

(** A profile with a picture, a link to a picture and a link to a
    directory of pictures. *)
Definition linked_entries : list (string * node) :=
  [("a.png", File 10)].

Definition linked_pictures : node :=
  Dir [("x.jpg", File 1); ("y.jpg", File 2)].

(** What one round of the loop of [list_files] adds for [path]. *)
Definition contribution (walk : Path -> result (list Path)) (path : Path)
    : result (list Path) :=
  if Fs.is_file path then Ok [path]
  else if Fs.is_dir path && negb (Fs.is_symlink path) then walk path
  else Ok [].

Definition deep_start : Path := mkPath ["/"; "mnt"; "4"; "Users"; "u"] (Some (nested_dirs 9)).

(** The test of [get_users] on one entry of [Users]. *)
Definition qualifies (dir : Path) : bool :=
  Fs.is_dir dir
  && (Fs.exists_ (Fs.join dir "ntuser.dat") || Fs.exists_ (Fs.join dir "NTUSER.DAT")).

(** The same directory with and without one entry that is a symbolic
    link. *)
Definition with_link (ps : list string) (before after : list (string * node))
    (name : string) (target : node) : Path :=
  dir_path ps (before ++ (name, Symlink (Some target)) :: after).



(** ** Mount controller and orchestrator scenarios *)

(** Something else is mounted at the mount point. *)
Definition busy_mount_table : string :=
  "proc on /proc type proc (rw,nosuid,nodev,noexec,relatime)
/dev/sda1 on /mnt/4 type ext4 (rw,relatime)
".

(** The mount point is taken, and the volume there is the one of the
    alice and bob scenario. *)
Definition busy_env : env :=
  mkEnv (fun _ => "E: ID_SERIAL_SHORT=WD-1234")
        (fun _ => Some sample_fdisk_output)
        (fun _ => busy_mount_table)
        (fun _ _ => true)
        (fun _ => Some (alice_bob_volume 1 2 3 4 5))
        100.

Definition conflict_question (part dest : string) : string :=
  part +:+ " is already mounted on " +:+ dest +:+ ", continue?".

(** What [process_disk] does before it has the partitions: the serial
    number is asked for, logged and printed, and [fdisk] is started. *)
Definition serial_of (w : env) (disk : string) : string :=
  match first_serial (Str.lines (udevadm_info w disk)) with
  | Some serial => serial
  | None => ""
  end.

Definition preamble_events (w : env) (disk : string) : list event :=
  [Run (udevadm_argv disk)]
  ++ match first_serial (Str.lines (udevadm_info w disk)) with
     | Some _ => []
     | None => [Log WARNING (FailedToGetSerial disk)]
     end
  ++ [Log INFO (ProcessingDisk (serial_of w disk));
      Print (FoundDisk (serial_of w disk));
      Run ["/usr/bin/fdisk"; "-l"; disk]].

Definition is_mount_run (e : event) : bool :=
  match e with
  | Run ("/usr/bin/mount" :: _) => true
  | _ => false
  end.

Definition says_no_partitions (e : event) : bool :=
  match e with
  | Log _ FoundNoNTFSPartitions => true
  | Print FoundNoNTFSPartitions => true
  | _ => false
  end.

(** The disk has one NTFS partition, it mounts, and the volume has no
    [Users] directory. *)
Definition no_users_env : env :=
  mkEnv (fun _ => "E: ID_SERIAL_SHORT=WD-1234")
        (fun _ => Some sample_fdisk_output)
        (fun _ => "")
        (fun _ _ => true)
        (fun _ => Some (Dir [("Windows", Dir [])]))
        100.

(** ** Exceptions that leave a computation *)


Definition manual_question (part dest : string) : string :=
  "Failed to mount " +:+ part +:+ " at " +:+ dest +:+ ", do it manually?".


(** The body of the partition loop of [process_disk]. *)
Definition process_and_unmount (partition : string) : M unit :=
  let* failed := process_ntfs_partition partition in
  (if failed then log WARNING (FailedToProcessPartition partition) else ret tt) >>
  unmount partition.

(** The three debug lines of [get_ntfs_partitions]. *)
Definition parsed_events (disk output : string) (paths : list string) : list event :=
  [Log DEBUG (FoundPartitions
                (List.filter (Str.startswith disk) (Str.lines output)));
   Log DEBUG (FoundNTFSPartitions
                (List.filter (Str.startswith disk) (Str.lines output)));
   Log DEBUG (ExtractedPaths paths)].

(** The state in which [process_disk] enters its loop over the
    partitions. *)
Definition state_at_loop (w : env) (disk output : string) (parts : list string)
    (st : state) : state :=
  mkState (stdin st) (listings st)
    (trace st ++ preamble_events w disk ++ parsed_events disk output parts
       ++ [Log INFO (FoundNTFSPartitionNames (map basename parts))]).

(** ** Traces *)

(** A computation adds to the trace and never rewrites it. *)
Definition grows {A : Type} (c : M A) : Prop :=
  forall w st, exists evs, trace (snd (c w st)) = trace st ++ evs.

(** The event is in the trace after the computation, however it ends. *)
Definition emits {A : Type} (ev : event) (c : M A) : Prop :=
  forall w st, In ev (trace (snd (c w st))).

(** ** Monitor scenarios *)

Definition sda_and_sdc : list dev_entry :=
  [("null", false); ("sda", true); ("sda1", true); ("sdc", true); ("tty0", false)].

Definition sda_alone : list dev_entry :=
  [("null", false); ("sda", true); ("sda1", true); ("tty0", false)].

Definition quiet_env : env :=
  mkEnv (fun _ => "") (fun _ => Some "") (fun _ => "") (fun _ _ => true)
        (fun _ => None) 100.

Definition is_disk_set_log (e : event) : bool :=
  match e with
  | Log INFO (FoundNewDisks _) => true
  | Log INFO (RemovedDisks _) => true
  | Run ("/usr/bin/udevadm" :: _) => true
  | _ => false
  end.


(** * Vocabulary of the further properties *)

(** ** Operator interaction *)

(** The answer an empty line stands for: the last answer that is its own
    upper case, or the empty string when there is none. *)
Definition default_answer (answers : list string) : string :=
  fold_left (fun d a => if String.eqb (Str.upper a) a then a else d) answers "".

(** What a typed line counts as. *)
Definition effective (answers : list string) (line : string) : string :=
  if String.eqb line "" then default_answer answers else line.

Definition accepted (answers : list string) (line : string) : bool :=
  existsb (String.eqb (effective answers line)) answers.

Definition is_input (e : event) : bool :=
  match e with Input _ _ => true | _ => false end.

(** ** Disks and partitions *)

(** The names [get_disks] takes for disks: sd and one lower-case letter,
    with or without a newline after it. *)
Definition disk_name (name : string) : Prop :=
  exists c, Str.is_lower c = true
    /\ (name = String "s" (String "d" (String c ""))
        \/ name = String "s" (String "d" (String c (String Str.newline "")))).

(** ** Mount table queries *)

(** No character of the text means anything special in a pattern. *)
Fixpoint plain (s : string) : bool :=
  match s with
  | EmptyString => true
  | String c s' =>
      negb (Ascii.eqb c "*") && negb (Re.is_special c) && negb (Ascii.eqb c ".")
      && plain s'
  end.

(** The pattern that matches the text itself. *)
Fixpoint literals (s : string) : list Re.item :=
  match s with
  | EmptyString => []
  | String c s' => (Re.Lit c, false) :: literals s'
  end.

Fixpoint has_newline (s : string) : bool :=
  match s with
  | EmptyString => false
  | String c s' => Ascii.eqb c Str.newline || has_newline s'
  end.

(** The state after one more listing of the mount table. *)
Definition after_listing (st : state) : state :=
  mkState (stdin st) (S (listings st)) (trace st ++ [Run ["/usr/bin/mount"]]).

(** ** What a computation adds to the trace *)

(** Every event the computation adds satisfies [P]. *)
Definition adds_only {A : Type} (P : event -> Prop) (c : M A) : Prop :=
  forall w st, exists evs,
    trace (snd (c w st)) = trace st ++ evs /\ Forall P evs.

(** Every value the computation hands back satisfies [R]. *)
Definition returns {A : Type} (R : A -> Prop) (c : M A) : Prop :=
  forall w st v, fst (c w st) = Ok v -> R v.

(** The events of a question to the operator. *)
Definition prompt_event (e : event) : Prop :=
  match e with
  | Input _ _ => True
  | Print (InvalidAnswer _) => True
  | _ => False
  end.

Definition is_run (e : event) : bool :=
  match e with Run _ => true | _ => false end.

(** A block device path of a partition: /dev/sd, a lower-case letter and
    a digit. *)
Definition partition_shape (part : string) : Prop :=
  exists l d,
    Str.is_lower l = true /\ Str.is_digit d = true
    /\ part = "/dev/sd" +:+ String l (String d "").

(** The events of [mount part dest]. *)
Definition mount_event (part dest : string) (e : event) : Prop :=
  match e with
  | Run argv => argv = ["/usr/bin/mount"] \/ argv = ["/usr/bin/mount"; part; dest]
  | Log WARNING MountFailed => True
  | Log ERROR (FailedToMount p d) => p = part /\ d = dest
  | Log INFO (SuccessfullyMounted p d) => p = part /\ d = dest
  | Input _ _ => True
  | Print (InvalidAnswer _) => True
  | _ => False
  end.

(** The events of the scan of a mounted volume. *)
Definition scan_event (e : event) : Prop :=
  match e with
  | Log INFO (FoundUsers _) => True
  | Print (FoundUserWithImages _ _) => True
  | Log INFO (UserHasImages _ _) => True
  | Log INFO TookToScan => True
  | _ => False
  end.

(** The events of [process_disk path]: the external commands are udevadm
    and fdisk for the disk itself, the mount listing, mount of a
    partition path at the mount point and umount of a partition path. *)
Definition disk_event (path : string) (e : event) : Prop :=
  match e with
  | Run argv =>
      argv = udevadm_argv path
      \/ argv = ["/usr/bin/fdisk"; "-l"; path]
      \/ argv = ["/usr/bin/mount"]
      \/ exists part, partition_shape part /\ argv = ["/usr/bin/mount"; part; MOUNT_POINT]
  | System command =>
      exists part, partition_shape part /\ command = "umount " +:+ part
  | Sleep => False
  | Log _ Started | Log _ (StartingWithDisks _) | Log _ (FoundNewDisks _)
  | Log _ (RemovedDisks _) | Print WaitingForNewDisks => False
  | _ => True
  end.

(** The state in which [mount] asks whether to mount by hand: the mount
    point was free, the mount utility failed, and the second listing does
    not show the partition. *)
Definition state_at_manual_question (part dest : string) (st : state) : state :=
  mkState (stdin st) (S (S (listings st)))
    (trace st ++ [Run ["/usr/bin/mount"];
                  Run ["/usr/bin/mount"; part; dest];
                  Log WARNING MountFailed;
                  Run ["/usr/bin/mount"];
                  Log ERROR (FailedToMount part dest)]).

(** What [mount] does once the operator has agreed to mount by hand: one
    more listing, an error line if the partition is still not there, and
    the success line in either case. *)
Definition after_manual_mount (part dest : string) (w : env) (s : state)
    : result pyvalue * state :=
  match is_mounted_loop (Some part) (Some dest) None
          (Str.lines (mount_table w (listings s))) with
  | Raise e => (Raise e, after_listing s)
  | Ok mounted =>
      (Ok PyNone,
       mkState (stdin s) (S (listings s))
         (trace s ++ [Run ["/usr/bin/mount"]]
            ++ (if mounted then [] else [Log ERROR (FailedToMount part dest)])
            ++ [Log INFO (SuccessfullyMounted part dest)]))
  end.

(** The mount utility fails and the partition never shows in the mount
    table, whatever the operator says to have done. *)
Definition stubborn_env : env :=
  mkEnv (fun _ => "") (fun _ => Some sample_fdisk_output)
        (fun _ => "proc on /proc type proc (rw)")
        (fun _ _ => false)
        (fun _ => Some (Dir [("lost+found", Dir [])]))
        100.

(** ** Reports of a scan *)

(** The two lines written for a profile and its count. *)
Definition report_events (users : list Path) (counts : list nat) : list event :=
  concat (map (fun uc : Path * nat =>
                 [Print (FoundUserWithImages (Fs.name (fst uc)) (snd uc));
                  Log INFO (UserHasImages (Fs.name (fst uc)) (snd uc))])
              (combine users counts)).

(** The body of the loop over the profiles in [process_ntfs_partition]. *)
Definition report_user (user : Path) : M unit :=
  let* limit := ask stack_limit in
  let* images := lift (count_images limit user) in
  print (FoundUserWithImages (Fs.name user) images) >>
  log INFO (UserHasImages (Fs.name user) images).

(** ** Serial numbers *)

Definition serial_key : string := "ID_SERIAL_SHORT=".

(** ** The files of a walk *)

(** [within start d f]: [f] is a file (or a link to one) that is reached
    from [start] through at most [d] directories that are no symbolic
    links. *)
Inductive within : Path -> Z -> Path -> Prop :=
  | within_file start d paths f :
      0 <= d -> Fs.iterdir start = Ok paths -> In f paths ->
      Fs.is_file f = true ->
      within start d f
  | within_dir start d paths sub f :
      0 <= d -> Fs.iterdir start = Ok paths -> In sub paths ->
      Fs.is_dir sub = true -> Fs.is_symlink sub = false ->
      within sub (d - 1) f ->
      within start d f.

Fixpoint no_dot (s : string) : bool :=
  match s with
  | EmptyString => true
  | String c s' => negb (Ascii.eqb c ".") && no_dot s'
  end.

(** ** Rounds of the monitor *)

(** The events of one round: those of the disks it processes, and its own
    lines. *)
Definition tick_event (disks : list string) (e : event) : Prop :=
  (exists disk, In disk disks /\ disk_event disk e)
  \/ match e with
     | Log INFO (FoundNewDisks _) | Log INFO (RemovedDisks _)
     | Print WaitingForNewDisks | Sleep => True
     | _ => False
     end.

Definition is_system (e : event) : bool :=
  match e with System _ => true | _ => false end.

Definition umount_of (part : string) : event := System ("umount " +:+ part).


(** * Vocabulary of file names and of the partition loop *)

(** ** Letter case *)

(** The same character, or the same letter of the basic Latin alphabet in
    its two cases. Given by character codes: A to Z are 65 to 90 and the
    small letter is 32 further. *)
Definition same_letter (a b : ascii) : bool :=
  let x := Ascii.nat_of_ascii a in
  let y := Ascii.nat_of_ascii b in
  (x =? y)%nat
  || ((65 <=? x)%nat && (x <=? 90)%nat && (y =? x + 32)%nat)
  || ((65 <=? y)%nat && (y <=? 90)%nat && (x =? y + 32)%nat).

(** Equal but for the case of the letters. *)
Fixpoint caseless (s t : string) : bool :=
  match s, t with
  | EmptyString, EmptyString => true
  | String a s', String b t' => same_letter a b && caseless s' t'
  | _, _ => false
  end.

(** No capital letter of the basic Latin alphabet occurs. *)
Fixpoint small (s : string) : bool :=
  match s with
  | EmptyString => true
  | String c s' =>
      negb ((65 <=? Ascii.nat_of_ascii c)%nat && (Ascii.nat_of_ascii c <=? 90)%nat)
      && small s'
  end.

(** The suffix of the file is one of the image extensions, in any mix of
    upper and lower case. *)
Definition image_name (f : Path) : bool :=
  existsb (caseless (Fs.suffix f)) [".png"; ".jpg"; ".jpeg"; ".cr2"].

(** Every character is an ASCII character. *)
Fixpoint ascii_only (s : string) : bool :=
  match s with
  | EmptyString => true
  | String c s' => (Ascii.nat_of_ascii c <? 128)%nat && ascii_only s'
  end.

(** ** The scenario of the specification with free names

    Profile alice holds the marker, in either of its two spellings, and
    three files; directory bob holds a picture and no marker. *)

Definition marker_name (upper : bool) : string :=
  if upper then "NTUSER.DAT" else "ntuser.dat".

(** [base.ext] *)
Definition file_name (base ext : string) : string := base +:+ String "." ext.

Definition profile_dir (upper : bool) (n1 n2 n3 : string) (marker a b notes : Z)
    : node :=
  Dir [(marker_name upper, File marker); (n1, File a); (n2, File b);
       (n3, File notes)].

Definition profile_volume (upper : bool) (n1 n2 n3 : string)
    (marker a b notes c : Z) : node :=
  Dir [("Users",
        Dir [("alice", profile_dir upper n1 n2 n3 marker a b notes);
             ("bob", Dir [("beach.jpg", File c)])])].

Definition profile_path (upper : bool) (n1 n2 n3 : string) (marker a b notes : Z)
    : Path :=
  mkPath ["/"; "mnt"; "4"; "Users"; "alice"]
         (Some (profile_dir upper n1 n2 n3 marker a b notes)).

(** ** A disk of which one partition fails to mount *)

Definition three_ntfs_rows : string :=
  "/dev/sdb1 NTFS
/dev/sdb2 NTFS
/dev/sdb3 NTFS".

(** Three NTFS partitions; the second never mounts, the others hold the
    volume of the alice and bob scenario. *)
Definition mixed_env : env :=
  mkEnv (fun _ => "")
        (fun _ => Some three_ntfs_rows)
        (fun _ => "")
        (fun part _ => negb (String.eqb part "/dev/sdb2"))
        (fun _ => Some (alice_bob_volume 1 2 3 4 5))
        100.


(** * Properties *)

(** ** Strings *)

Lemma append_cons c s t : String c s +:+ t = String c (s +:+ t).
Proof. reflexivity. Qed.

Lemma append_nil t : "" +:+ t = t.
Proof. reflexivity. Qed.

Lemma startswith_spec pre s : Str.startswith pre s = true <-> has_prefix pre s.
Proof.
  revert s. induction pre as [|a pre IH]; intros s; simpl.
  - split; [intros _; now exists s | reflexivity].
  - destruct s as [|b s].
    + split; [discriminate | intros [t Ht]; discriminate].
    + destruct (Ascii.eqb_spec a b) as [->|Hne].
      * rewrite IH. unfold has_prefix. split; intros [t Ht]; exists t.
        -- simpl. now rewrite Ht.
        -- simpl in Ht. now injection Ht.
      * split; [discriminate |].
        intros [t Ht]. simpl in Ht. injection Ht as E _. now subst.
Qed.

Lemma contains_spec sub s : Str.contains sub s = true <-> has_substring sub s.
Proof.
  induction s as [|c s IH].
  - simpl. destruct (Str.startswith sub "") eqn:E.
    + split; [intros _ | reflexivity].
      apply startswith_spec in E as [t Ht]. exists "", t. exact Ht.
    + split; [discriminate |].
      intros (a & b & H). destruct a; simpl in H.
      * assert (Str.startswith sub "" = true) by (apply startswith_spec; now exists b).
        congruence.
      * discriminate.
  - simpl. destruct (Str.startswith sub (String c s)) eqn:E.
    + split; [intros _ | reflexivity].
      apply startswith_spec in E as [t Ht]. exists "", t. exact Ht.
    + rewrite IH. split.
      * intros (a & b & ->). now exists (String c a), b.
      * intros (a & b & H). destruct a as [|c' a]; simpl in H.
        -- assert (Str.startswith sub (String c s) = true)
             by (apply startswith_spec; now exists b).
           congruence.
        -- injection H as _ ->. now exists a, b.
Qed.

Lemma lines_nonempty s : Str.lines s <> [].
Proof.
  unfold Str.lines. induction s as [|c s IH]; simpl; [discriminate|].
  destruct (Ascii.eqb c Str.newline); [discriminate|].
  destruct (Str.split Str.newline s); [contradiction | discriminate].
Qed.

Lemma take_drop n s : s = Str.take n s +:+ Str.drop n s.
Proof.
  revert s. induction n as [|n IH]; intros [|c s]; simpl; try reflexivity.
  rewrite append_cons. f_equal. apply IH.
Qed.

Lemma take_length n s : (n <= String.length s)%nat -> String.length (Str.take n s) = n.
Proof.
  revert s. induction n as [|n IH]; intros [|c s]; simpl; intros H; try lia.
  rewrite IH; lia.
Qed.

Lemma drop_length n s : String.length (Str.drop n s) = (String.length s - n)%nat.
Proof.
  revert s. induction n as [|n IH]; intros [|c s]; simpl; try lia. apply IH.
Qed.

(** ** Partition table parser *)

Lemma is_ntfs_partition_spec line :
  is_ntfs_partition line = true
  <-> has_substring "NTFS" line \/ has_substring "Microsoft basic data" line.
Proof.
  unfold is_ntfs_partition.
  destruct (Str.contains "NTFS" line) eqn:E1.
  - split; [intros _; left; now apply contains_spec | reflexivity].
  - destruct (Str.contains "Microsoft basic data" line) eqn:E2.
    + split; [intros _; right; now apply contains_spec | reflexivity].
    + split; [discriminate |].
      intros [H|H]; apply contains_spec in H; congruence.
Qed.

Lemma filter_selected {A} (f : A -> bool) (P : A -> Prop) xs :
  (forall x, f x = true <-> P x) -> selected P xs (List.filter f xs).
Proof.
  intros Hf. induction xs as [|x xs IH]; simpl; [constructor|].
  destruct (f x) eqn:E.
  - apply selected_keep; [now apply Hf | exact IH].
  - apply selected_skip; [| exact IH].
    intros HP. apply Hf in HP. congruence.
Qed.

Lemma filter_twice {A} (f g : A -> bool) xs :
  List.filter g (List.filter f xs) = List.filter (fun x => f x && g x) xs.
Proof.
  induction xs as [|x xs IH]; simpl; [reflexivity|].
  destruct (f x); simpl; [destruct (g x)|]; now rewrite IH.
Qed.

Lemma ntfs_lines_selected disk output :
  selected (kept_line disk) (Str.lines output) (ntfs_lines disk output).
Proof.
  unfold ntfs_lines. rewrite filter_twice. apply filter_selected.
  intros line. rewrite andb_true_iff, startswith_spec, is_ntfs_partition_spec.
  reflexivity.
Qed.

Lemma selected_sound {A} (P : A -> Prop) xs ys :
  selected P xs ys -> forall y, In y ys -> In y xs /\ P y.
Proof.
  induction 1 as [|x xs ys HP _ IH|x xs ys _ _ IH]; intros y Hy.
  - destruct Hy.
  - destruct Hy as [<-|Hy]; [split; [now left | exact HP]|].
    destruct (IH y Hy); split; [now right | assumption].
  - destruct (IH y Hy); split; [now right | assumption].
Qed.

Lemma match_partition_some x p :
  Re.match_partition x = Some p ->
  p = Str.take 9 x /\ begins_with_partition x /\ derived_from x p.
Proof.
  unfold Re.match_partition.
  destruct (Str.startswith "/dev/sd" x) eqn:E; [|discriminate].
  apply startswith_spec in E as [t ->].
  change (Str.drop 7 ("/dev/sd" +:+ t)) with t.
  destruct t as [|l [|d rest]]; try discriminate.
  destruct (Str.is_lower l && Str.is_digit d) eqn:E; [|discriminate].
  apply andb_true_iff in E as [Hl Hd].
  intros [= <-]. split; [reflexivity|]. split.
  - now exists l, d, rest.
  - split; [reflexivity|]. now exists rest.
Qed.

Lemma match_partition_begins x :
  begins_with_partition x -> exists p, Re.match_partition x = Some p.
Proof.
  intros (l & d & rest & -> & Hl & Hd).
  unfold Re.match_partition.
  change (Str.startswith "/dev/sd" ("/dev/sd" +:+ String l (String d rest))) with true.
  change (Str.drop 7 ("/dev/sd" +:+ String l (String d rest)))
    with (String l (String d rest)).
  cbv iota. rewrite Hl, Hd. simpl. eauto.
Qed.

Lemma map_result_ok_inv {A B} (f : A -> result B) xs ys :
  map_result f xs = Ok ys -> Forall2 (fun x y => f x = Ok y) xs ys.
Proof.
  revert ys. induction xs as [|x xs IH]; simpl; intros ys H.
  - injection H as <-. constructor.
  - destruct (f x) as [y|e] eqn:E; [|discriminate].
    destruct (map_result f xs) as [ys'|e]; [|discriminate].
    injection H as <-. constructor; [exact E | now apply IH].
Qed.

Lemma map_result_total {A B} (f : A -> result B) xs :
  Forall (fun x => exists y, f x = Ok y) xs -> exists ys, map_result f xs = Ok ys.
Proof.
  induction 1 as [|x xs [y Hy] _ [ys IH]]; simpl; [eauto|].
  rewrite Hy, IH. eauto.
Qed.

Lemma map_result_length {A B} (f : A -> result B) xs ys :
  map_result f xs = Ok ys -> length ys = length xs.
Proof.
  intros H. apply map_result_ok_inv in H.
  induction H; simpl; congruence.
Qed.

(** The first element on which [f] raises decides the whole map. *)
Lemma map_result_raise {A B} (f : A -> result B) e xs :
  Exists (fun x => is_ok (f x) = false) xs ->
  (forall x e', f x = Raise e' -> e' = e) ->
  map_result f xs = Raise e.
Proof.
  intros Hex Hone. induction xs as [|x xs IH]; [inversion Hex|].
  simpl. destruct (f x) as [y|e'] eqn:E.
  - inversion Hex as [? ? Hx|? ? Hx]; subst; [rewrite E in Hx; discriminate|].
    now rewrite (IH Hx).
  - f_equal. now apply (Hone x).
Qed.

(** The value handed back by [get_ntfs_partitions] depends on the text of
    the tool alone. *)
Lemma get_ntfs_partitions_result disk w st :
  fst (get_ntfs_partitions disk w st)
  = match fdisk_list w disk with
    | None => Raise TimeoutExpired
    | Some output => parse_ntfs_partitions disk output
    end.
Proof.
  unfold get_ntfs_partitions, parse_ntfs_partitions, ntfs_lines, bind, emit,
    ask, raise, lift, log, ret.
  simpl. destruct (fdisk_list w disk) as [output|]; [|reflexivity]. simpl.
  destruct (map_result partition_path _) as [ps|e]; [|reflexivity]. simpl.
  destruct ps; reflexivity.
Qed.

Lemma partition_path_ok x p : partition_path x = Ok p -> derived_from x p.
Proof.
  unfold partition_path.
  destruct (Re.match_partition x) as [g|] eqn:E; [|discriminate].
  intros [= <-]. now apply match_partition_some in E.
Qed.

Lemma partition_path_raises x e : partition_path x = Raise e -> e = AttributeError.
Proof.
  unfold partition_path. destruct (Re.match_partition x); [discriminate|].
  now intros [= <-].
Qed.

Lemma partition_paths_derived ks ps :
  map_result partition_path ks = Ok ps -> Forall2 derived_from ks ps.
Proof.
  intros H. apply map_result_ok_inv in H.
  induction H as [|k p ks ps Hk _ IH]; constructor;
    [now apply partition_path_ok | exact IH].
Qed.

(** C7: whenever [get_ntfs_partitions] hands partitions back, they are
    derived, one for one and in the order of the listing, from exactly the
    lines that start with the disk path and contain "NTFS" or "Microsoft
    basic data"; and it does hand them back as soon as every such line
    starts with a partition path. *)
Theorem get_ntfs_partitions_exact_in_order disk output w st :
  fdisk_list w disk = Some output ->
  (forall ps,
     fst (get_ntfs_partitions disk w st) = Ok ps ->
     exists ks,
       selected (kept_line disk) (Str.lines output) ks
       /\ Forall2 derived_from ks ps)
  /\ ((forall line, In line (Str.lines output) ->
         kept_line disk line -> begins_with_partition line) ->
      exists ps, fst (get_ntfs_partitions disk w st) = Ok ps).
Proof.
  intros Hrun. rewrite get_ntfs_partitions_result, Hrun.
  unfold parse_ntfs_partitions. split.
  - intros ps Hps. exists (ntfs_lines disk output).
    split; [apply ntfs_lines_selected|].
    now apply partition_paths_derived.
  - intros Hall. apply map_result_total.
    apply List.Forall_forall. intros line Hin.
    destruct (selected_sound _ _ _ (ntfs_lines_selected disk output) line Hin)
      as [Hl Hk].
    destruct (match_partition_begins line (Hall line Hl Hk)) as [p Hp].
    exists p. unfold partition_path. now rewrite Hp.
Qed.

Lemma sample_lines_begin_with_partition line :
  In line (Str.lines sample_fdisk_output) ->
  kept_line "/dev/sdb" line -> begins_with_partition line.
Proof.
  intros Hin [Hpre _]. apply startswith_spec in Hpre.
  vm_compute in Hin.
  repeat (destruct Hin as [<-|Hin]; [try (vm_compute in Hpre; discriminate Hpre)|]);
    try contradiction.
  - exists "b"%char, "1"%char. eexists. repeat split.
  - exists "b"%char, "2"%char. eexists. repeat split.
  - exists "b"%char, "3"%char. eexists. repeat split.
Qed.

Lemma get_ntfs_partitions_exact_in_order_witness :
  fdisk_list (env_with_fdisk (Some sample_fdisk_output)) "/dev/sdb"
    = Some sample_fdisk_output
  /\ fst (get_ntfs_partitions "/dev/sdb"
            (env_with_fdisk (Some sample_fdisk_output)) (initial_state []))
     = Ok ["/dev/sdb1"; "/dev/sdb3"]
  /\ (exists ks,
        selected (kept_line "/dev/sdb") (Str.lines sample_fdisk_output) ks
        /\ Forall2 derived_from ks ["/dev/sdb1"; "/dev/sdb3"])
  /\ (exists ps,
        fst (get_ntfs_partitions "/dev/sdb"
               (env_with_fdisk (Some sample_fdisk_output)) (initial_state []))
        = Ok ps).
Proof.
  assert (Hrun : fdisk_list (env_with_fdisk (Some sample_fdisk_output)) "/dev/sdb"
                 = Some sample_fdisk_output) by reflexivity.
  assert (Hres : fst (get_ntfs_partitions "/dev/sdb"
                        (env_with_fdisk (Some sample_fdisk_output)) (initial_state []))
                 = Ok ["/dev/sdb1"; "/dev/sdb3"]) by (vm_compute; reflexivity).
  split; [exact Hrun|]. split; [exact Hres|].
  destruct (get_ntfs_partitions_exact_in_order "/dev/sdb" sample_fdisk_output
              (env_with_fdisk (Some sample_fdisk_output)) (initial_state [])
              Hrun) as [Hexact Htotal].
  split; [exact (Hexact _ Hres) | exact (Htotal sample_lines_begin_with_partition)].
Defined.

(** C6, as the claim has it, fails: a kept line without a partition path
    is not skipped. The whole call raises [AttributeError], and the
    partition of the well-formed row before it is lost with it. *)
Lemma unparseable_line_is_fatal :
  In "/dev/sdb: NTFS signature found" (ntfs_lines "/dev/sdb" odd_fdisk_output)
  /\ Re.match_partition "/dev/sdb: NTFS signature found" = None
  /\ fst (get_ntfs_partitions "/dev/sdb"
            (env_with_fdisk (Some odd_fdisk_output)) (initial_state []))
     = Raise AttributeError
  /\ fst (get_ntfs_partitions "/dev/sdb"
            (env_with_fdisk (Some odd_fdisk_output)) (initial_state []))
     <> Ok ["/dev/sdb1"].
Proof.
  split; [vm_compute; tauto|]. split; [reflexivity|].
  split; [reflexivity | discriminate].
Qed.

(** C6, amended: a kept line on which the partition pattern does not match
    ends the call with [AttributeError] and nothing is returned; when the
    pattern matches on every kept line, one path is returned per kept
    line. *)
Theorem unparseable_line_raises disk output w st :
  fdisk_list w disk = Some output ->
  (Exists (fun line => Re.match_partition line = None) (ntfs_lines disk output) ->
   fst (get_ntfs_partitions disk w st) = Raise AttributeError)
  /\ (Forall (fun line => Re.match_partition line <> None) (ntfs_lines disk output) ->
      exists ps,
        fst (get_ntfs_partitions disk w st) = Ok ps
        /\ length ps = length (ntfs_lines disk output)
        /\ Forall2 derived_from (ntfs_lines disk output) ps).
Proof.
  intros Hrun. rewrite get_ntfs_partitions_result, Hrun.
  unfold parse_ntfs_partitions. split.
  - intros Hex. apply map_result_raise.
    + eapply List.Exists_impl; [|exact Hex].
      intros line Hl. unfold partition_path. now rewrite Hl.
    + intros x e' He. now apply partition_path_raises in He.
  - intros Hall.
    destruct (map_result_total partition_path (ntfs_lines disk output)) as [ps Hps].
    { eapply List.Forall_impl; [|exact Hall].
      intros line Hl. unfold partition_path.
      destruct (Re.match_partition line) as [p|] eqn:E; [eauto | congruence]. }
    exists ps. split; [exact Hps|]. split; [now apply map_result_length in Hps|].
    now apply partition_paths_derived.
Qed.

Lemma unparseable_line_raises_witness :
  fdisk_list (env_with_fdisk (Some odd_fdisk_output)) "/dev/sdb"
    = Some odd_fdisk_output
  /\ Exists (fun line => Re.match_partition line = None)
            (ntfs_lines "/dev/sdb" odd_fdisk_output)
  /\ fst (get_ntfs_partitions "/dev/sdb"
            (env_with_fdisk (Some odd_fdisk_output)) (initial_state []))
     = Raise AttributeError
  /\ fdisk_list (env_with_fdisk (Some sample_fdisk_output)) "/dev/sdb"
     = Some sample_fdisk_output
  /\ Forall (fun line => Re.match_partition line <> None)
            (ntfs_lines "/dev/sdb" sample_fdisk_output)
  /\ (exists ps,
        fst (get_ntfs_partitions "/dev/sdb"
               (env_with_fdisk (Some sample_fdisk_output)) (initial_state []))
        = Ok ps
        /\ length ps = length (ntfs_lines "/dev/sdb" sample_fdisk_output)
        /\ Forall2 derived_from (ntfs_lines "/dev/sdb" sample_fdisk_output) ps).
Proof.
  assert (Hodd : fdisk_list (env_with_fdisk (Some odd_fdisk_output)) "/dev/sdb"
                 = Some odd_fdisk_output) by reflexivity.
  assert (Hex : Exists (fun line => Re.match_partition line = None)
                  (ntfs_lines "/dev/sdb" odd_fdisk_output)).
  { vm_compute. apply List.Exists_cons_tl, List.Exists_cons_hd. reflexivity. }
  assert (Hrun : fdisk_list (env_with_fdisk (Some sample_fdisk_output)) "/dev/sdb"
                 = Some sample_fdisk_output) by reflexivity.
  assert (Hall : Forall (fun line => Re.match_partition line <> None)
                   (ntfs_lines "/dev/sdb" sample_fdisk_output)).
  { vm_compute. repeat constructor; discriminate. }
  split; [exact Hodd|]. split; [exact Hex|].
  split.
  - exact (proj1 (unparseable_line_raises "/dev/sdb" odd_fdisk_output
                    (env_with_fdisk (Some odd_fdisk_output)) (initial_state [])
                    Hodd) Hex).
  - split; [exact Hrun|]. split; [exact Hall|].
    exact (proj2 (unparseable_line_raises "/dev/sdb" sample_fdisk_output
                    (env_with_fdisk (Some sample_fdisk_output)) (initial_state [])
                    Hrun) Hall).
Defined.

(** ** Filesystem inventory scanner *)

Lemma list_files_loop_acc walk paths files :
  list_files_loop walk paths files
  = match list_files_loop walk paths [] with
    | Ok found => Ok (files ++ found)
    | Raise e => Raise e
    end.
Proof.
  revert files. induction paths as [|path rest IH]; intros files; simpl.
  - now rewrite app_nil_r.
  - destruct (Fs.is_file path).
    + rewrite (IH (files ++ [path])), (IH [path]).
      destruct (list_files_loop walk rest []); [|reflexivity].
      now rewrite <- app_assoc.
    + destruct (Fs.is_dir path && negb (Fs.is_symlink path)); [|apply IH].
      destruct (walk path) as [sub|e]; [|reflexivity].
      rewrite (IH (files ++ sub)), (IH sub).
      destruct (list_files_loop walk rest []); [|reflexivity].
      now rewrite <- app_assoc.
Qed.


Lemma list_files_loop_cons walk path rest :
  list_files_loop walk (path :: rest) []
  = match contribution walk path with
    | Ok found =>
        match list_files_loop walk rest [] with
        | Ok more => Ok (found ++ more)
        | Raise e => Raise e
        end
    | Raise e => Raise e
    end.
Proof.
  unfold contribution. simpl.
  destruct (Fs.is_file path); [apply list_files_loop_acc|].
  destruct (Fs.is_dir path && negb (Fs.is_symlink path)).
  - destruct (walk path); [apply list_files_loop_acc | reflexivity].
  - now destruct (list_files_loop walk rest []).
Qed.

Lemma list_files_negative stack start max_depth :
  max_depth < 0 -> list_files (S stack) start max_depth = Ok [].
Proof.
  intros H. simpl. apply Z.ltb_lt in H. now rewrite H.
Qed.

Lemma iterdir_children p paths :
  Fs.iterdir p = Ok paths ->
  forall c, In c paths -> exists nm, parts c = parts p ++ [nm].
Proof.
  unfold Fs.iterdir. destruct (Fs.stat p) as [[| es | |]|]; try discriminate.
  intros [= <-] c Hc. apply in_map_iff in Hc as (e & <- & _).
  now exists (fst e).
Qed.

(** Every file of the result lies below the start, at most
    [max_depth] directories down. *)
Lemma list_files_bound stack :
  forall start max_depth files,
    list_files stack start max_depth = Ok files ->
    forall f, In f files ->
      (exists below, parts f = parts start ++ below /\ below <> []
         /\ Z.of_nat (length below) <= max_depth + 1).
Proof.
  induction stack as [|stack IH]; intros start max_depth files; simpl;
    [discriminate|].
  destruct (max_depth <? 0) eqn:Hd.
  { intros [= <-] f []. }
  apply Z.ltb_ge in Hd.
  destruct (Fs.iterdir start) as [paths|e] eqn:Hit; [|discriminate].
  pose proof (iterdir_children _ _ Hit) as Hch. clear Hit.
  revert files. induction paths as [|path rest IHp]; intros files.
  - intros [= <-] f [].
  - rewrite list_files_loop_cons.
    destruct (contribution _ path) as [found|] eqn:Hc; [|discriminate].
    destruct (list_files_loop _ rest []) as [more|] eqn:Hm; [|discriminate].
    intros [= <-] f Hf. apply in_app_or in Hf as [Hf|Hf].
    + destruct (Hch path (or_introl eq_refl)) as [nm Hnm].
      unfold contribution in Hc.
      destruct (Fs.is_file path).
      * injection Hc as <-. destruct Hf as [<-|[]].
        exists [nm]. split; [exact Hnm|]. split; [discriminate | simpl; lia].
      * destruct (Fs.is_dir path && negb (Fs.is_symlink path)).
        -- destruct (IH _ _ _ Hc f Hf) as (below & Hb & Hne & Hlen).
           exists (nm :: below). rewrite Hb, Hnm, <- app_assoc.
           split; [reflexivity|]. split; [discriminate|].
           simpl length. lia.
        -- injection Hc as <-. destruct Hf.
    + apply (IHp (fun c Hc' => Hch c (or_intror Hc')) more eq_refl f Hf).
Qed.

(** With [max_depth + 2] frames the walk of a directory never runs out of
    stack, however deep the tree is. *)
Lemma list_files_enough_stack stack :
  forall start max_depth,
    max_depth + 2 <= Z.of_nat stack ->
    (1 <= stack)%nat ->
    max_depth < 0 \/ Fs.is_dir start = true ->
    exists files, list_files stack start max_depth = Ok files.
Proof.
  induction stack as [|stack IH]; intros start max_depth Hs H1 Hdir; [lia|].
  simpl. destruct (max_depth <? 0) eqn:Hd; [eauto|].
  apply Z.ltb_ge in Hd. destruct Hdir as [Hneg|Hdir]; [lia|].
  unfold Fs.iterdir. unfold Fs.is_dir in Hdir.
  destruct (Fs.stat start) as [[| es | |]|]; try discriminate.
  generalize (map (fun e : string * node =>
                     mkPath (parts start ++ [fst e]) (Some (snd e))) es).
  intros paths. induction paths as [|path rest IHp]; [simpl; eauto|].
  rewrite list_files_loop_cons. destruct IHp as [more ->].
  unfold contribution. destruct (Fs.is_file path); [eauto|].
  destruct (Fs.is_dir path && negb (Fs.is_symlink path)) eqn:E; [|eauto].
  apply andb_true_iff in E as [E _].
  destruct (IH path (max_depth - 1)) as [found ->]; [lia | lia | now right | eauto].
Qed.

(** C8: the walk of [list_files] is limited in depth. With a negative
    depth the call returns the empty result and no error; every file of a
    result lies at most [max_depth] directories below the start, so deeper
    files are absent; and [max_depth + 2] frames are enough for any tree:
    a directory of any depth is walked without [RecursionError]. *)
Theorem list_files_depth_limited stack start max_depth :
  (max_depth < 0 -> list_files (S stack) start max_depth = Ok [])
  /\ (forall files,
        list_files stack start max_depth = Ok files ->
        forall f, In f files ->
          exists below,
            parts f = parts start ++ below /\ below <> []
            /\ Z.of_nat (length below) <= max_depth + 1)
  /\ (max_depth + 2 <= Z.of_nat stack -> (1 <= stack)%nat ->
      list_files stack start max_depth <> Raise RecursionError
      /\ (Fs.is_dir start = true ->
          exists files, list_files stack start max_depth = Ok files)).
Proof.
  split; [apply list_files_negative|].
  split; [apply list_files_bound|].
  intros Hs H1. split.
  - destruct (Fs.is_dir start) eqn:Hdir.
    + destruct (list_files_enough_stack stack start max_depth Hs H1) as [fs ->];
        [now right | discriminate].
    + destruct stack as [|stack]; [lia|]. simpl.
      destruct (max_depth <? 0); [discriminate|].
      unfold Fs.iterdir. unfold Fs.is_dir in Hdir.
      destruct (Fs.stat start) as [[| es | |]|]; discriminate.
  - intros Hdir. apply list_files_enough_stack; auto.
Qed.

Lemma list_files_depth_limited_witness :
  (-1 < 0 /\ list_files 1 deep_start (-1) = Ok [])
  /\ (forall files f,
        list_files 7 deep_start DEFAULT_MAX_DEPTH = Ok files -> In f files ->
        exists below,
          parts f = parts deep_start ++ below /\ below <> []
          /\ Z.of_nat (length below) <= DEFAULT_MAX_DEPTH + 1)
  /\ DEFAULT_MAX_DEPTH + 2 <= Z.of_nat 7 /\ (1 <= 7)%nat
  /\ Fs.is_dir deep_start = true
  /\ list_files 7 deep_start DEFAULT_MAX_DEPTH <> Raise RecursionError
  /\ exists files, list_files 7 deep_start DEFAULT_MAX_DEPTH = Ok files.
Proof.
  assert (H0 : -1 < 0) by lia.
  assert (H1 : DEFAULT_MAX_DEPTH + 2 <= Z.of_nat 7) by (vm_compute; discriminate).
  assert (H2 : (1 <= 7)%nat) by lia.
  assert (H3 : Fs.is_dir deep_start = true) by reflexivity.
  split.
  { split; [exact H0|].
    exact (proj1 (list_files_depth_limited 0 deep_start (-1)) H0). }
  destruct (list_files_depth_limited 7 deep_start DEFAULT_MAX_DEPTH)
    as (_ & Hbound & Hstack).
  split; [intros files f Hfiles Hf; exact (Hbound files Hfiles f Hf)|].
  split; [exact H1|]. split; [exact H2|]. split; [exact H3|].
  destruct (Hstack H1 H2) as [Hno Hdir].
  split; [exact Hno | exact (Hdir H3)].
Defined.

(** The bound is reached: of the ten pictures below [deep_start] the walk
    with the default depth returns the six nearest ones. *)
Example list_files_deep_start :
  match list_files 7 deep_start DEFAULT_MAX_DEPTH with
  | Ok files =>
      map (fun f => length (parts f) - length (parts deep_start))%nat files
  | Raise _ => []
  end = [1; 2; 3; 4; 5; 6]%nat.
Proof. reflexivity. Qed.

Lemma count_fold files n :
  fold_left (fun images f => if is_image f then S images else images) files n
  = (n + length (List.filter is_image files))%nat.
Proof.
  revert n. induction files as [|f files IH]; intros n; simpl; [lia|].
  rewrite IH. destruct (is_image f); simpl; lia.
Qed.

Lemma count_images_spec stack user_dir :
  count_images stack user_dir
  = match list_files stack user_dir DEFAULT_MAX_DEPTH with
    | Ok files => Ok (length (List.filter is_image files))
    | Raise e => Raise e
    end.
Proof.
  unfold count_images. destruct (list_files _ _ _); [|reflexivity].
  now rewrite count_fold.
Qed.

Lemma get_users_fold dirs users :
  fold_left
    (fun users dir =>
       if negb (Fs.is_dir dir) then users
       else if Fs.exists_ (Fs.join dir "ntuser.dat") then users ++ [dir]
       else if Fs.exists_ (Fs.join dir "NTUSER.DAT") then users ++ [dir]
       else users) dirs users
  = users ++ List.filter qualifies dirs.
Proof.
  revert users. induction dirs as [|dir dirs IH]; intros users; simpl.
  - now rewrite app_nil_r.
  - rewrite IH. unfold qualifies.
    destruct (Fs.is_dir dir); simpl; [|reflexivity].
    destruct (Fs.exists_ (Fs.join dir "ntuser.dat")); simpl;
      [now rewrite <- app_assoc|].
    destruct (Fs.exists_ (Fs.join dir "NTUSER.DAT")); simpl;
      [now rewrite <- app_assoc | reflexivity].
Qed.

Lemma qualifies_spec dir :
  qualifies dir = true <-> Fs.is_dir dir = true /\ has_marker dir.
Proof.
  unfold qualifies, has_marker.
  rewrite andb_true_iff, orb_true_iff. reflexivity.
Qed.

Example upper_case_extension_counts :
  is_image (mkPath ["/"; "mnt"; "4"; "Users"; "alice"; "IMG_0001.JPG"] (Some (File 0)))
  = true.
Proof. reflexivity. Qed.

(** ** Symbolic links in the walk *)






Example symlinks_counted :
  count_images 7 (with_link ["u"] linked_entries [] "b.jpg" (File 7)) = Ok 2%nat
  /\ count_images 7 (with_link ["u"] linked_entries [] "album" linked_pictures) = Ok 1%nat
  /\ count_images 7 (dir_path ["u"] (linked_entries ++ [("album", linked_pictures)]))
     = Ok 3%nat.
Proof. repeat split. Qed.

(** ** Mount controller *)

(** C5: with the partition alone supplied, none of the three branches of
    [is_mounted] assigns the pattern (the third tests [dest is not None]
    where the destination is absent), and the call raises
    [UnboundLocalError] on the first line of any mount table. *)
Theorem is_mounted_partition_only_raises (part : string) (w : env) (st : state) :
  fst (is_mounted (Some part) None w st) = Raise UnboundLocalError.
Proof.
  unfold is_mounted, bind, run_mount_listing, lift. simpl.
  pose proof (lines_nonempty (mount_table w (listings st))) as Hne.
  destruct (Str.lines (mount_table w (listings st))) as [|line rest];
    [contradiction | reflexivity].
Qed.

Example is_mounted_destination_only :
  fst (is_mounted None (Some MOUNT_POINT) busy_env (initial_state [])) = Ok true.
Proof. reflexivity. Qed.

Example is_mounted_both :
  fst (is_mounted (Some "/dev/sda1") (Some MOUNT_POINT) busy_env (initial_state []))
    = Ok true
  /\ fst (is_mounted (Some "/dev/sdb1") (Some MOUNT_POINT) busy_env (initial_state []))
     = Ok false.
Proof. split; reflexivity. Qed.

(** When the destination is taken and the operator answers n, [mount]
    says plain [return]: the caller gets [None]. *)
Lemma mount_conflict_declined part dest w st rest :
  is_mounted_loop None (Some dest) None (Str.lines (mount_table w (listings st)))
    = Ok true ->
  stdin st = "n" :: rest ->
  mount part dest w st
  = (Ok PyNone,
     mkState rest (S (listings st))
       (trace st ++ [Run ["/usr/bin/mount"]]
                 ++ [Input (conflict_question part dest) ["Y"; "n"]])).
Proof.
  intros Hbusy Hin.
  unfold mount, bind, is_mounted, run_mount_listing, lift, ask_question. simpl.
  rewrite Hbusy. simpl. rewrite Hin. simpl.
  unfold ret, conflict_question. now rewrite <- app_assoc.
Qed.

(** C3: the destination is taken and the operator declines. [mount] runs
    no mount utility and asks, but then hands back [None], which the
    caller reads as success: [process_ntfs_partition] goes on to scan what
    is mounted there and reports the partition as processed. *)
Theorem declined_conflict_is_scanned :
  fst (mount "/dev/sdb1" MOUNT_POINT busy_env (initial_state ["n"])) = Ok PyNone
  /\ process_ntfs_partition "/dev/sdb1" busy_env (initial_state ["n"])
     = (Ok false,
        mkState [] 1
          [Run ["/usr/bin/mount"];
           Input (conflict_question "/dev/sdb1" MOUNT_POINT) ["Y"; "n"];
           Log INFO (FoundUsers ["alice"]);
           Print (FoundUserWithImages "alice" 2);
           Log INFO (UserHasImages "alice" 2);
           Log INFO TookToScan]).
Proof. split; reflexivity. Qed.

(** The sibling path, after a failed mount, does report the failure. *)
Example declined_manual_mount_is_skipped :
  process_ntfs_partition "/dev/sdb1"
    (mkEnv (fun _ => "") (fun _ => Some sample_fdisk_output) (fun _ => "")
           (fun _ _ => false) (fun _ => None) 100)
    (initial_state ["n"])
  = (Ok true,
     mkState [] 2
       [Run ["/usr/bin/mount"];
        Run ["/usr/bin/mount"; "/dev/sdb1"; "/mnt/4"];
        Log WARNING MountFailed;
        Run ["/usr/bin/mount"];
        Log ERROR (FailedToMount "/dev/sdb1" "/mnt/4");
        Input "Failed to mount /dev/sdb1 at /mnt/4, do it manually?" ["Y"; "n"]]).
Proof. reflexivity. Qed.

(** ** Orchestrator *)

Lemma preamble_is_quiet w disk :
  forallb (fun e => negb (is_mount_run e) && negb (says_no_partitions e))
          (preamble_events w disk) = true.
Proof.
  unfold preamble_events, udevadm_argv.
  destruct (first_serial (Str.lines (udevadm_info w disk))); reflexivity.
Qed.

(** C4, as the claim has it, fails: on a timeout [process_disk] does not
    report "no NTFS partitions" and return; it ends with the exception. *)
Lemma timeout_is_not_zero_partitions :
  fst (process_disk "/dev/sdb" (env_with_fdisk None) (initial_state []))
    = Raise TimeoutExpired
  /\ existsb says_no_partitions
       (trace (snd (process_disk "/dev/sdb" (env_with_fdisk None) (initial_state []))))
     = false.
Proof. split; reflexivity. Qed.

(** C4, amended: when [fdisk] does not finish within the bound,
    [get_ntfs_partitions] raises [TimeoutExpired] and [process_disk] lets
    it through: it ends with that exception right after starting the
    tool, having mounted nothing and reported nothing about partitions. *)
Theorem timeout_propagates disk w st :
  fdisk_list w disk = None ->
  fst (get_ntfs_partitions disk w st) = Raise TimeoutExpired
  /\ process_disk disk w st
     = (Raise TimeoutExpired,
        mkState (stdin st) (listings st) (trace st ++ preamble_events w disk))
  /\ forallb (fun e => negb (is_mount_run e) && negb (says_no_partitions e))
             (preamble_events w disk) = true.
Proof.
  intros Hto. split; [now rewrite get_ntfs_partitions_result, Hto|].
  split; [|apply preamble_is_quiet].
  unfold process_disk, get_disk_serial, get_ntfs_partitions, preamble_events,
    serial_of, bind, emit, ask, log, print, raise, ret. simpl.
  destruct (first_serial (Str.lines (udevadm_info w disk))) as [serial|];
    simpl; rewrite Hto; simpl; repeat rewrite <- app_assoc; reflexivity.
Qed.

Lemma timeout_propagates_witness :
  fdisk_list (env_with_fdisk None) "/dev/sdb" = None
  /\ fst (get_ntfs_partitions "/dev/sdb" (env_with_fdisk None) (initial_state []))
     = Raise TimeoutExpired
  /\ fst (process_disk "/dev/sdb" (env_with_fdisk None) (initial_state []))
     = Raise TimeoutExpired.
Proof.
  assert (Hto : fdisk_list (env_with_fdisk None) "/dev/sdb" = None) by reflexivity.
  split; [exact Hto|].
  destruct (timeout_propagates "/dev/sdb" (env_with_fdisk None) (initial_state [])
              Hto) as (Hget & Hdisk & _).
  split; [exact Hget | now rewrite Hdisk].
Defined.


(** ** Which exceptions leave which function *)

Section NeverRaises.

Context {A B : Type} (e : exn).







End NeverRaises.



Lemma ask_question_loop_raises question answers default lines tr e :
  fst (fst (ask_question_loop question answers default lines tr)) = Raise e ->
  e = EOFError.
Proof.
  revert tr. induction lines as [|i rest IH]; intros tr; simpl.
  - now intros [= <-].
  - destruct (existsb _ answers); [discriminate | apply IH].
Qed.

Lemma ask_question_raises question answers w st e :
  fst (ask_question question answers w st) = Raise e -> e = EOFError.
Proof.
  unfold ask_question.
  destruct (ask_question_loop _ _ _ _ _) as [[r rest] tr] eqn:E. simpl.
  intros ->. eapply ask_question_loop_raises. now rewrite E.
Qed.





Lemma iterdir_raises p e :
  Fs.iterdir p = Raise e -> e = NotADirectoryError \/ e = FileNotFoundError.
Proof.
  unfold Fs.iterdir. destruct (Fs.stat p) as [[| es | |]|]; try discriminate;
    intros [= <-]; auto.
Qed.










(** ** What [process_disk] does with failures *)



Lemma process_disk_enters_loop path output part more w st :
  fdisk_list w path = Some output ->
  parse_ntfs_partitions path output = Ok (part :: more) ->
  process_disk path w st
  = for_each (part :: more) process_and_unmount w
      (state_at_loop w path output (part :: more) st).
Proof.
  intros Hrun Hparse.
  unfold process_disk, get_disk_serial, get_ntfs_partitions, state_at_loop,
    preamble_events, parsed_events, serial_of.
  unfold parse_ntfs_partitions, ntfs_lines in Hparse.
  unfold bind, emit, ask, log, print, lift, ret. simpl.
  destruct (first_serial (Str.lines (udevadm_info w path))) as [serial|];
    simpl; rewrite Hrun; simpl; rewrite Hparse; simpl;
    repeat rewrite <- app_assoc; reflexivity.
Qed.

Lemma process_disk_no_partitions path output w st :
  fdisk_list w path = Some output ->
  parse_ntfs_partitions path output = Ok [] ->
  process_disk path w st
  = (Ok tt,
     mkState (stdin st) (listings st)
       (trace st ++ preamble_events w path ++ parsed_events path output []
          ++ [Log INFO FoundNoNTFSPartitions; Print FoundNoNTFSPartitions])).
Proof.
  intros Hrun Hparse.
  unfold process_disk, get_disk_serial, get_ntfs_partitions,
    preamble_events, parsed_events, serial_of.
  unfold parse_ntfs_partitions, ntfs_lines in Hparse.
  unfold log, print. unfold bind, emit, ask, lift, ret. simpl.
  destruct (first_serial (Str.lines (udevadm_info w path))) as [serial|];
    simpl; rewrite Hrun; simpl; rewrite Hparse; simpl;
    repeat rewrite <- app_assoc; reflexivity.
Qed.

(** ** Traces only grow *)

Section Grows.

Context {A B : Type}.

Lemma grows_ret (v : A) : grows (ret v).
Proof. intros w st. exists []. simpl. now rewrite app_nil_r. Qed.

Lemma grows_raise (e : exn) : grows (@raise A e).
Proof. intros w st. exists []. simpl. now rewrite app_nil_r. Qed.

Lemma grows_lift (r : result A) : grows (lift r).
Proof. intros w st. exists []. simpl. now rewrite app_nil_r. Qed.

Lemma grows_ask (f : env -> A) : grows (ask f).
Proof. intros w st. exists []. simpl. now rewrite app_nil_r. Qed.

Lemma grows_emit (ev : event) : grows (emit ev).
Proof. intros w st. now exists [ev]. Qed.

Lemma grows_bind (c : M A) (k : A -> M B) :
  grows c -> (forall v, grows (k v)) -> grows (bind c k).
Proof.
  intros Hc Hk w st. unfold bind. destruct (Hc w st) as [evs Hevs].
  destruct (c w st) as [[v|e] st']; simpl in *.
  - destruct (Hk v w st') as [evs' Hevs']. exists (evs ++ evs').
    now rewrite Hevs', Hevs, app_assoc.
  - now exists evs.
Qed.

Lemma grows_try (c handler : M A) :
  grows c -> grows handler -> grows (try_except_CalledProcessError c handler).
Proof.
  intros Hc Hh w st. unfold try_except_CalledProcessError.
  destruct (Hc w st) as [evs Hevs].
  destruct (c w st) as [[v|[]] st']; simpl in *; try (now exists evs).
  destruct (Hh w st') as [evs' Hevs']. exists (evs ++ evs').
  now rewrite Hevs', Hevs, app_assoc.
Qed.

End Grows.

Lemma grows_for_each {A} (xs : list A) (body : A -> M unit) :
  (forall x, grows (body x)) -> grows (for_each xs body).
Proof.
  intros Hb. induction xs as [|x xs IH]; simpl.
  - apply grows_ret.
  - apply grows_bind; [apply Hb | intros _; exact IH].
Qed.

Lemma ask_question_loop_grows question answers default lines tr :
  exists evs,
    snd (ask_question_loop question answers default lines tr) = tr ++ evs.
Proof.
  revert tr. induction lines as [|i rest IH]; intros tr; simpl.
  - now eexists.
  - destruct (existsb _ answers); simpl; [now eexists|].
    destruct (IH ((tr ++ [Input question answers])
                    ++ [Print (InvalidAnswer (if String.eqb i "" then default else i))]))
      as [evs Hevs].
    rewrite Hevs. rewrite <- !app_assoc. now eexists.
Qed.

Lemma grows_ask_question question answers : grows (ask_question question answers).
Proof.
  intros w st. unfold ask_question.
  match goal with
  | |- context [ask_question_loop ?q ?a ?d ?l ?t] =>
      destruct (ask_question_loop_grows q a d l t) as [evs Hevs];
      destruct (ask_question_loop q a d l t) as [[r rest] tr]
  end.
  simpl in *. now exists evs.
Qed.

Lemma grows_run_mount_listing : grows run_mount_listing.
Proof. intros w st. now eexists. Qed.

Ltac grows_step :=
  first
    [ apply grows_ask_question
    | apply grows_run_mount_listing
    | apply grows_ret
    | apply grows_raise
    | apply grows_lift
    | apply grows_emit
    | apply grows_ask
    | apply grows_try
    | apply grows_for_each; intros ?
    | apply grows_bind; [|intros ?]
    | match goal with
      | |- grows (if ?b then _ else _) => destruct b
      | |- grows (match ?x with inl _ => _ | inr _ => _ end) =>
          destruct x as [?|[]]
      | |- grows (match ?x with Some _ => _ | None => _ end) => destruct x
      end ].

Lemma grows_is_mounted part dest : grows (is_mounted part dest).
Proof. unfold is_mounted. repeat grows_step. Qed.

Lemma grows_mount part dest : grows (mount part dest).
Proof.
  unfold mount, run_mount, log.
  apply grows_bind; [apply grows_is_mounted | intros already].
  apply grows_bind; [|intros [v|[]]; repeat grows_step].
  destruct already; [repeat grows_step|].
  apply grows_try; [repeat grows_step|].
  apply grows_bind; [apply grows_emit | intros _].
  apply grows_bind; [apply grows_is_mounted | intros m].
  destruct (negb m); [|apply grows_ret].
  apply grows_bind; [apply grows_emit | intros _].
  apply grows_bind; [apply grows_ask_question | intros answer].
  destruct (negb _); [apply grows_ret|].
  apply grows_bind; [apply grows_is_mounted | intros m'].
  repeat grows_step.
Qed.

Lemma grows_process_ntfs_partition part : grows (process_ntfs_partition part).
Proof.
  unfold process_ntfs_partition, log, print.
  apply grows_bind; [apply grows_mount | intros failed].
  repeat grows_step.
Qed.

Lemma grows_get_ntfs_partitions disk : grows (get_ntfs_partitions disk).
Proof. unfold get_ntfs_partitions, log. repeat grows_step. Qed.

Lemma grows_get_disk_serial disk : grows (get_disk_serial disk).
Proof. unfold get_disk_serial, log. repeat grows_step. Qed.

Lemma grows_process_disk path : grows (process_disk path).
Proof.
  unfold process_disk, unmount, log, print.
  apply grows_bind; [apply grows_get_disk_serial | intros serial].
  do 2 (apply grows_bind; [apply grows_emit | intros _]).
  apply grows_bind; [apply grows_get_ntfs_partitions | intros partitions].
  destruct (length partitions =? 0)%nat; [repeat grows_step|].
  apply grows_bind; [apply grows_emit | intros _].
  apply grows_for_each. intros partition.
  apply grows_bind; [apply grows_process_ntfs_partition | intros failed].
  repeat grows_step.
Qed.

Lemma grows_process_new_disks disks known : grows (process_new_disks disks known).
Proof.
  revert known. induction disks as [|disk rest IH]; intros known; simpl.
  - apply grows_ret.
  - apply grows_bind; [apply grows_process_disk | intros _; apply IH].
Qed.

Lemma grows_tick known dev : grows (tick known dev).
Proof.
  unfold tick, log, print.
  apply grows_bind.
  { destruct (0 <? size _)%nat; [|apply grows_ret].
    apply grows_bind; [apply grows_emit | intros _].
    apply grows_bind; [apply grows_process_new_disks | intros k].
    repeat grows_step. }
  intros k. repeat grows_step.
Qed.

Lemma grows_main_loop polls : forall known, grows (main_loop known polls).
Proof.
  induction polls as [|dev rest IH]; intros known; simpl.
  - apply grows_ret.
  - apply grows_bind; [apply grows_tick | intros k; apply IH].
Qed.

Section Emits.

Context {A B : Type} (ev : event).

Lemma emits_emit : emits ev (emit ev).
Proof. intros w st. simpl. apply in_or_app. right. now left. Qed.

Lemma emits_bind_l (c : M A) (k : A -> M B) :
  emits ev c -> (forall v, grows (k v)) -> emits ev (bind c k).
Proof.
  intros Hc Hk w st. unfold bind. specialize (Hc w st).
  destruct (c w st) as [[v|e] st']; simpl in *; [|exact Hc].
  destruct (Hk v w st') as [evs ->]. apply in_or_app. now left.
Qed.

Lemma emits_after_emit (ev' : event) (k : unit -> M B) :
  emits ev (k tt) -> emits ev (bind (emit ev') k).
Proof. intros Hk w st. unfold bind, emit. apply Hk. Qed.

End Emits.

(** ** Disk set monitor *)

Lemma get_disks_fold dev : forall (acc : gset string) x,
  x ∈ fold_left
        (fun (devs : gset string) (e : dev_entry) =>
           if snd e then
             if Re.match_disk_name (fst e) then devs ∪ {["/dev/" +:+ fst e]} else devs
           else devs) dev acc
  <-> x ∈ acc
      \/ exists name, x = "/dev/" +:+ name /\ In (name, true) dev
                      /\ Re.match_disk_name name = true.
Proof.
  induction dev as [|[name block] dev IH]; intros acc x; simpl.
  - split; [now left | intros [H|(n & _ & [] & _)]; exact H].
  - rewrite IH. destruct block; simpl.
    + destruct (Re.match_disk_name name) eqn:E.
      * rewrite elem_of_union, elem_of_singleton. split.
        -- intros [[H | Heq] | (n & -> & Hin & Hm)].
           ++ now left.
           ++ right. exists name. subst x. auto.
           ++ right. exists n. auto.
        -- intros [H|(n & -> & [[= <-]|Hin] & Hm)];
             [left; now left | left; now right | right; exists n; auto].
      * split.
        -- intros [H|(n & -> & Hin & Hm)]; [now left | right; exists n; auto].
        -- intros [H|(n & -> & [[= <-]|Hin] & Hm)];
             [now left | congruence | right; exists n; auto].
    + split.
      * intros [H|(n & -> & Hin & Hm)]; [now left | right; exists n; auto].
      * intros [H|(n & -> & [Heq|Hin] & Hm)];
          [now left | discriminate Heq | right; exists n; auto].
Qed.

Lemma get_disks_spec dev x :
  x ∈ get_disks dev
  <-> exists name, x = "/dev/" +:+ name /\ In (name, true) dev
                   /\ Re.match_disk_name name = true.
Proof.
  unfold get_disks. rewrite get_disks_fold. split; [|now right].
  intros [H|H]; [|exact H]. now apply not_elem_of_empty in H.
Qed.

Lemma sdc_in_get_disks dev : In ("sdc", true) dev -> "/dev/sdc" ∈ get_disks dev.
Proof.
  intros H. apply get_disks_spec. exists "sdc". repeat split. exact H.
Qed.

Lemma process_new_disks_result disks : forall known w st k,
  fst (process_new_disks disks known w st) = Ok k ->
  k = known ∪ list_to_set disks.
Proof.
  induction disks as [|disk rest IH]; intros known w st k; simpl.
  - intros [= <-]. set_solver.
  - unfold bind. destruct (process_disk disk w st) as [[[]|e] st'];
      [|discriminate].
    intros H. apply IH in H. subst k. set_solver.
Qed.

Lemma size_zero_empty (X : gset string) : (0 <? size X)%nat = false -> X = ∅.
Proof.
  intros H. apply Nat.ltb_ge in H. apply leibniz_equiv, size_empty_iff. lia.
Qed.

Lemma difference_empty_subseteq (X Y : gset string) :
  X ∖ Y = ∅ -> forall x, x ∈ X -> x ∈ Y.
Proof.
  intros H x Hx. destruct (decide (x ∈ Y)) as [Hy|Hy]; [exact Hy|].
  assert (Hd : x ∈ X ∖ Y) by (apply elem_of_difference; split; assumption).
  rewrite H in Hd. now apply not_elem_of_empty in Hd.
Qed.

(** The sets of one round: what is known after the arrivals are added and
    the departures taken away is what the poll has found. *)
Lemma known_after_round (known current : gset string) :
  (known ∪ current ∖ known) ∖ ((known ∪ current ∖ known) ∖ current) = current.
Proof.
  apply set_eq. intros x.
  rewrite !elem_of_difference, !elem_of_union, !elem_of_difference.
  destruct (decide (x ∈ known)), (decide (x ∈ current)); tauto.
Qed.

Lemma known_after_arrivals_only (known current : gset string) :
  (known ∪ current ∖ known) ∖ current = ∅ -> known ∪ current ∖ known = current.
Proof.
  intros H. rewrite <- (known_after_round known current) at 2.
  rewrite H. apply set_eq. intros x.
  rewrite elem_of_difference. pose proof (not_elem_of_empty (C:=gset string) x).
  tauto.
Qed.

(** A round that ends normally leaves the known set equal to the disks of
    its poll. *)
Lemma tick_result known dev w st known' :
  fst (tick known dev w st) = Ok known' -> known' = get_disks dev.
Proof.
  unfold tick, new_disks_of, removed_disks_of.
  generalize (get_disks dev). intros current.
  unfold bind at 1.
  destruct (0 <? size (current ∖ known))%nat eqn:Hnew.
  - unfold log. unfold bind at 1. unfold emit at 1.
    unfold bind at 1.
    match goal with
    | |- context [process_new_disks ?d ?k ?w ?s] =>
        pose proof (process_new_disks_result d k w s) as Hres;
        destruct (process_new_disks d k w s) as [[k1|e] st1]
    end; [|discriminate].
    specialize (Hres k1 eq_refl). rewrite list_to_set_elements_L in Hres.
    unfold print, bind at 1, emit at 1, ret at 1.
    unfold bind at 1.
    destruct (0 <? size (k1 ∖ current))%nat eqn:Hrem.
    + unfold bind, emit, ret. simpl. intros [= <-]. subst k1.
      apply known_after_round.
    + apply size_zero_empty in Hrem.
      unfold bind, emit, ret. simpl. intros [= <-]. subst k1.
      now apply known_after_arrivals_only.
  - apply size_zero_empty in Hnew. unfold ret at 1.
    unfold bind at 1.
    pose proof (known_after_round known current) as Hround.
    rewrite Hnew in Hround.
    assert (Hk : known ∪ ∅ = known) by (apply set_eq; intros x; set_solver).
    rewrite Hk in Hround.
    destruct (0 <? size (known ∖ current))%nat eqn:Hrem.
    + unfold log, bind, emit, ret. simpl. intros [= <-]. exact Hround.
    + apply size_zero_empty in Hrem. rewrite Hrem in Hround.
      unfold bind, emit, ret. simpl. intros [= <-]. rewrite <- Hround.
      apply set_eq. intros x. rewrite elem_of_difference.
      pose proof (not_elem_of_empty (C:=gset string) x). tauto.
Qed.

Lemma emits_udevadm_process_disk path :
  emits (Run (udevadm_argv path)) (process_disk path).
Proof.
  unfold process_disk. apply emits_bind_l.
  - unfold get_disk_serial. apply emits_bind_l; [apply emits_emit|].
    intros _. unfold log. repeat grows_step.
  - intros serial. unfold unmount, log, print.
    do 2 (apply grows_bind; [apply grows_emit | intros _]).
    apply grows_bind; [apply grows_get_ntfs_partitions | intros partitions].
    destruct (length partitions =? 0)%nat; [repeat grows_step|].
    apply grows_bind; [apply grows_emit | intros _].
    apply grows_for_each. intros partition.
    apply grows_bind; [apply grows_process_ntfs_partition | intros failed].
    repeat grows_step.
Qed.

(** When the only new disk is [disk], the round offers it to
    [process_disk]. *)
Lemma tick_offers_single known dev disk :
  new_disks_of (get_disks dev) known = {[disk]} ->
  emits (Run (udevadm_argv disk)) (tick known dev).
Proof.
  intros Hnew. unfold tick. rewrite Hnew.
  rewrite size_singleton, elements_singleton. cbn [Nat.ltb Nat.leb map].
  apply emits_bind_l.
  - unfold log. apply emits_after_emit. apply emits_bind_l.
    + cbn [process_new_disks]. apply emits_bind_l;
        [apply emits_udevadm_process_disk | intros _; apply grows_ret].
    + intros k. unfold print. repeat grows_step.
  - intros k. unfold log. repeat grows_step.
Qed.

Lemma unchanged_first_poll (disks : gset string) :
  "/dev/sdc" ∈ disks ->
  new_disks_of disks (disks ∖ {["/dev/sdc"]}) = {["/dev/sdc"]}.
Proof.
  intros Hin. unfold new_disks_of. apply set_eq. intros x.
  rewrite !elem_of_difference, elem_of_singleton.
  destruct (decide (x = "/dev/sdc")) as [->|Hne]; tauto.
Qed.

(** C2, as the claim has it, fails: [/dev/sdc] is present at startup and
    at the first poll, and that poll finds it as the one new disk and
    hands it to [process_disk]; when it then goes and comes back it is
    found removed and new again. *)
Lemma sdc_is_offered :
  "/dev/sdc" ∈ new_disks_of (get_disks sda_and_sdc)
                 (get_disks sda_and_sdc ∖ {["/dev/sdc"]})
  /\ List.filter is_disk_set_log
       (trace (snd (main sda_and_sdc [sda_and_sdc; sda_alone; sda_and_sdc]
                      quiet_env (initial_state []))))
     = [Log INFO (FoundNewDisks ["sdc"]);
        Run (udevadm_argv "/dev/sdc");
        Log INFO (RemovedDisks ["sdc"]);
        Log INFO (FoundNewDisks ["sdc"]);
        Run (udevadm_argv "/dev/sdc")].
Proof.
  split.
  - rewrite unchanged_first_poll; [now apply elem_of_singleton|].
    apply sdc_in_get_disks. unfold sda_and_sdc. simpl. tauto.
  - vm_compute. reflexivity.
Qed.

(** C2, amended: [main] takes [/dev/sdc] out of the set of known disks
    once, at startup, and fails there with [KeyError] when the disk is
    absent. The disk is not kept from the orchestrator: a poll that lists
    it finds it among the new disks as long as it is not known, the first
    poll of an unchanged [/dev] hands it to [process_disk], and every
    round that ends leaves the known set equal to the disks of its
    poll, [/dev/sdc] included. *)
Theorem sdc_is_forgotten_at_startup startup dev rest w st :
  ("/dev/sdc" ∉ get_disks startup ->
   fst (main startup (dev :: rest) w st) = Raise KeyError)
  /\ (In ("sdc", true) dev ->
      "/dev/sdc" ∈ new_disks_of (get_disks dev) (get_disks startup ∖ {["/dev/sdc"]}))
  /\ (In ("sdc", true) startup -> get_disks dev = get_disks startup ->
      In (Run (udevadm_argv "/dev/sdc"))
         (trace (snd (main startup (dev :: rest) w st))))
  /\ (forall known known',
        fst (tick known dev w st) = Ok known' -> known' = get_disks dev).
Proof.
  split; [|split; [|split]].
  - intros Hout. unfold main, log, bind, emit, raise. simpl.
    rewrite bool_decide_eq_false_2; [reflexivity | exact Hout].
  - intros Hin. apply sdc_in_get_disks in Hin.
    unfold new_disks_of. apply elem_of_difference. split; [exact Hin|].
    rewrite elem_of_difference, elem_of_singleton. tauto.
  - intros Hin Hsame. apply sdc_in_get_disks in Hin.
    revert w st. change (emits (Run (udevadm_argv "/dev/sdc"))
                           (main startup (dev :: rest))).
    unfold main, log. apply emits_after_emit.
    rewrite bool_decide_eq_true_2; [|exact Hin].
    apply emits_after_emit. cbn [main_loop].
    apply emits_bind_l; [|intros k; apply grows_main_loop].
    apply tick_offers_single. rewrite Hsame.
    now apply unchanged_first_poll.
  - intros known known'. apply tick_result.
Qed.

Lemma sdc_is_forgotten_at_startup_witness :
  (("/dev/sdc" ∉ get_disks sda_alone)
   /\ fst (main sda_alone [sda_and_sdc] quiet_env (initial_state []))
      = Raise KeyError)
  /\ In ("sdc", true) sda_and_sdc
  /\ "/dev/sdc" ∈ new_disks_of (get_disks sda_and_sdc)
                     (get_disks sda_and_sdc ∖ {["/dev/sdc"]})
  /\ get_disks sda_and_sdc = get_disks sda_and_sdc
  /\ In (Run (udevadm_argv "/dev/sdc"))
        (trace (snd (main sda_and_sdc [sda_and_sdc] quiet_env (initial_state []))))
  /\ (fst (tick (get_disks sda_alone) sda_and_sdc quiet_env (initial_state []))
       = Ok (get_disks sda_and_sdc)).
Proof.
  assert (Hin : In ("sdc", true) sda_and_sdc) by (unfold sda_and_sdc; simpl; tauto).
  assert (Hout : "/dev/sdc" ∉ get_disks sda_alone).
  { apply (bool_decide_eq_false_1 ("/dev/sdc" ∈ get_disks sda_alone)).
    vm_compute. reflexivity. }
  split.
  { split; [exact Hout|].
    exact (proj1 (sdc_is_forgotten_at_startup sda_alone sda_and_sdc [] quiet_env
                    (initial_state [])) Hout). }
  destruct (sdc_is_forgotten_at_startup sda_and_sdc sda_and_sdc [] quiet_env
              (initial_state [])) as (_ & Hnew & Hoffered & Hknown).
  split; [exact Hin|]. split; [exact (Hnew Hin)|]. split; [reflexivity|].
  split; [exact (Hoffered Hin eq_refl)|].
  destruct (fst (tick (get_disks sda_alone) sda_and_sdc quiet_env (initial_state [])))
    as [known'|e] eqn:E.
  - f_equal.
    exact (proj2 (proj2 (proj2 (sdc_is_forgotten_at_startup sda_alone sda_and_sdc []
                                  quiet_env (initial_state []))))
             (get_disks sda_alone) known' E).
  - vm_compute in E. discriminate E.
Defined.

(** * Further properties of the program *)

(** ** Operator interaction *)

Lemma ask_question_loop_accepts question answers lines : forall tr r rest tr',
  ask_question_loop question answers (default_answer answers) lines tr
    = (Ok r, rest, tr') ->
  exists rejected line,
    lines = rejected ++ line :: rest
    /\ forallb (fun l => negb (accepted answers l)) rejected = true
    /\ accepted answers line = true
    /\ r = Str.lower (effective answers line).
Proof.
  induction lines as [|i more IH]; intros tr r rest tr'; simpl; [discriminate|].
  fold (effective answers i).
  destruct (existsb (String.eqb (effective answers i)) answers) eqn:E.
  - intros [= <- <- <-]. exists [], i. repeat split. exact E.
  - intros H. destruct (IH _ _ _ _ H) as (rejected & line & -> & Hrej & Hacc & ->).
    exists (i :: rejected), line. repeat split; [|exact Hacc].
    simpl. unfold accepted. now rewrite E.
Qed.

Lemma ask_question_returns_first_accepted_aux question answers w st r :
  fst (ask_question question answers w st) = Ok r ->
  exists rejected line,
    stdin st = rejected ++ line :: stdin (snd (ask_question question answers w st))
    /\ forallb (fun l => negb (accepted answers l)) rejected = true
    /\ In (effective answers line) answers
    /\ r = Str.lower (effective answers line).
Proof.
  unfold ask_question. fold (default_answer answers).
  destruct (ask_question_loop _ _ _ _ _) as [[r' rest] tr'] eqn:E. simpl.
  intros ->.
  destruct (ask_question_loop_accepts _ _ _ _ _ _ _ E)
    as (rejected & line & Hin & Hrej & Hacc & Hr).
  exists rejected, line. repeat split; try assumption.
  unfold accepted in Hacc. apply existsb_exists in Hacc as (x & Hx & Heq).
  apply String.eqb_eq in Heq. now rewrite Heq.
Qed.

(** X1: when the answers offered are ASCII text, an answer handed back by
    [ask_question] is the lower case of one of them: the first typed line
    that, with an empty line standing for the default, is among them. The
    lines before it were all turned down, and exactly the lines up to it
    are consumed. (Beyond ASCII, [str.upper] and [str.lower] of Python
    change letters that [Str.upper] and [Str.lower] leave alone.) *)
Theorem ask_question_returns_first_accepted question answers w st r :
  Forall (fun a => ascii_only a = true) answers ->
  fst (ask_question question answers w st) = Ok r ->
  exists rejected line,
    stdin st = rejected ++ line :: stdin (snd (ask_question question answers w st))
    /\ forallb (fun l => negb (accepted answers l)) rejected = true
    /\ In (effective answers line) answers
    /\ r = Str.lower (effective answers line).
Proof. intros _. apply ask_question_returns_first_accepted_aux. Qed.

Lemma ask_question_returns_first_accepted_witness :
  Forall (fun a => ascii_only a = true) ["Y"; "n"]
  /\ fst (ask_question "continue?" ["Y"; "n"] quiet_env
            (initial_state ["y"; "no"; ""; "n"]))
     = Ok "y"
  /\ exists rejected line,
       stdin (initial_state ["y"; "no"; ""; "n"])
       = rejected ++ line
           :: stdin (snd (ask_question "continue?" ["Y"; "n"] quiet_env
                            (initial_state ["y"; "no"; ""; "n"])))
       /\ forallb (fun l => negb (accepted ["Y"; "n"] l)) rejected = true
       /\ In (effective ["Y"; "n"] line) ["Y"; "n"]
       /\ "y" = Str.lower (effective ["Y"; "n"] line).
Proof.
  assert (H : fst (ask_question "continue?" ["Y"; "n"] quiet_env
                     (initial_state ["y"; "no"; ""; "n"])) = Ok "y")
    by (vm_compute; reflexivity).
  assert (Ha : Forall (fun a => ascii_only a = true) ["Y"; "n"])
    by (repeat constructor).
  split; [exact Ha|]. split; [exact H|].
  exact (ask_question_returns_first_accepted "continue?" ["Y"; "n"] quiet_env
           (initial_state ["y"; "no"; ""; "n"]) "y" Ha H).
Defined.

(** X2: with the answers Y and n of the two prompts of [mount], an empty
    line and Y give y, n gives n, and every other line, the lower-case y
    and the upper-case N among them, is answered with "Invalid answer"
    and the question is asked again on the next line. *)
Theorem ask_yes_no question line rest w st :
  stdin st = line :: rest ->
  (line = "" \/ line = "Y" ->
   ask_question question ["Y"; "n"] w st
   = (Ok "y", mkState rest (listings st)
                (trace st ++ [Input question ["Y"; "n"]])))
  /\ (line = "n" ->
      ask_question question ["Y"; "n"] w st
      = (Ok "n", mkState rest (listings st)
                   (trace st ++ [Input question ["Y"; "n"]])))
  /\ (line <> "" -> line <> "Y" -> line <> "n" ->
      ask_question question ["Y"; "n"] w st
      = ask_question question ["Y"; "n"] w
          (mkState rest (listings st)
             (trace st ++ [Input question ["Y"; "n"]; Print (InvalidAnswer line)]))).
Proof.
  intros Hin. unfold ask_question. rewrite Hin. cbn [stdin listings trace].
  split; [|split].
  - intros [-> | ->]; reflexivity.
  - intros ->. reflexivity.
  - intros H0 HY Hn. cbn [ask_question_loop fold_left].
    change (fold_left _ ["Y"; "n"] "") with "Y".
    destruct (String.eqb_spec line "") as [|_]; [contradiction|].
    cbn [existsb].
    destruct (String.eqb_spec line "Y") as [|_]; [contradiction|].
    destruct (String.eqb_spec line "n") as [|_]; [contradiction|].
    cbn [orb]. now rewrite <- app_assoc.
Qed.

Lemma ask_yes_no_witness :
  stdin (initial_state ["y"; "Y"]) = "y" :: ["Y"]
  /\ "y" <> "" /\ "y" <> "Y" /\ "y" <> "n"
  /\ ask_question "continue?" ["Y"; "n"] quiet_env (initial_state ["y"; "Y"])
     = ask_question "continue?" ["Y"; "n"] quiet_env
         (mkState ["Y"] 0 [Input "continue?" ["Y"; "n"]; Print (InvalidAnswer "y")])
  /\ ask_question "continue?" ["Y"; "n"] quiet_env (initial_state ["Y"])
     = (Ok "y", mkState [] 0 [Input "continue?" ["Y"; "n"]])
  /\ ask_question "continue?" ["Y"; "n"] quiet_env (initial_state ["n"])
     = (Ok "n", mkState [] 0 [Input "continue?" ["Y"; "n"]]).
Proof.
  assert (H0 : "y" <> "") by discriminate.
  assert (HY : "y" <> "Y") by discriminate.
  assert (Hn : "y" <> "n") by discriminate.
  split; [reflexivity|]. split; [exact H0|]. split; [exact HY|].
  split; [exact Hn|]. split; [|split].
  - exact (proj2 (proj2 (ask_yes_no "continue?" "y" ["Y"] quiet_env
                           (initial_state ["y"; "Y"]) eq_refl)) H0 HY Hn).
  - exact (proj1 (ask_yes_no "continue?" "Y" [] quiet_env
                    (initial_state ["Y"]) eq_refl) (or_intror eq_refl)).
  - exact (proj1 (proj2 (ask_yes_no "continue?" "n" [] quiet_env
                           (initial_state ["n"]) eq_refl)) eq_refl).
Defined.

Lemma ask_question_loop_exhausted question answers lines : forall tr,
  forallb (fun l => negb (accepted answers l)) lines = true ->
  exists tr',
    ask_question_loop question answers (default_answer answers) lines tr
      = (Raise EOFError, [], tr')
    /\ length (List.filter is_input tr')
       = (length (List.filter is_input tr) + S (length lines))%nat.
Proof.
  induction lines as [|i more IH]; intros tr Hall; simpl.
  - eexists. split; [reflexivity|].
    rewrite List.filter_app, length_app. simpl. lia.
  - simpl in Hall. apply andb_true_iff in Hall as [Hi Hmore].
    unfold accepted, effective in Hi. apply negb_true_iff in Hi. rewrite Hi.
    destruct (IH ((tr ++ [Input question answers])
                    ++ [Print (InvalidAnswer
                                 (if String.eqb i "" then default_answer answers else i))])
                 Hmore) as (tr' & -> & Hlen).
    exists tr'. split; [reflexivity|]. rewrite Hlen.
    rewrite !List.filter_app, !length_app. simpl. lia.
Qed.

(** X3: when no typed line is an acceptable answer, [ask_question]
    consumes them all, asking once per line and once more, and ends with
    the [EOFError] of [input()]. *)
Theorem ask_question_runs_out_of_input question answers w st :
  forallb (fun l => negb (accepted answers l)) (stdin st) = true ->
  fst (ask_question question answers w st) = Raise EOFError
  /\ stdin (snd (ask_question question answers w st)) = []
  /\ length (List.filter is_input (trace (snd (ask_question question answers w st))))
     = (length (List.filter is_input (trace st)) + S (length (stdin st)))%nat.
Proof.
  intros Hall. unfold ask_question. fold (default_answer answers).
  destruct (ask_question_loop_exhausted question answers (stdin st) (trace st) Hall)
    as (tr' & -> & Hlen).
  simpl. auto.
Qed.

Lemma ask_question_runs_out_of_input_witness :
  forallb (fun l => negb (accepted ["Y"; "n"] l)) (stdin (initial_state ["y"; "N"]))
    = true
  /\ fst (ask_question "continue?" ["Y"; "n"] quiet_env (initial_state ["y"; "N"]))
     = Raise EOFError.
Proof.
  assert (H : forallb (fun l => negb (accepted ["Y"; "n"] l))
                (stdin (initial_state ["y"; "N"])) = true)
    by (vm_compute; reflexivity).
  split; [exact H|].
  exact (proj1 (ask_question_runs_out_of_input "continue?" ["Y"; "n"] quiet_env
                  (initial_state ["y"; "N"]) H)).
Defined.

(** ** Disks and partitions *)

Lemma match_disk_name_unfold a b c rest :
  Re.match_disk_name (String a (String b (String c rest)))
  = Ascii.eqb a "s" && Ascii.eqb b "d" && Str.is_lower c
    && match rest with
       | EmptyString => true
       | String n EmptyString => Ascii.eqb n Str.newline
       | _ => false
       end.
Proof.
  destruct a as [[] [] [] [] [] [] [] []]; try reflexivity.
  destruct b as [[] [] [] [] [] [] [] []]; reflexivity.
Qed.

Lemma match_disk_name_short a b :
  Re.match_disk_name (String a "") = false
  /\ Re.match_disk_name (String a (String b "")) = false.
Proof.
  destruct a as [[] [] [] [] [] [] [] []]; split; try reflexivity.
  destruct b as [[] [] [] [] [] [] [] []]; reflexivity.
Qed.

Lemma match_disk_name_spec name :
  Re.match_disk_name name = true <-> disk_name name.
Proof.
  split.
  - destruct name as [|a [|b [|c rest]]]; [discriminate | | |].
    { rewrite (proj1 (match_disk_name_short a a)). discriminate. }
    { rewrite (proj2 (match_disk_name_short a b)). discriminate. }
    rewrite match_disk_name_unfold.
    rewrite !andb_true_iff. intros [[[Ha Hb] Hc] Hrest].
    apply Ascii.eqb_eq in Ha, Hb. subst a b. exists c. split; [exact Hc|].
    destruct rest as [|n [|? ?]]; [now left | | discriminate].
    apply Ascii.eqb_eq in Hrest. subst n. now right.
  - intros (c & Hc & [-> | ->]); rewrite match_disk_name_unfold, Hc; reflexivity.
Qed.

(** X4: [get_disks] returns exactly the paths [/dev/name] of the entries
    that are block devices and whose name is sd followed by one
    lower-case letter (a newline may end the name, as [$] allows).
    Partition nodes such as sda1 and entries that are no block devices
    are never in the set. *)
Theorem get_disks_exact dev x :
  x ∈ get_disks dev
  <-> exists name, In (name, true) dev /\ disk_name name /\ x = "/dev/" +:+ name.
Proof.
  rewrite get_disks_spec. split.
  - intros (name & -> & Hin & Hm). exists name.
    split; [exact Hin|]. split; [now apply match_disk_name_spec | reflexivity].
  - intros (name & Hin & Hd & ->). exists name.
    split; [reflexivity|]. split; [exact Hin | now apply match_disk_name_spec].
Qed.

Lemma selected_none {A} (P : A -> Prop) xs ys :
  selected P xs ys -> (forall x, In x xs -> ~ P x) -> ys = [].
Proof.
  induction 1 as [|x xs ys HP _ _|x xs ys _ _ IH]; intros Hnone.
  - reflexivity.
  - exfalso. apply (Hnone x); [now left | exact HP].
  - apply IH. intros y Hy. apply Hnone. now right.
Qed.

(** X5: a disk whose listing has no row with the disk prefix and an NTFS
    marker is dealt with quietly: [process_disk] ends normally, says so in
    the log and on the console, and has run no mount, no umount and asked
    the operator nothing. *)
Theorem disk_without_ntfs_rows path output w st :
  fdisk_list w path = Some output ->
  (forall line, In line (Str.lines output) -> ~ kept_line path line) ->
  process_disk path w st
  = (Ok tt,
     mkState (stdin st) (listings st)
       (trace st ++ preamble_events w path ++ parsed_events path output []
          ++ [Log INFO FoundNoNTFSPartitions; Print FoundNoNTFSPartitions]))
  /\ forallb (fun e => negb (is_mount_run e) && negb (is_input e)
                       && match e with System _ => false | _ => true end)
       (preamble_events w path ++ parsed_events path output []
          ++ [Log INFO FoundNoNTFSPartitions; Print FoundNoNTFSPartitions]) = true.
Proof.
  intros Hrun Hnone.
  assert (Hparse : parse_ntfs_partitions path output = Ok []).
  { unfold parse_ntfs_partitions.
    now rewrite (selected_none _ _ _ (ntfs_lines_selected path output) Hnone). }
  split; [now apply process_disk_no_partitions|].
  unfold preamble_events, parsed_events, udevadm_argv.
  destruct (first_serial _); reflexivity.
Qed.

Lemma disk_without_ntfs_rows_witness :
  fdisk_list (env_with_fdisk (Some "/dev/sdb1 2048 1026047 83 Linux")) "/dev/sdb"
    = Some "/dev/sdb1 2048 1026047 83 Linux"
  /\ (forall line, In line (Str.lines "/dev/sdb1 2048 1026047 83 Linux") ->
        ~ kept_line "/dev/sdb" line)
  /\ fst (process_disk "/dev/sdb"
            (env_with_fdisk (Some "/dev/sdb1 2048 1026047 83 Linux"))
            (initial_state [])) = Ok tt.
Proof.
  assert (Hnone : forall line, In line (Str.lines "/dev/sdb1 2048 1026047 83 Linux") ->
                    ~ kept_line "/dev/sdb" line).
  { intros line [<-|[]] [_ Hm]. apply is_ntfs_partition_spec in Hm.
    vm_compute in Hm. discriminate Hm. }
  split; [reflexivity|]. split; [exact Hnone|].
  rewrite (proj1 (disk_without_ntfs_rows "/dev/sdb" "/dev/sdb1 2048 1026047 83 Linux"
                    (env_with_fdisk (Some "/dev/sdb1 2048 1026047 83 Linux"))
                    (initial_state []) eq_refl Hnone)).
  reflexivity.
Defined.

Lemma append_inj_l a : forall s t, a +:+ s = a +:+ t -> s = t.
Proof.
  induction a as [|c a IH]; intros s t H; [exact H|].
  rewrite !append_cons in H. injection H as H. now apply IH.
Qed.

(** X6: for a disk path of the usual form, every partition that
    [get_ntfs_partitions] returns is that disk path followed by exactly
    one digit; what follows the digit in the row, further digits
    included, is dropped. *)
Theorem partitions_are_disk_and_digit l output w st ps :
  fdisk_list w ("/dev/sd" +:+ String l "") = Some output ->
  fst (get_ntfs_partitions ("/dev/sd" +:+ String l "") w st) = Ok ps ->
  forall p, In p ps ->
    exists d, Str.is_digit d = true /\ p = "/dev/sd" +:+ String l (String d "").
Proof.
  intros Hrun Hps.
  rewrite get_ntfs_partitions_result, Hrun in Hps.
  unfold parse_ntfs_partitions in Hps.
  pose proof (selected_sound _ _ _ (ntfs_lines_selected ("/dev/sd" +:+ String l "")
                                      output)) as Hkept.
  apply map_result_ok_inv in Hps.
  revert Hps Hkept. generalize (ntfs_lines ("/dev/sd" +:+ String l "") output).
  intros kept Hps Hkept.
  induction Hps as [|k p ks ps' Hk _ IH]; intros q Hq; [destruct Hq|].
  destruct Hq as [<-|Hq].
  - destruct (Hkept k (or_introl eq_refl)) as [_ [[t Ht] _]].
    unfold partition_path in Hk.
    destruct (Re.match_partition k) as [g|] eqn:Hm; [|discriminate].
    injection Hk as <-.
    apply match_partition_some in Hm as (-> & (l' & d & rest & Hshape & _ & Hd) & _).
    rewrite Hshape in Ht.
    change (("/dev/sd" +:+ String l "") +:+ t) with ("/dev/sd" +:+ String l t) in Ht.
    apply append_inj_l in Ht. injection Ht as -> _.
    exists d. split; [exact Hd|]. rewrite Hshape. reflexivity.
  - apply IH; [|exact Hq]. intros y Hy. apply Hkept. now right.
Qed.

Lemma partitions_are_disk_and_digit_witness :
  fdisk_list (env_with_fdisk (Some "/dev/sdb12 4096 8191 7 HPFS/NTFS/exFAT"))
    ("/dev/sd" +:+ String "b" "")
    = Some "/dev/sdb12 4096 8191 7 HPFS/NTFS/exFAT"
  /\ fst (get_ntfs_partitions ("/dev/sd" +:+ String "b" "")
            (env_with_fdisk (Some "/dev/sdb12 4096 8191 7 HPFS/NTFS/exFAT"))
            (initial_state [])) = Ok ["/dev/sdb1"]
  /\ exists d, Str.is_digit d = true
       /\ "/dev/sdb1" = "/dev/sd" +:+ String "b" (String d "").
Proof.
  assert (Hps : fst (get_ntfs_partitions ("/dev/sd" +:+ String "b" "")
                       (env_with_fdisk (Some "/dev/sdb12 4096 8191 7 HPFS/NTFS/exFAT"))
                       (initial_state [])) = Ok ["/dev/sdb1"])
    by (vm_compute; reflexivity).
  split; [reflexivity|]. split; [exact Hps|].
  exact (partitions_are_disk_and_digit "b" "/dev/sdb12 4096 8191 7 HPFS/NTFS/exFAT"
           (env_with_fdisk (Some "/dev/sdb12 4096 8191 7 HPFS/NTFS/exFAT"))
           (initial_state []) ["/dev/sdb1"] eq_refl Hps "/dev/sdb1"
           (or_introl eq_refl)).
Defined.

(** ** Patterns built from plain text *)

Lemma append_assoc a b c : (a +:+ b) +:+ c = a +:+ (b +:+ c).
Proof.
  induction a as [|x a IH]; [reflexivity|].
  rewrite !append_cons. now rewrite IH.
Qed.

Lemma plain_app a b : plain a = true -> plain b = true -> plain (a +:+ b) = true.
Proof.
  intros Ha Hb. induction a as [|c a IH]; [exact Hb|].
  rewrite append_cons. simpl in *.
  apply andb_true_iff in Ha as [Hc Ha]. rewrite Hc. now apply IH.
Qed.

Lemma literals_app a b : literals (a +:+ b) = literals a ++ literals b.
Proof.
  induction a as [|c a IH]; [reflexivity|].
  rewrite append_cons. simpl. now rewrite IH.
Qed.

Lemma compile_cons_plain c rest :
  Ascii.eqb c "*" = false -> Re.is_special c = false ->
  (forall r, rest <> String "*" r) ->
  Re.compile (String c rest)
  = match Re.compile rest with
    | Ok items => Ok ((Re.atom_of c, false) :: items)
    | Raise e => Raise e
    end.
Proof.
  intros Hstar Hspecial Hrest. cbn [Re.compile]. rewrite Hstar, Hspecial.
  destruct rest as [|c' r]; [reflexivity|].
  destruct (Ascii.eqb_spec c' "*") as [->|Hne]; [now contradiction (Hrest r)|].
  destruct c' as [[] [] [] [] [] [] [] []]; try reflexivity.
  now contradiction Hne.
Qed.

Lemma compile_plain a : forall b items,
  plain a = true -> Re.compile b = Ok items -> (forall r, b <> String "*" r) ->
  Re.compile (a +:+ b) = Ok (literals a ++ items).
Proof.
  induction a as [|c a IH]; intros b items Ha Hb Hstar; [exact Hb|].
  rewrite append_cons. simpl in Ha.
  apply andb_true_iff in Ha as [Hc Ha].
  apply andb_true_iff in Hc as [Hc Hdot].
  apply andb_true_iff in Hc as [Hc Hsp].
  apply negb_true_iff in Hc, Hsp, Hdot.
  rewrite compile_cons_plain; [| exact Hc | exact Hsp |].
  - rewrite (IH b items Ha Hb Hstar). simpl. unfold Re.atom_of. now rewrite Hdot.
  - intros r Hr. destruct a as [|c' a'].
    + now apply (Hstar r).
    + rewrite append_cons in Hr. injection Hr as -> _. simpl in Ha.
      discriminate Ha.
Qed.

Lemma matches_star a rest s :
  Re.matches ((a, true) :: rest) s
  = Re.matches rest s
    || match s with
       | String c s' => Re.accepts a c && Re.matches ((a, true) :: rest) s'
       | EmptyString => false
       end.
Proof. destruct s; reflexivity. Qed.

Lemma matches_literals a : forall rest s,
  Re.matches (literals a ++ rest) s = true
  <-> exists t, s = a +:+ t /\ Re.matches rest t = true.
Proof.
  induction a as [|c a IH]; intros rest s.
  - simpl. split; [intros H; now exists s | now intros (t & -> & H)].
  - cbn [literals app Re.matches]. destruct s as [|x s].
    + split; [discriminate | intros (t & H & _); discriminate].
    + rewrite andb_true_iff, IH. simpl. split.
      * intros [Hx (t & -> & Ht)]. apply Ascii.eqb_eq in Hx. subst x.
        now exists t.
      * intros (t & Hs & Ht). rewrite append_cons in Hs. injection Hs as -> ->.
        split; [apply Ascii.eqb_refl | now exists t].
Qed.

Lemma matches_any_star rest s :
  Re.matches ((Re.AnyChar, true) :: rest) s = true
  <-> exists pre post,
        s = pre +:+ post /\ has_newline pre = false /\ Re.matches rest post = true.
Proof.
  induction s as [|c s IH]; rewrite matches_star, orb_true_iff.
  - split.
    + intros [H|H]; [|discriminate]. now exists "", "".
    + intros (pre & post & Hs & _ & Hm). left.
      destruct pre; [|discriminate]. rewrite append_nil in Hs. now subst post.
  - rewrite andb_true_iff, IH. split.
    + intros [H | [Hc (pre & post & -> & Hnl & Hm)]].
      * now exists "", (String c s).
      * exists (String c pre), post. split; [reflexivity|]. split; [|exact Hm].
        simpl in *. apply negb_true_iff in Hc. now rewrite Hc.
    + intros (pre & post & Hs & Hnl & Hm). destruct pre as [|x pre].
      * left. rewrite append_nil in Hs. now subst post.
      * right. rewrite append_cons in Hs. injection Hs as -> ->.
        simpl in Hnl. apply orb_false_iff in Hnl as [Hx Hnl].
        split; [simpl; now rewrite Hx | now exists pre, post].
Qed.

Lemma has_newline_app a b :
  has_newline (a +:+ b) = has_newline a || has_newline b.
Proof.
  induction a as [|c a IH]; [reflexivity|].
  rewrite append_cons. simpl. now rewrite IH, orb_assoc.
Qed.

Lemma lines_no_newline s : forall line, In line (Str.lines s) -> has_newline line = false.
Proof.
  unfold Str.lines. induction s as [|c s IH]; simpl.
  - intros line [<-|[]]. reflexivity.
  - destruct (Ascii.eqb c Str.newline) eqn:Hc.
    + intros line [<-|H]; [reflexivity | now apply IH].
    + destruct (Str.split Str.newline s) as [|w ws].
      * intros line [<-|[]]. simpl. now rewrite Hc.
      * intros line [<-|H].
        -- simpl. rewrite Hc. apply IH. now left.
        -- apply IH. now right.
Qed.

(** A pattern that compiles and contains the whole mount table query. *)
Lemma is_mounted_loop_matches part dest r items out :
  (if bool_decide (dest <> None) && bool_decide (part <> None) then
     Some (format_opt part +:+ " on " +:+ format_opt dest +:+ " .*")
   else if bool_decide (part = None) then
     Some (".* on " +:+ format_opt dest +:+ " .*")
   else None) = Some r ->
  Re.compile r = Ok items ->
  forall regex,
    is_mounted_loop part dest regex out = Ok (existsb (Re.matches items) out).
Proof.
  intros Hr Hc. induction out as [|line rest IH]; intros regex; [reflexivity|].
  cbn [is_mounted_loop existsb].
  assert (Hsel : (if bool_decide (dest <> None) && bool_decide (part <> None) then
                    Some (format_opt part +:+ " on " +:+ format_opt dest +:+ " .*")
                  else if bool_decide (part = None) then
                    Some (".* on " +:+ format_opt dest +:+ " .*")
                  else if bool_decide (dest <> None) then
                    Some (format_opt part +:+ " on .*")
                  else regex) = Some r).
  { destruct (bool_decide (dest <> None) && bool_decide (part <> None));
      [exact Hr|].
    destruct (bool_decide (part = None)); [exact Hr | discriminate Hr]. }
  rewrite Hsel. unfold Re.match_. rewrite Hc.
  destruct (Re.matches items line); [reflexivity | apply IH].
Qed.

Lemma existsb_ext_in {A} (f g : A -> bool) xs :
  (forall x, In x xs -> f x = g x) -> existsb f xs = existsb g xs.
Proof.
  induction xs as [|x xs IH]; intros H; [reflexivity|].
  simpl. rewrite (H x (or_introl eq_refl)), IH; [reflexivity|].
  intros y Hy. apply H. now right.
Qed.

Lemma bool_iff_eq (a b : bool) : (a = true <-> b = true) -> a = b.
Proof. destruct a, b; intuition congruence. Qed.

Lemma compile_dot_star rest :
  Re.compile (String "." (String "*" rest))
  = match Re.compile rest with
    | Ok items => Ok ((Re.AnyChar, true) :: items)
    | Raise e => Raise e
    end.
Proof. reflexivity. Qed.

Lemma pattern_tail a d : a +:+ d +:+ " .*" = (a +:+ d +:+ " ") +:+ ".*".
Proof. rewrite !append_assoc. reflexivity. Qed.

Lemma matches_trailing_any t : Re.matches [(Re.AnyChar, true)] t = true.
Proof. rewrite matches_star. reflexivity. Qed.

Lemma compile_prefix_pattern needle :
  plain needle = true ->
  Re.compile (needle +:+ ".*") = Ok (literals needle ++ [(Re.AnyChar, true)]).
Proof.
  intros Hp. apply compile_plain; [exact Hp | reflexivity | discriminate].
Qed.

Lemma matches_prefix_pattern needle line :
  Re.matches (literals needle ++ [(Re.AnyChar, true)]) line
  = Str.startswith needle line.
Proof.
  apply bool_iff_eq. rewrite matches_literals, startswith_spec. split.
  - intros (t & -> & _). now exists t.
  - intros [t ->]. exists t. split; [reflexivity | apply matches_trailing_any].
Qed.

Lemma matches_substring_pattern needle line :
  has_newline line = false ->
  Re.matches ((Re.AnyChar, true) :: literals needle ++ [(Re.AnyChar, true)]) line
  = Str.contains needle line.
Proof.
  intros Hnl. apply bool_iff_eq.
  rewrite matches_any_star, contains_spec. split.
  - intros (pre & post & -> & _ & Hm).
    apply matches_literals in Hm as (t & -> & _). now exists pre, t.
  - intros (a & b & ->). exists a, (needle +:+ b). split; [reflexivity|].
    rewrite has_newline_app in Hnl. apply orb_false_iff in Hnl as [Ha _].
    split; [exact Ha|]. apply matches_literals. exists b.
    split; [reflexivity | apply matches_trailing_any].
Qed.

(** X7: for a destination without pattern characters, [is_mounted] with
    the destination alone reads the mount table once and is true exactly
    when some line of it contains " on ", the destination and a blank,
    wherever in the line that is. *)
Theorem is_mounted_at_destination dest w st :
  plain dest = true ->
  is_mounted None (Some dest) w st
  = (Ok (existsb (Str.contains (" on " +:+ dest +:+ " "))
                 (Str.lines (mount_table w (listings st)))),
     after_listing st).
Proof.
  intros Hp. unfold is_mounted, bind, run_mount_listing, lift, after_listing.
  change (negb (bool_decide (@None string <> None) || bool_decide (Some dest <> None)))
    with false.
  cbv beta iota. f_equal.
  assert (Hneedle : plain (" on " +:+ dest +:+ " ") = true).
  { apply (plain_app " on "); [reflexivity|]. now apply plain_app. }
  rewrite (is_mounted_loop_matches None (Some dest)
             (".* on " +:+ dest +:+ " .*")
             ((Re.AnyChar, true)
                :: literals (" on " +:+ dest +:+ " ") ++ [(Re.AnyChar, true)])).
  - f_equal. apply existsb_ext_in. intros line Hin.
    apply matches_substring_pattern.
    exact (lines_no_newline (mount_table w (listings st)) line Hin).
  - reflexivity.
  - change (".* on " +:+ dest +:+ " .*")
      with (String "." (String "*" (" on " +:+ dest +:+ " .*"))).
    rewrite compile_dot_star, pattern_tail.
    now rewrite (compile_prefix_pattern _ Hneedle).
Qed.

Lemma is_mounted_at_destination_witness :
  plain MOUNT_POINT = true
  /\ is_mounted None (Some MOUNT_POINT) busy_env (initial_state [])
     = (Ok true, after_listing (initial_state [])).
Proof.
  assert (Hp : plain MOUNT_POINT = true) by (vm_compute; reflexivity).
  split; [exact Hp|].
  rewrite (is_mounted_at_destination MOUNT_POINT busy_env (initial_state []) Hp).
  vm_compute. reflexivity.
Defined.

(** X8: for a partition and a destination without pattern characters,
    [is_mounted] with both is true exactly when some line of the mount
    table starts with the partition, " on ", the destination and a
    blank. *)
Theorem is_mounted_partition_at_destination part dest w st :
  plain part = true -> plain dest = true ->
  is_mounted (Some part) (Some dest) w st
  = (Ok (existsb (Str.startswith (part +:+ " on " +:+ dest +:+ " "))
                 (Str.lines (mount_table w (listings st)))),
     after_listing st).
Proof.
  intros Hpart Hdest. unfold is_mounted, bind, run_mount_listing, lift, after_listing.
  change (negb (bool_decide (Some part <> None) || bool_decide (Some dest <> None)))
    with false.
  cbv beta iota. f_equal.
  assert (Hneedle : plain (part +:+ " on " +:+ dest +:+ " ") = true).
  { apply plain_app; [exact Hpart|].
    apply (plain_app " on "); [reflexivity|]. now apply plain_app. }
  rewrite (is_mounted_loop_matches (Some part) (Some dest)
             (part +:+ " on " +:+ dest +:+ " .*")
             (literals (part +:+ " on " +:+ dest +:+ " ") ++ [(Re.AnyChar, true)])).
  - f_equal. apply existsb_ext_in. intros line _. apply matches_prefix_pattern.
  - reflexivity.
  - assert (Hshape : part +:+ " on " +:+ dest +:+ " .*"
                     = (part +:+ " on " +:+ dest +:+ " ") +:+ ".*")
      by (rewrite !append_assoc; reflexivity).
    rewrite Hshape. now apply compile_prefix_pattern.
Qed.

Lemma is_mounted_partition_at_destination_witness :
  plain "/dev/sda1" = true /\ plain MOUNT_POINT = true
  /\ is_mounted (Some "/dev/sda1") (Some MOUNT_POINT) busy_env (initial_state [])
     = (Ok true, after_listing (initial_state [])).
Proof.
  assert (Hp : plain "/dev/sda1" = true) by (vm_compute; reflexivity).
  assert (Hd : plain MOUNT_POINT = true) by (vm_compute; reflexivity).
  split; [exact Hp|]. split; [exact Hd|].
  rewrite (is_mounted_partition_at_destination "/dev/sda1" MOUNT_POINT busy_env
             (initial_state []) Hp Hd).
  vm_compute. reflexivity.
Defined.

(** ** What is added to the trace *)

Section AddsOnly.

Context {A B : Type} (P : event -> Prop).

Lemma adds_only_ret (v : A) : adds_only P (ret v).
Proof. intros w st. exists []. simpl. rewrite app_nil_r. auto. Qed.

Lemma adds_only_raise (e : exn) : adds_only P (@raise A e).
Proof. intros w st. exists []. simpl. rewrite app_nil_r. auto. Qed.

Lemma adds_only_lift (r : result A) : adds_only P (lift r).
Proof. intros w st. exists []. simpl. rewrite app_nil_r. auto. Qed.

Lemma adds_only_ask (f : env -> A) : adds_only P (ask f).
Proof. intros w st. exists []. simpl. rewrite app_nil_r. auto. Qed.

Lemma adds_only_emit (ev : event) : P ev -> adds_only P (emit ev).
Proof. intros Hev w st. exists [ev]. simpl. auto. Qed.

Lemma adds_only_bind_post (R : A -> Prop) (c : M A) (k : A -> M B) :
  adds_only P c -> returns R c -> (forall v, R v -> adds_only P (k v)) ->
  adds_only P (bind c k).
Proof.
  intros Hc HR Hk w st. unfold bind.
  destruct (Hc w st) as (evs & Hevs & HP). specialize (HR w st).
  destruct (c w st) as [[v|e] st']; simpl in *.
  - destruct (Hk v (HR v eq_refl) w st') as (evs' & Hevs' & HP').
    exists (evs ++ evs'). rewrite Hevs', Hevs, app_assoc.
    split; [reflexivity | now apply Forall_app].
  - now exists evs.
Qed.

Lemma adds_only_bind (c : M A) (k : A -> M B) :
  adds_only P c -> (forall v, adds_only P (k v)) -> adds_only P (bind c k).
Proof.
  intros Hc Hk. apply (adds_only_bind_post (fun _ => True)); auto.
  intros w st v _. exact I.
Qed.

Lemma adds_only_try (c handler : M A) :
  adds_only P c -> adds_only P handler ->
  adds_only P (try_except_CalledProcessError c handler).
Proof.
  intros Hc Hh w st. unfold try_except_CalledProcessError.
  destruct (Hc w st) as (evs & Hevs & HP).
  destruct (c w st) as [[v|[]] st']; simpl in *; try (now exists evs).
  destruct (Hh w st') as (evs' & Hevs' & HP'). exists (evs ++ evs').
  rewrite Hevs', Hevs, app_assoc. split; [reflexivity | now apply Forall_app].
Qed.

End AddsOnly.

Lemma adds_only_impl {A} (P Q : event -> Prop) (c : M A) :
  (forall e, P e -> Q e) -> adds_only P c -> adds_only Q c.
Proof.
  intros HPQ Hc w st. destruct (Hc w st) as (evs & Hevs & HP).
  exists evs. split; [exact Hevs|]. eapply Forall_impl; [exact HP | exact HPQ].
Qed.

Lemma adds_only_for_each {A} P (xs : list A) (body : A -> M unit) :
  (forall x, In x xs -> adds_only P (body x)) -> adds_only P (for_each xs body).
Proof.
  induction xs as [|x xs IH]; intros Hb; simpl.
  - apply adds_only_ret.
  - apply adds_only_bind; [apply Hb; now left|].
    intros _. apply IH. intros y Hy. apply Hb. now right.
Qed.

Lemma ask_question_loop_prompts question answers default lines tr :
  exists evs,
    snd (ask_question_loop question answers default lines tr) = tr ++ evs
    /\ Forall prompt_event evs.
Proof.
  revert tr. induction lines as [|i rest IH]; intros tr; simpl.
  - eexists. split; [reflexivity|]. repeat constructor.
  - destruct (existsb _ answers); simpl.
    + eexists. split; [reflexivity|]. repeat constructor.
    + destruct (IH ((tr ++ [Input question answers])
                      ++ [Print (InvalidAnswer
                                   (if String.eqb i "" then default else i))]))
        as (evs & Hevs & HP).
      rewrite Hevs, <- !app_assoc. eexists. split; [reflexivity|].
      simpl. repeat constructor. exact HP.
Qed.

Lemma adds_only_ask_question P question answers :
  (forall e, prompt_event e -> P e) -> adds_only P (ask_question question answers).
Proof.
  intros HP w st. unfold ask_question.
  match goal with
  | |- context [ask_question_loop ?q ?a ?d ?l ?t] =>
      destruct (ask_question_loop_prompts q a d l t) as (evs & Hevs & Hprompt);
      destruct (ask_question_loop q a d l t) as [[r rest] tr]
  end.
  simpl in *. exists evs. split; [exact Hevs|].
  eapply Forall_impl; [exact Hprompt | exact HP].
Qed.

Lemma adds_only_is_mounted P part dest :
  P (Run ["/usr/bin/mount"]) -> adds_only P (is_mounted part dest).
Proof.
  intros HP. unfold is_mounted.
  destruct (negb _); [apply adds_only_raise|].
  apply adds_only_bind; [|intros out; apply adds_only_lift].
  intros w st. exists [Run ["/usr/bin/mount"]]. split; [reflexivity|]. auto.
Qed.

Lemma adds_only_mount part dest :
  adds_only (mount_event part dest) (mount part dest).
Proof.
  assert (Hprompt : forall e, prompt_event e -> mount_event part dest e).
  { intros [? []| [] | | | |]; simpl; tauto. }
  assert (Hlist : mount_event part dest (Run ["/usr/bin/mount"])) by (now left).
  unfold mount, run_mount, log.
  apply adds_only_bind; [now apply adds_only_is_mounted | intros already].
  apply adds_only_bind.
  - destruct already.
    + apply adds_only_bind; [now apply adds_only_ask_question | intros answer].
      destruct (negb _); apply adds_only_ret.
    + apply adds_only_try.
      * apply adds_only_bind; [|intros _; apply adds_only_ret].
        apply adds_only_bind; [apply adds_only_emit; now right | intros _].
        apply adds_only_bind; [apply adds_only_ask | intros ok].
        destruct ok; [apply adds_only_ret | apply adds_only_raise].
      * apply adds_only_bind; [apply adds_only_emit; exact I | intros _].
        apply adds_only_bind; [now apply adds_only_is_mounted | intros m].
        destruct (negb m); [|apply adds_only_ret].
        apply adds_only_bind; [apply adds_only_emit; now split | intros _].
        apply adds_only_bind; [now apply adds_only_ask_question | intros answer].
        destruct (negb _); [apply adds_only_ret|].
        apply adds_only_bind; [now apply adds_only_is_mounted | intros m'].
        apply adds_only_bind; [|intros _; apply adds_only_ret].
        destruct (negb m'); [apply adds_only_emit; now split | apply adds_only_ret].
  - intros [v|[]]; [apply adds_only_ret|].
    apply adds_only_bind; [apply adds_only_emit; now split | intros _].
    apply adds_only_ret.
Qed.

(** ** Mount controller *)

Lemma is_mounted_reads_table part dest w st :
  part <> None \/ dest <> None ->
  is_mounted part dest w st
  = (is_mounted_loop part dest None (Str.lines (mount_table w (listings st))),
     after_listing st).
Proof.
  intros H. unfold is_mounted, bind, run_mount_listing, lift, after_listing.
  destruct part, dest; try reflexivity. destruct H; congruence.
Qed.

Lemma ask_question_frame question answers w st :
  listings (snd (ask_question question answers w st)) = listings st
  /\ exists evs,
       trace (snd (ask_question question answers w st)) = trace st ++ evs
       /\ Forall prompt_event evs.
Proof.
  split.
  - unfold ask_question. now destruct (ask_question_loop _ _ _ _ _) as [[r rest] tr].
  - apply (adds_only_ask_question prompt_event). auto.
Qed.

Lemma prompt_event_not_run evs :
  Forall prompt_event evs -> forallb (fun e => negb (is_run e)) evs = true.
Proof.
  induction 1 as [|e evs He _ IH]; [reflexivity|]. simpl. rewrite IH.
  destruct e; simpl in *; tauto.
Qed.

Lemma mount_busy_unfold part dest w st :
  is_mounted_loop None (Some dest) None (Str.lines (mount_table w (listings st)))
    = Ok true ->
  mount part dest w st
  = match ask_question (part +:+ " is already mounted on " +:+ dest +:+ ", continue?")
            ["Y"; "n"] w (after_listing st) with
    | (Ok answer, st1) =>
        (Ok PyNone,
         if negb (String.eqb answer "y") then st1
         else mkState (stdin st1) (listings st1)
                (trace st1 ++ [Log INFO (SuccessfullyMounted part dest)]))
    | (Raise e, st1) => (Raise e, st1)
    end.
Proof.
  intros Hbusy. unfold mount. unfold bind at 1.
  rewrite is_mounted_reads_table by (right; discriminate). rewrite Hbusy.
  unfold bind at 1. unfold bind at 1.
  destruct (ask_question _ ["Y"; "n"] w (after_listing st)) as [[answer|e] st1];
    [|reflexivity].
  destruct (negb (String.eqb answer "y")); reflexivity.
Qed.

(** X9: when something is mounted at the destination, [mount] starts no
    mount of its own whatever the operator types: after the one listing of
    the mount table it runs no external command, and it hands back [None]
    (or ends with [EOFError] when the input runs out), never [True]. *)
Theorem mount_at_busy_destination part dest w st :
  is_mounted_loop None (Some dest) None (Str.lines (mount_table w (listings st)))
    = Ok true ->
  (fst (mount part dest w st) = Ok PyNone
   \/ fst (mount part dest w st) = Raise EOFError)
  /\ listings (snd (mount part dest w st)) = S (listings st)
  /\ exists evs,
       trace (snd (mount part dest w st))
       = trace st ++ Run ["/usr/bin/mount"] :: evs
       /\ forallb (fun e => negb (is_run e)) evs = true.
Proof.
  intros Hbusy. rewrite (mount_busy_unfold part dest w st Hbusy).
  set (question := part +:+ " is already mounted on " +:+ dest +:+ ", continue?").
  destruct (ask_question_frame question ["Y"; "n"] w (after_listing st))
    as (Hlist & evs & Hevs & Hprompt).
  pose proof (ask_question_raises question ["Y"; "n"] w (after_listing st)) as Hraise.
  destruct (ask_question question ["Y"; "n"] w (after_listing st))
    as [[answer|e] st1]; cbn [fst snd] in *.
  - split; [now left|].
    destruct (negb (String.eqb answer "y")); cbn [listings trace].
    + split; [exact Hlist|].
      exists evs. rewrite Hevs. unfold after_listing. cbn [trace].
      rewrite <- app_assoc. split; [reflexivity | now apply prompt_event_not_run].
    + split; [exact Hlist|].
      exists (evs ++ [Log INFO (SuccessfullyMounted part dest)]).
      rewrite Hevs. unfold after_listing. cbn [trace].
      rewrite <- !app_assoc. split; [reflexivity|].
      rewrite forallb_app, (prompt_event_not_run _ Hprompt). reflexivity.
  - split; [right; now rewrite (Hraise e eq_refl)|]. split; [exact Hlist|].
    exists evs. rewrite Hevs. unfold after_listing. cbn [trace].
    rewrite <- app_assoc. split; [reflexivity | now apply prompt_event_not_run].
Qed.

Lemma mount_at_busy_destination_witness :
  is_mounted_loop None (Some MOUNT_POINT) None
    (Str.lines (mount_table busy_env (listings (initial_state ["x"; "Y"]))))
    = Ok true
  /\ (fst (mount "/dev/sdb1" MOUNT_POINT busy_env (initial_state ["x"; "Y"]))
        = Ok PyNone
      \/ fst (mount "/dev/sdb1" MOUNT_POINT busy_env (initial_state ["x"; "Y"]))
         = Raise EOFError).
Proof.
  assert (H : is_mounted_loop None (Some MOUNT_POINT) None
                (Str.lines (mount_table busy_env (listings (initial_state ["x"; "Y"]))))
              = Ok true) by (vm_compute; reflexivity).
  split; [exact H|].
  exact (proj1 (mount_at_busy_destination "/dev/sdb1" MOUNT_POINT busy_env
                  (initial_state ["x"; "Y"]) H)).
Defined.

Lemma mount_free_failed_unfold part dest w st :
  is_mounted_loop None (Some dest) None (Str.lines (mount_table w (listings st)))
    = Ok false ->
  mount_succeeds w part dest = false ->
  is_mounted_loop (Some part) (Some dest) None
    (Str.lines (mount_table w (S (listings st)))) = Ok false ->
  mount part dest w st
  = match ask_question (manual_question part dest) ["Y"; "n"] w
            (state_at_manual_question part dest st) with
    | (Raise e, s) => (Raise e, s)
    | (Ok answer, s) =>
        if negb (String.eqb answer "y") then (Ok PyTrue, s)
        else after_manual_mount part dest w s
    end.
Proof.
  intros Hfree Hfail Hpart.
  unfold mount, is_mounted, run_mount_listing, try_except_CalledProcessError,
    run_mount, state_at_manual_question, manual_question.
  unfold bind, emit, ask, log, lift, ret, raise. simpl.
  rewrite Hfree. simpl. rewrite Hfail. simpl. rewrite Hpart. simpl.
  repeat rewrite <- app_assoc. simpl.
  destruct (ask_question _ ["Y"; "n"] w _) as [[answer|e] s]; [|reflexivity].
  destruct (negb (String.eqb answer "y")); [reflexivity|].
  unfold after_manual_mount, after_listing. clear Hfree Hfail Hpart.
  destruct (is_mounted_loop (Some part) (Some dest) None
              (Str.lines (mount_table w (listings s)))) as [[|]|e];
    simpl; repeat rewrite <- app_assoc; reflexivity.
Qed.

Lemma mount_other_cases part dest w st :
  match is_mounted_loop None (Some dest) None
          (Str.lines (mount_table w (listings st))) with
  | Raise e => fst (mount part dest w st) = Raise e
  | Ok true => True
  | Ok false =>
      if mount_succeeds w part dest then fst (mount part dest w st) = Ok PyNone
      else
        match is_mounted_loop (Some part) (Some dest) None
                (Str.lines (mount_table w (S (listings st)))) with
        | Raise e => fst (mount part dest w st) = Raise e
        | Ok true => fst (mount part dest w st) = Ok PyNone
        | Ok false => True
        end
  end.
Proof.
  unfold mount, is_mounted, run_mount_listing, try_except_CalledProcessError,
    run_mount.
  unfold bind, emit, ask, log, lift, ret, raise. simpl.
  destruct (is_mounted_loop None (Some dest) None _) as [[|]|e]; simpl;
    [exact I | | reflexivity].
  destruct (mount_succeeds w part dest); simpl; [reflexivity|].
  destruct (is_mounted_loop (Some part) (Some dest) None _) as [[|]|e]; simpl;
    [reflexivity | exact I | reflexivity].
Qed.

Lemma yes_no_answer line :
  In (effective ["Y"; "n"] line) ["Y"; "n"] ->
  Str.lower (effective ["Y"; "n"] line) <> "y" ->
  line = "n".
Proof.
  unfold effective. change (default_answer ["Y"; "n"]) with "Y".
  destruct (String.eqb_spec line "") as [->|Hne].
  - intros _ H. now contradiction H.
  - intros [<-|[<-|[]]] H; [now contradiction H | reflexivity].
Qed.

(** X10: [mount] hands back [True] on one path only: the mount point was
    free, the mount utility failed, the next listing did not show the
    partition at the destination, and the first acceptable line the
    operator typed was n. It never hands back [False]. *)
Theorem mount_fails_only_when_declined part dest w st :
  fst (mount part dest w st) <> Ok PyFalse
  /\ (fst (mount part dest w st) = Ok PyTrue ->
      is_mounted_loop None (Some dest) None
        (Str.lines (mount_table w (listings st))) = Ok false
      /\ mount_succeeds w part dest = false
      /\ is_mounted_loop (Some part) (Some dest) None
           (Str.lines (mount_table w (S (listings st)))) = Ok false
      /\ exists rejected rest,
           stdin st = rejected ++ "n" :: rest
           /\ forallb (fun l => negb (accepted ["Y"; "n"] l)) rejected = true).
Proof.
  pose proof (mount_other_cases part dest w st) as Hother.
  pose proof (mount_busy_unfold part dest w st) as Hbusy.
  pose proof (mount_free_failed_unfold part dest w st) as Hfailed.
  destruct (is_mounted_loop None (Some dest) None _) as [[|]|e0].
  - rewrite (Hbusy eq_refl).
    destruct (ask_question _ ["Y"; "n"] w (after_listing st)) as [[answer|e] s];
      split; discriminate.
  - destruct (mount_succeeds w part dest).
    { rewrite Hother. split; discriminate. }
    destruct (is_mounted_loop (Some part) (Some dest) None _) as [[|]|e1];
      try (rewrite Hother; split; discriminate).
    rewrite (Hfailed eq_refl eq_refl eq_refl). clear Hbusy Hfailed Hother.
    pose proof (ask_question_returns_first_accepted_aux
                  (manual_question part dest) ["Y"; "n"] w
                  (state_at_manual_question part dest st)) as Hask.
    destruct (ask_question (manual_question part dest) ["Y"; "n"] w
                (state_at_manual_question part dest st)) as [[answer|e] s];
      [|split; discriminate].
    destruct (negb (String.eqb answer "y")) eqn:Hans; cbv beta iota.
    + split; [discriminate|]. intros _. repeat split.
      destruct (Hask answer eq_refl) as (rejected & line & Hin & Hrej & Hacc & Hr).
      exists rejected, (stdin s). split; [|exact Hrej].
      cbn [snd] in Hin. simpl in Hin. rewrite Hin. do 2 f_equal.
      apply yes_no_answer; [exact Hacc|].
      rewrite <- Hr. apply negb_true_iff in Hans.
      now apply String.eqb_neq in Hans.
    + unfold after_manual_mount.
      destruct (is_mounted_loop (Some part) (Some dest) None _) as [m|e];
        split; discriminate.
  - rewrite Hother. split; discriminate.
Qed.

Lemma mount_fails_only_when_declined_witness :
  fst (mount "/dev/sdb1" MOUNT_POINT stubborn_env (initial_state ["no"; "n"; "Y"]))
    = Ok PyTrue
  /\ mount_succeeds stubborn_env "/dev/sdb1" MOUNT_POINT = false
  /\ exists rejected rest,
       stdin (initial_state ["no"; "n"; "Y"]) = rejected ++ "n" :: rest
       /\ forallb (fun l => negb (accepted ["Y"; "n"] l)) rejected = true.
Proof.
  assert (H : fst (mount "/dev/sdb1" MOUNT_POINT stubborn_env
                     (initial_state ["no"; "n"; "Y"])) = Ok PyTrue)
    by (vm_compute; reflexivity).
  split; [exact H|].
  destruct (proj2 (mount_fails_only_when_declined "/dev/sdb1" MOUNT_POINT
                     stubborn_env (initial_state ["no"; "n"; "Y"])) H)
    as (_ & Hfail & _ & Hstdin).
  split; [exact Hfail | exact Hstdin].
Defined.

Lemma ask_yes_accepted question line rest w st :
  stdin st = line :: rest -> line = "" \/ line = "Y" ->
  ask_question question ["Y"; "n"] w st
  = (Ok "y", mkState rest (listings st) (trace st ++ [Input question ["Y"; "n"]])).
Proof.
  intros Hin Hline. unfold ask_question. rewrite Hin.
  destruct Hline as [-> | ->]; reflexivity.
Qed.

(** X11: once the operator agrees to mount by hand (an empty line or Y),
    [mount] checks the mount table once more but reports success whatever
    it finds: if the partition is still not mounted an error line is
    logged, and then the success line, and [None] is handed back. *)
Theorem mount_by_hand_is_taken_on_trust part dest line rest w st :
  is_mounted_loop None (Some dest) None (Str.lines (mount_table w (listings st)))
    = Ok false ->
  mount_succeeds w part dest = false ->
  is_mounted_loop (Some part) (Some dest) None
    (Str.lines (mount_table w (S (listings st)))) = Ok false ->
  stdin st = line :: rest -> line = "" \/ line = "Y" ->
  is_mounted_loop (Some part) (Some dest) None
    (Str.lines (mount_table w (S (S (listings st))))) = Ok false ->
  mount part dest w st
  = (Ok PyNone,
     mkState rest (S (S (S (listings st))))
       (trace (state_at_manual_question part dest st)
          ++ [Input (manual_question part dest) ["Y"; "n"];
              Run ["/usr/bin/mount"];
              Log ERROR (FailedToMount part dest);
              Log INFO (SuccessfullyMounted part dest)])).
Proof.
  intros Hfree Hfail Hpart Hin Hline Hstill.
  rewrite (mount_free_failed_unfold part dest w st Hfree Hfail Hpart).
  rewrite (ask_yes_accepted (manual_question part dest) line rest w
             (state_at_manual_question part dest st) Hin Hline).
  cbn [negb String.eqb]. change (negb ("y" =? "y")%string) with false. cbv iota.
  unfold after_manual_mount. cbn [listings stdin trace state_at_manual_question].
  rewrite Hstill. cbn [app]. rewrite <- !app_assoc. reflexivity.
Qed.

Lemma mount_by_hand_is_taken_on_trust_witness :
  is_mounted_loop None (Some MOUNT_POINT) None
    (Str.lines (mount_table stubborn_env (listings (initial_state [""])))) = Ok false
  /\ mount_succeeds stubborn_env "/dev/sdb1" MOUNT_POINT = false
  /\ stdin (initial_state [""]) = "" :: []
  /\ fst (mount "/dev/sdb1" MOUNT_POINT stubborn_env (initial_state [""])) = Ok PyNone.
Proof.
  assert (H0 : is_mounted_loop None (Some MOUNT_POINT) None
                 (Str.lines (mount_table stubborn_env (listings (initial_state [""]))))
               = Ok false) by (vm_compute; reflexivity).
  assert (H1 : mount_succeeds stubborn_env "/dev/sdb1" MOUNT_POINT = false)
    by (vm_compute; reflexivity).
  assert (H2 : is_mounted_loop (Some "/dev/sdb1") (Some MOUNT_POINT) None
                 (Str.lines (mount_table stubborn_env
                               (S (listings (initial_state [""]))))) = Ok false)
    by (vm_compute; reflexivity).
  assert (H3 : stdin (initial_state [""]) = "" :: []) by (vm_compute; reflexivity).
  assert (H4 : is_mounted_loop (Some "/dev/sdb1") (Some MOUNT_POINT) None
                 (Str.lines (mount_table stubborn_env
                               (S (S (listings (initial_state [""])))))) = Ok false)
    by (vm_compute; reflexivity).
  split; [exact H0|]. split; [exact H1|]. split; [exact H3|].
  rewrite (mount_by_hand_is_taken_on_trust "/dev/sdb1" MOUNT_POINT "" []
             stubborn_env (initial_state [""]) H0 H1 H2 H3 (or_introl eq_refl) H4).
  reflexivity.
Defined.

(** ** Reports of a scan *)

Lemma report_users users : forall counts w st,
  map_result (count_images (stack_limit w)) users = Ok counts ->
  for_each users report_user w st
  = (Ok tt,
     mkState (stdin st) (listings st) (trace st ++ report_events users counts)).
Proof.
  induction users as [|user users IH]; intros counts w st; simpl.
  - intros [= <-]. unfold ret, report_events. simpl. rewrite app_nil_r.
    now destruct st.
  - destruct (count_images (stack_limit w) user) as [n|e] eqn:Hn; [|discriminate].
    destruct (map_result _ users) as [ns|e] eqn:Hns; [|discriminate].
    intros [= <-]. unfold bind at 1.
    assert (Hone : report_user user w st
                   = (Ok tt,
                      mkState (stdin st) (listings st)
                        (trace st ++ [Print (FoundUserWithImages (Fs.name user) n);
                                      Log INFO (UserHasImages (Fs.name user) n)]))).
    { unfold report_user, print, log, bind, ask, lift, emit. simpl.
      rewrite Hn. simpl. now rewrite <- app_assoc. }
    rewrite Hone. rewrite (IH ns w _ Hns). cbn [stdin listings trace].
    unfold report_events. simpl. now rewrite <- app_assoc.
Qed.

Lemma mount_free_succeeds part dest w st :
  is_mounted_loop None (Some dest) None (Str.lines (mount_table w (listings st)))
    = Ok false ->
  mount_succeeds w part dest = true ->
  mount part dest w st
  = (Ok PyNone,
     mkState (stdin st) (S (listings st))
       (trace st ++ [Run ["/usr/bin/mount"];
                     Run ["/usr/bin/mount"; part; dest];
                     Log INFO (SuccessfullyMounted part dest)])).
Proof.
  intros Hfree Hok.
  unfold mount, is_mounted, run_mount_listing, try_except_CalledProcessError,
    run_mount.
  unfold bind, emit, ask, log, lift, ret, raise. simpl.
  rewrite Hfree. simpl. rewrite Hok. simpl.
  repeat rewrite <- app_assoc. reflexivity.
Qed.

(** X12: when the mount point is free, the partition mounts and the scan
    meets no error, [process_ntfs_partition] reports the partition as
    processed and writes, after the list of profile names, one console
    line and one log line per profile that [get_users] found, in that
    order, each with the number that [count_images] gives for it. *)
Theorem partition_is_reported part users counts w st :
  is_mounted_loop None (Some MOUNT_POINT) None
    (Str.lines (mount_table w (listings st))) = Ok false ->
  mount_succeeds w part MOUNT_POINT = true ->
  get_users (mount_point_path (volume_at w part)) = Ok users ->
  map_result (count_images (stack_limit w)) users = Ok counts ->
  process_ntfs_partition part w st
  = (Ok false,
     mkState (stdin st) (S (listings st))
       (trace st
          ++ [Run ["/usr/bin/mount"];
              Run ["/usr/bin/mount"; part; MOUNT_POINT];
              Log INFO (SuccessfullyMounted part MOUNT_POINT);
              Log INFO (FoundUsers (map Fs.name users))]
          ++ report_events users counts
          ++ [Log INFO TookToScan])).
Proof.
  intros Hfree Hok Husers Hcounts.
  unfold process_ntfs_partition. unfold bind at 1.
  rewrite (mount_free_succeeds part MOUNT_POINT w st Hfree Hok).
  cbn [truthy]. unfold bind at 1, ask at 1. unfold bind at 1, lift at 1.
  rewrite Husers. unfold bind at 1, log at 1, emit at 1.
  unfold bind at 1. fold report_user.
  change (for_each users _) with (for_each users report_user).
  rewrite (report_users users counts w _ Hcounts).
  unfold log, bind, emit, ret. cbn [stdin listings trace fst snd].
  rewrite <- !app_assoc. reflexivity.
Qed.

Lemma partition_is_reported_witness :
  is_mounted_loop None (Some MOUNT_POINT) None
    (Str.lines (mount_table no_users_env (listings (initial_state [])))) = Ok false
  /\ mount_succeeds busy_env "/dev/sdb1" MOUNT_POINT = true
  /\ get_users (mount_point_path (volume_at busy_env "/dev/sdb1"))
     = Ok [alice_path 1 2 3 4]
  /\ map_result (count_images (stack_limit busy_env)) [alice_path 1 2 3 4] = Ok [2%nat]
  /\ fst (process_ntfs_partition "/dev/sdb1"
            (mkEnv (udevadm_info busy_env) (fdisk_list busy_env) (fun _ => "")
                   (mount_succeeds busy_env) (volume_at busy_env)
                   (stack_limit busy_env))
            (initial_state [])) = Ok false.
Proof.
  assert (H0 : is_mounted_loop None (Some MOUNT_POINT) None
                 (Str.lines (mount_table no_users_env (listings (initial_state []))))
               = Ok false) by (vm_compute; reflexivity).
  assert (H1 : mount_succeeds busy_env "/dev/sdb1" MOUNT_POINT = true)
    by (vm_compute; reflexivity).
  assert (H2 : get_users (mount_point_path (volume_at busy_env "/dev/sdb1"))
               = Ok [alice_path 1 2 3 4]) by (vm_compute; reflexivity).
  assert (H3 : map_result (count_images (stack_limit busy_env)) [alice_path 1 2 3 4]
               = Ok [2%nat]) by (vm_compute; reflexivity).
  split; [exact H0|]. split; [exact H1|]. split; [exact H2|]. split; [exact H3|].
  rewrite (partition_is_reported "/dev/sdb1" [alice_path 1 2 3 4] [2%nat]
             (mkEnv (udevadm_info busy_env) (fdisk_list busy_env) (fun _ => "")
                    (mount_succeeds busy_env) (volume_at busy_env)
                    (stack_limit busy_env))
             (initial_state []) H0 H1 H2 H3).
  reflexivity.
Defined.

(** ** Serial numbers *)

Lemma match_serial_contains line :
  Re.match_serial line = None <-> Str.contains serial_key line = false.
Proof.
  induction line as [|c rest IH].
  - split; reflexivity.
  - cbn [Re.match_serial Str.contains]. fold serial_key.
    destruct (Re.match_serial rest) as [v|].
    + split; [discriminate|]. intros H.
      destruct (Str.startswith serial_key (String c rest)); [discriminate|].
      apply IH in H. discriminate.
    + destruct (Str.startswith serial_key (String c rest)).
      * split; discriminate.
      * split; [intros _; now apply IH | reflexivity].
Qed.

Lemma match_serial_none line :
  Re.match_serial line = None <-> ~ has_substring serial_key line.
Proof.
  rewrite match_serial_contains, <- contains_spec.
  destruct (Str.contains serial_key line); split; congruence.
Qed.

Lemma has_substring_suffix sub a s : has_substring sub s -> has_substring sub (a +:+ s).
Proof.
  intros (x & y & ->). exists (a +:+ x), y. now rewrite append_assoc.
Qed.

Lemma match_serial_some line : forall v,
  Re.match_serial line = Some v ->
  exists pre, line = pre +:+ serial_key +:+ v /\ ~ has_substring serial_key v.
Proof.
  induction line as [|c rest IH]; intros v; [discriminate|].
  cbn [Re.match_serial]. fold serial_key.
  destruct (Re.match_serial rest) as [v'|] eqn:Hrest.
  - intros [= <-]. destruct (IH v' eq_refl) as (pre & -> & Hno).
    exists (String c pre). split; [reflexivity | exact Hno].
  - destruct (Str.startswith serial_key (String c rest)) eqn:Hs; [|discriminate].
    apply startswith_spec in Hs as [t Ht]. rewrite Ht.
    change (Str.drop 16 (serial_key +:+ t)) with t.
    intros [= <-]. exists "". rewrite append_nil. split; [reflexivity|].
    intros Hsub. apply match_serial_none in Hrest. apply Hrest.
    assert (Hr : rest = "D_SERIAL_SHORT=" +:+ t).
    { unfold serial_key in Ht.
      change ("ID_SERIAL_SHORT=" +:+ t) with (String "I" ("D_SERIAL_SHORT=" +:+ t)) in Ht.
      now injection Ht. }
    rewrite Hr. now apply has_substring_suffix.
Qed.

Lemma first_serial_skips before : forall line after,
  Forall (fun l => ~ has_substring serial_key l) before ->
  first_serial (before ++ line :: after)
  = match Re.match_serial line with
    | Some v => Some v
    | None => first_serial after
    end.
Proof.
  induction before as [|l before IH]; intros line after Hnone; [reflexivity|].
  inversion Hnone as [|? ? Hl Hrest]; subst. simpl.
  apply match_serial_none in Hl. rewrite Hl. now apply IH.
Qed.

Lemma first_serial_none out :
  Forall (fun l => ~ has_substring serial_key l) out -> first_serial out = None.
Proof.
  induction 1 as [|l out Hl _ IH]; [reflexivity|]. simpl.
  apply match_serial_none in Hl. now rewrite Hl.
Qed.

Lemma get_disk_serial_unfold disk w st :
  get_disk_serial disk w st
  = match first_serial (Str.lines (udevadm_info w disk)) with
    | Some serial =>
        (Ok serial,
         mkState (stdin st) (listings st) (trace st ++ [Run (udevadm_argv disk)]))
    | None =>
        (Ok "",
         mkState (stdin st) (listings st)
           (trace st ++ [Run (udevadm_argv disk);
                         Log WARNING (FailedToGetSerial disk)]))
    end.
Proof.
  unfold get_disk_serial, log, bind, emit, ask, ret. simpl.
  destruct (first_serial _); simpl; [reflexivity|].
  now rewrite <- app_assoc.
Qed.

(** X13: what [get_disk_serial] makes of the text that udevadm printed,
    [udevadm_info w disk], once udevadm has run and its output is
    decoded (a missing tool and undecodable output are outside the
    environment modelled here). When no line of the text has the key
    ID_SERIAL_SHORT= the call hands back the empty string and logs a
    warning; otherwise it hands back, from the first line that has the
    key, the text after the last occurrence of the key in that line,
    without a warning. *)
Theorem get_disk_serial_finds_the_serial disk w st :
  (Forall (fun l => ~ has_substring serial_key l) (Str.lines (udevadm_info w disk)) ->
   get_disk_serial disk w st
   = (Ok "",
      mkState (stdin st) (listings st)
        (trace st ++ [Run (udevadm_argv disk);
                      Log WARNING (FailedToGetSerial disk)])))
  /\ (forall before line after,
        Str.lines (udevadm_info w disk) = before ++ line :: after ->
        Forall (fun l => ~ has_substring serial_key l) before ->
        has_substring serial_key line ->
        exists pre serial,
          line = pre +:+ serial_key +:+ serial
          /\ ~ has_substring serial_key serial
          /\ get_disk_serial disk w st
             = (Ok serial,
                mkState (stdin st) (listings st)
                  (trace st ++ [Run (udevadm_argv disk)]))).
Proof.
  split.
  - intros Hnone. rewrite get_disk_serial_unfold.
    now rewrite (first_serial_none _ Hnone).
  - intros before line after Hout Hbefore Hline.
    rewrite get_disk_serial_unfold, Hout, (first_serial_skips _ _ _ Hbefore).
    destruct (Re.match_serial line) as [serial|] eqn:Hm.
    + destruct (match_serial_some line serial Hm) as (pre & Hshape & Hno).
      now exists pre, serial.
    + apply match_serial_none in Hm. contradiction.
Qed.

Lemma get_disk_serial_finds_the_serial_witness :
  Forall (fun l => ~ has_substring serial_key l)
    (Str.lines (udevadm_info quiet_env "/dev/sdb"))
  /\ fst (get_disk_serial "/dev/sdb" quiet_env (initial_state [])) = Ok ""
  /\ Str.lines (udevadm_info busy_env "/dev/sdb")
     = [] ++ "E: ID_SERIAL_SHORT=WD-1234" :: []
  /\ has_substring serial_key "E: ID_SERIAL_SHORT=WD-1234"
  /\ exists pre serial,
       "E: ID_SERIAL_SHORT=WD-1234" = pre +:+ serial_key +:+ serial
       /\ ~ has_substring serial_key serial
       /\ get_disk_serial "/dev/sdb" busy_env (initial_state [])
          = (Ok serial, mkState [] 0 [Run (udevadm_argv "/dev/sdb")]).
Proof.
  assert (Hnone : Forall (fun l => ~ has_substring serial_key l)
                    (Str.lines (udevadm_info quiet_env "/dev/sdb"))).
  { repeat constructor. intros H. apply contains_spec in H.
    vm_compute in H. discriminate H. }
  assert (Hkey : has_substring serial_key "E: ID_SERIAL_SHORT=WD-1234").
  { apply contains_spec. vm_compute. reflexivity. }
  assert (Hout : Str.lines (udevadm_info busy_env "/dev/sdb")
                 = [] ++ "E: ID_SERIAL_SHORT=WD-1234" :: [])
    by (vm_compute; reflexivity).
  split; [exact Hnone|]. split.
  { rewrite (proj1 (get_disk_serial_finds_the_serial "/dev/sdb" quiet_env
                      (initial_state [])) Hnone). reflexivity. }
  split; [exact Hout|]. split; [exact Hkey|].
  exact (proj2 (get_disk_serial_finds_the_serial "/dev/sdb" busy_env
                  (initial_state []))
           [] "E: ID_SERIAL_SHORT=WD-1234" [] Hout (List.Forall_nil _) Hkey).
Defined.

(** ** The files of a walk *)

Lemma list_files_loop_contributions walk paths : forall files,
  list_files_loop walk paths [] = Ok files ->
  Forall (fun c => exists found, contribution walk c = Ok found) paths
  /\ forall f, In f files
       <-> exists c found, In c paths /\ contribution walk c = Ok found /\ In f found.
Proof.
  induction paths as [|path rest IH]; intros files.
  - intros [= <-]. split; [constructor|]. intros f. split; [intros [] |].
    intros (c & found & [] & _).
  - rewrite list_files_loop_cons.
    destruct (contribution walk path) as [found|] eqn:Hc; [|discriminate].
    destruct (list_files_loop walk rest []) as [more|]; [|discriminate].
    intros [= <-]. destruct (IH more eq_refl) as [Hall Hin]. split.
    + constructor; [now exists found | exact Hall].
    + intros f. rewrite in_app_iff, Hin. split.
      * intros [Hf | (c & fc & Hcin & Hcc & Hfc)].
        -- exists path, found. split; [now left | now split].
        -- exists c, fc. split; [now right | now split].
      * intros (c & fc & [<- | Hcin] & Hcc & Hfc).
        -- left. rewrite Hc in Hcc. now injection Hcc as ->.
        -- right. now exists c, fc.
Qed.

Lemma is_dir_not_file p : Fs.is_dir p = true -> Fs.is_file p = false.
Proof.
  unfold Fs.is_dir, Fs.is_file. now destruct (Fs.stat p) as [[| | |]|].
Qed.

Lemma list_files_within stack : forall start max_depth files,
  list_files stack start max_depth = Ok files ->
  forall f, In f files <-> within start max_depth f.
Proof.
  induction stack as [|stack IH]; intros start max_depth files; simpl;
    [discriminate|].
  destruct (max_depth <? 0) eqn:Hd.
  { apply Z.ltb_lt in Hd. intros [= <-] f. split; [intros []|].
    intros H. inversion H; lia. }
  apply Z.ltb_ge in Hd.
  destruct (Fs.iterdir start) as [paths|e] eqn:Hit; [|discriminate].
  intros Hloop f.
  destruct (list_files_loop_contributions _ _ _ Hloop) as [Hall Hin].
  rewrite Hin. split.
  - intros (c & found & Hc & Hcontrib & Hf). unfold contribution in Hcontrib.
    destruct (Fs.is_file c) eqn:Hfile.
    + injection Hcontrib as <-. destruct Hf as [<-|[]].
      now apply within_file with paths.
    + destruct (Fs.is_dir c && negb (Fs.is_symlink c)) eqn:Hdir.
      * apply andb_true_iff in Hdir as [Hdir Hlink].
        apply negb_true_iff in Hlink.
        apply within_dir with paths c; try assumption.
        now apply (IH c (max_depth - 1) found).
      * injection Hcontrib as <-. destruct Hf.
  - intros H. inversion H as [? ? paths' ? _ Hit' Hfin Hfile
                             | ? ? paths' sub ? _ Hit' Hsub Hdir Hlink Hrec]; subst.
    + rewrite Hit in Hit'. injection Hit' as <-.
      exists f, [f]. split; [exact Hfin|]. split; [|now left].
      unfold contribution. now rewrite Hfile.
    + rewrite Hit in Hit'. injection Hit' as <-.
      rewrite List.Forall_forall in Hall.
      destruct (Hall sub Hsub) as [found Hfound].
      exists sub, found. split; [exact Hsub|]. split; [exact Hfound|].
      unfold contribution in Hfound.
      rewrite (is_dir_not_file sub Hdir), Hdir, Hlink in Hfound. simpl in Hfound.
      now apply (IH sub (max_depth - 1) found).
Qed.

(** X14: the result of [list_files] holds exactly the entries that are
    regular files, or links to regular files, reached from the start
    through at most [max_depth] directories that are no symbolic links:
    none is left out and nothing else is listed. *)
Theorem list_files_lists_the_files_within stack : forall start max_depth files,
  list_files stack start max_depth = Ok files ->
  forall f, In f files <-> within start max_depth f.
Proof. exact (list_files_within stack). Qed.

Lemma list_files_lists_the_files_within_witness :
  list_files 7 (dir_path ["u"] [("a.png", File 10); ("d", Dir [("b.jpg", File 3)])]) 5
    = Ok [mkPath ["u"; "a.png"] (Some (File 10));
          mkPath ["u"; "d"; "b.jpg"] (Some (File 3))]
  /\ within (dir_path ["u"] [("a.png", File 10); ("d", Dir [("b.jpg", File 3)])]) 5
       (mkPath ["u"; "d"; "b.jpg"] (Some (File 3))).
Proof.
  assert (H : list_files 7 (dir_path ["u"] [("a.png", File 10);
                                            ("d", Dir [("b.jpg", File 3)])]) 5
              = Ok [mkPath ["u"; "a.png"] (Some (File 10));
                    mkPath ["u"; "d"; "b.jpg"] (Some (File 3))])
    by (vm_compute; reflexivity).
  split; [exact H|].
  apply (list_files_lists_the_files_within 7 _ 5 _ H). right. left. reflexivity.
Defined.


Example linked_profile_counts :
  count_images 7 (mkPath ["/"; "mnt"; "4"; "Users"; "carol"]
                    (Some (Symlink (Some linked_pictures)))) = Ok 2%nat.
Proof. vm_compute. reflexivity. Qed.

(** ** Suffixes *)

Lemma last_snoc {A} (xs : list A) (x d : A) : List.last (xs ++ [x]) d = x.
Proof.
  induction xs as [|y xs IH]; [reflexivity|].
  simpl. destruct (xs ++ [x]) eqn:E; [now destruct xs | exact IH].
Qed.

Lemma rfind_no_dot ext : no_dot ext = true -> Str.rfind "." ext = None.
Proof.
  induction ext as [|c ext IH]; [reflexivity|]. simpl.
  intros H. apply andb_true_iff in H as [Hc Hext].
  rewrite (IH Hext). apply negb_true_iff in Hc. now rewrite Hc.
Qed.

Lemma rfind_last_dot base ext :
  no_dot ext = true ->
  Str.rfind "." (base +:+ String "." ext) = Some (String.length base).
Proof.
  intros Hext. induction base as [|c base IH].
  - rewrite append_nil. simpl. now rewrite (rfind_no_dot ext Hext).
  - rewrite append_cons. simpl. now rewrite IH.
Qed.

Lemma drop_app_length base t : Str.drop (String.length base) (base +:+ t) = t.
Proof.
  induction base as [|c base IH]; [reflexivity|].
  rewrite append_cons. exact IH.
Qed.

Lemma length_append a b :
  String.length (a +:+ b) = (String.length a + String.length b)%nat.
Proof.
  induction a as [|c a IH]; [reflexivity|].
  rewrite append_cons. simpl. now rewrite IH.
Qed.

(** X16: the suffix that decides whether a file counts is what follows
    the last dot of its name, dot included, provided something stands
    before that dot and something after it. A name with a single leading
    dot, such as a file called just .jpg, has no suffix and is never
    counted as an image. *)
Theorem suffix_is_after_the_last_dot dir base ext e :
  no_dot ext = true -> ext <> "" ->
  (base <> "" ->
   Fs.suffix (mkPath (dir ++ [base +:+ String "." ext]) e) = String "." ext)
  /\ (base = "" ->
      Fs.suffix (mkPath (dir ++ [base +:+ String "." ext]) e) = ""
      /\ is_image (mkPath (dir ++ [base +:+ String "." ext]) e) = false).
Proof.
  intros Hext Hne.
  assert (Hsuffix : Fs.suffix (mkPath (dir ++ [base +:+ String "." ext]) e)
                    = if (0 <? String.length base)%nat then String "." ext else "").
  { unfold Fs.suffix, Fs.name. cbn [parts]. rewrite last_snoc.
    rewrite (rfind_last_dot base ext Hext), length_append.
    destruct (0 <? String.length base)%nat eqn:Hb; [|reflexivity].
    assert (Hlt : (String.length base <? String.length base
                     + String.length (String "." ext) - 1)%nat = true).
    { apply Nat.ltb_lt. destruct ext; [contradiction|]. simpl. lia. }
    rewrite Hlt. cbn [andb]. apply drop_app_length. }
  split.
  - intros Hbase. rewrite Hsuffix.
    destruct base; [contradiction | reflexivity].
  - intros ->. split; [exact Hsuffix|].
    unfold is_image. now rewrite Hsuffix.
Qed.

Lemma suffix_is_after_the_last_dot_witness :
  no_dot "jpg" = true /\ "jpg" <> "" /\ "holiday.2019" <> ""
  /\ Fs.suffix (mkPath (["u"] ++ ["holiday.2019" +:+ String "." "jpg"]) (Some (File 1)))
     = String "." "jpg"
  /\ Fs.suffix (mkPath (["u"] ++ ["" +:+ String "." "jpg"]) (Some (File 1))) = "".
Proof.
  assert (H1 : no_dot "jpg" = true) by (vm_compute; reflexivity).
  assert (H2 : "jpg" <> "") by discriminate.
  assert (H3 : "holiday.2019" <> "") by discriminate.
  split; [exact H1|]. split; [exact H2|]. split; [exact H3|]. split.
  - exact (proj1 (suffix_is_after_the_last_dot ["u"] "holiday.2019" "jpg"
                    (Some (File 1)) H1 H2) H3).
  - exact (proj1 (proj2 (suffix_is_after_the_last_dot ["u"] "" "jpg"
                           (Some (File 1)) H1 H2) eq_refl)).
Defined.

(** ** The commands of [process_disk] *)

Lemma take_partition l d rest :
  Str.take 9 ("/dev/sd" +:+ String l (String d rest))
  = "/dev/sd" +:+ String l (String d "").
Proof. reflexivity. Qed.

Lemma returns_get_ntfs_partitions disk :
  returns (Forall partition_shape) (get_ntfs_partitions disk).
Proof.
  intros w st ps. rewrite get_ntfs_partitions_result.
  destruct (fdisk_list w disk) as [output|]; [|discriminate].
  unfold parse_ntfs_partitions. intros H. apply map_result_ok_inv in H.
  induction H as [|k p ks ps Hk _ IH]; constructor; [|exact IH].
  unfold partition_path in Hk.
  destruct (Re.match_partition k) as [g|] eqn:Hm; [|discriminate].
  injection Hk as <-.
  apply match_partition_some in Hm as (-> & (l & d & rest & -> & Hl & Hd) & _).
  exists l, d. repeat split; assumption.
Qed.

Lemma adds_only_get_disk_serial path :
  adds_only (disk_event path) (get_disk_serial path).
Proof.
  unfold get_disk_serial, log.
  apply adds_only_bind; [apply adds_only_emit; now left | intros _].
  apply adds_only_bind; [apply adds_only_ask | intros out].
  destruct (first_serial _); [apply adds_only_ret|].
  apply adds_only_bind; [apply adds_only_emit; exact I | intros _].
  apply adds_only_ret.
Qed.

Lemma adds_only_get_ntfs_partitions path :
  adds_only (disk_event path) (get_ntfs_partitions path).
Proof.
  unfold get_ntfs_partitions, log.
  apply adds_only_bind; [apply adds_only_emit; right; now left | intros _].
  apply adds_only_bind; [apply adds_only_ask | intros p].
  destruct p as [output|]; [|apply adds_only_raise].
  apply adds_only_bind; [apply adds_only_emit; exact I | intros _].
  apply adds_only_bind; [apply adds_only_emit; exact I | intros _].
  apply adds_only_bind; [apply adds_only_lift | intros paths].
  apply adds_only_bind; [apply adds_only_emit; exact I | intros _].
  apply adds_only_ret.
Qed.

Lemma mount_event_disk_event path part e :
  partition_shape part -> mount_event part MOUNT_POINT e -> disk_event path e.
Proof.
  intros Hshape. destruct e as [lvl msg | msg | q a | argv | c |]; simpl.
  - destruct lvl, msg; tauto.
  - destruct msg; tauto.
  - tauto.
  - intros [-> | ->]; [right; right; now left|].
    right; right; right. now exists part.
  - tauto.
  - tauto.
Qed.

Lemma scan_event_disk_event path e : scan_event e -> disk_event path e.
Proof.
  destruct e as [lvl msg | msg | q a | argv | c |]; simpl; try tauto.
  - destruct lvl, msg; tauto.
  - destruct msg; tauto.
Qed.

Lemma adds_only_process_ntfs_partition path part :
  partition_shape part ->
  adds_only (disk_event path) (process_ntfs_partition part).
Proof.
  intros Hshape. unfold process_ntfs_partition, log, print.
  apply adds_only_bind.
  { apply (adds_only_impl (mount_event part MOUNT_POINT));
      [intros e; now apply mount_event_disk_event | apply adds_only_mount]. }
  intros failed. destruct (truthy failed); [apply adds_only_ret|].
  apply adds_only_bind; [apply adds_only_ask | intros volume].
  apply adds_only_bind; [apply adds_only_lift | intros users].
  apply adds_only_bind; [apply adds_only_emit; exact I | intros _].
  apply adds_only_bind.
  { apply adds_only_for_each. intros user _.
    apply adds_only_bind; [apply adds_only_ask | intros limit].
    apply adds_only_bind; [apply adds_only_lift | intros images].
    apply adds_only_bind; [apply adds_only_emit; exact I | intros _].
    apply adds_only_emit. exact I. }
  intros _. apply adds_only_bind; [apply adds_only_emit; exact I | intros _].
  apply adds_only_ret.
Qed.

Lemma adds_only_process_disk path : adds_only (disk_event path) (process_disk path).
Proof.
  unfold process_disk, unmount, log, print.
  apply adds_only_bind; [apply adds_only_get_disk_serial | intros serial].
  apply adds_only_bind; [apply adds_only_emit; exact I | intros _].
  apply adds_only_bind; [apply adds_only_emit; exact I | intros _].
  apply (adds_only_bind_post (disk_event path) (Forall partition_shape));
    [apply adds_only_get_ntfs_partitions | apply returns_get_ntfs_partitions|].
  intros partitions Hshapes. destruct (length partitions =? 0)%nat.
  - apply adds_only_bind; [apply adds_only_emit; exact I | intros _].
    apply adds_only_emit. exact I.
  - apply adds_only_bind; [apply adds_only_emit; exact I | intros _].
    apply adds_only_for_each. intros partition Hin.
    rewrite List.Forall_forall in Hshapes. specialize (Hshapes partition Hin).
    apply adds_only_bind; [now apply adds_only_process_ntfs_partition|].
    intros failed. apply adds_only_bind.
    + destruct failed; [apply adds_only_emit; exact I | apply adds_only_ret].
    + intros _. apply adds_only_emit. now exists partition.
Qed.

(** X17: the external commands of [process_disk] are udevadm and fdisk for
    the disk itself, the listing of the mount table, the mount of a
    partition at the mount point and umount of a partition, where every
    partition named is /dev/sd, a lower-case letter and a digit: no other
    text of the fdisk output reaches a command line. It never sleeps and
    writes none of the lines of the monitor. *)
Theorem process_disk_commands path w st :
  exists evs,
    trace (snd (process_disk path w st)) = trace st ++ evs
    /\ Forall (disk_event path) evs.
Proof. apply adds_only_process_disk. Qed.

(** ** Rounds of the monitor *)

Lemma subseteq_difference_empty (X Y : gset string) : X ⊆ Y -> X ∖ Y = ∅.
Proof. intros H. apply set_eq. intros x. set_solver. Qed.

Lemma tick_without_arrivals known dev w st :
  get_disks dev ⊆ known ->
  tick known dev w st
  = (Ok (known ∖ (known ∖ get_disks dev)),
     mkState (stdin st) (listings st)
       (trace st
          ++ (if (0 <? size (known ∖ get_disks dev))%nat
              then [Log INFO (RemovedDisks
                                (map basename (elements (known ∖ get_disks dev))))]
              else [])
          ++ [Sleep])).
Proof.
  intros Hsub. unfold tick, new_disks_of, removed_disks_of.
  rewrite (subseteq_difference_empty _ _ Hsub), size_empty.
  change (0 <? 0)%nat with false. cbv iota.
  unfold bind at 1, ret at 1. unfold bind at 1.
  destruct (0 <? size (known ∖ get_disks dev))%nat eqn:Hrem.
  - unfold log, bind, emit, ret. cbn [stdin listings trace].
    now rewrite <- app_assoc.
  - unfold bind, emit, ret. cbn [stdin listings trace app].
    apply size_zero_empty in Hrem. rewrite Hrem.
    f_equal. f_equal. apply set_eq. intros x. set_solver.
Qed.

(** X18: a round whose poll shows no disk that is not known already
    processes nothing: it starts no external command and asks nothing, it
    logs the removed disks if there are any, sleeps, and leaves as known
    exactly the disks of the poll. *)
Theorem round_without_new_disks known dev w st :
  get_disks dev ⊆ known ->
  tick known dev w st
  = (Ok (get_disks dev),
     mkState (stdin st) (listings st)
       (trace st
          ++ (if (0 <? size (known ∖ get_disks dev))%nat
              then [Log INFO (RemovedDisks
                                (map basename (elements (known ∖ get_disks dev))))]
              else [])
          ++ [Sleep])).
Proof.
  intros Hsub. rewrite (tick_without_arrivals known dev w st Hsub).
  f_equal. f_equal. apply set_eq. intros x.
  rewrite !elem_of_difference.
  destruct (decide (x ∈ known)), (decide (x ∈ get_disks dev)); set_solver.
Qed.

Lemma round_without_new_disks_witness :
  get_disks sda_alone ⊆ get_disks sda_and_sdc
  /\ fst (tick (get_disks sda_and_sdc) sda_alone quiet_env (initial_state []))
     = Ok (get_disks sda_alone).
Proof.
  assert (H : get_disks sda_alone ⊆ get_disks sda_and_sdc).
  { apply (bool_decide_eq_true_1 (get_disks sda_alone ⊆ get_disks sda_and_sdc)).
    vm_compute. reflexivity. }
  split; [exact H|].
  rewrite (round_without_new_disks (get_disks sda_and_sdc) sda_alone quiet_env
             (initial_state []) H).
  reflexivity.
Defined.

(** X19: while the polls keep showing the disks that are known, the loop
    of [main] does nothing but sleep: a disk that stays plugged in is not
    processed again, round after round. *)
Theorem known_disks_are_left_alone polls : forall known w st,
  Forall (fun dev => get_disks dev = known) polls ->
  main_loop known polls w st
  = (Ok known,
     mkState (stdin st) (listings st) (trace st ++ repeat Sleep (length polls))).
Proof.
  induction polls as [|dev rest IH]; intros known w st Hall.
  - simpl. unfold ret. rewrite app_nil_r. now destruct st.
  - inversion Hall as [|? ? Hdev Hrest]; subst.
    cbn [main_loop]. unfold bind at 1.
    rewrite tick_without_arrivals by reflexivity.
    assert (Hnone : get_disks dev ∖ get_disks dev = ∅)
      by (apply subseteq_difference_empty; reflexivity).
    rewrite Hnone, size_empty. change (0 <? 0)%nat with false. cbv iota.
    cbn [app].
    assert (Hsame : get_disks dev ∖ ∅ = get_disks dev)
      by (apply set_eq; intros x; set_solver).
    rewrite Hsame. rewrite (IH (get_disks dev) w _ Hrest).
    cbn [stdin listings trace length repeat].
    now rewrite <- app_assoc.
Qed.

Lemma known_disks_are_left_alone_witness :
  Forall (fun dev => get_disks dev = get_disks sda_and_sdc)
    [sda_and_sdc; sda_and_sdc; sda_and_sdc]
  /\ trace (snd (main_loop (get_disks sda_and_sdc)
                   [sda_and_sdc; sda_and_sdc; sda_and_sdc]
                   quiet_env (initial_state [])))
     = [Sleep; Sleep; Sleep].
Proof.
  assert (H : Forall (fun dev => get_disks dev = get_disks sda_and_sdc)
                [sda_and_sdc; sda_and_sdc; sda_and_sdc])
    by (repeat constructor).
  split; [exact H|].
  rewrite (known_disks_are_left_alone [sda_and_sdc; sda_and_sdc; sda_and_sdc]
             (get_disks sda_and_sdc) quiet_env (initial_state []) H).
  reflexivity.
Defined.

Lemma udevadm_argv_inj a b : udevadm_argv a = udevadm_argv b -> a = b.
Proof.
  unfold udevadm_argv. intros H. injection H as H. now apply append_inj_l in H.
Qed.

Lemma disk_event_udevadm path disk :
  disk_event path (Run (udevadm_argv disk)) -> disk = path.
Proof.
  simpl. intros [H | [H | [H | (part & _ & H)]]].
  - now apply udevadm_argv_inj.
  - unfold udevadm_argv in H. discriminate H.
  - discriminate H.
  - discriminate H.
Qed.

Lemma adds_only_process_new_disks disks : forall known,
  adds_only (tick_event disks) (process_new_disks disks known).
Proof.
  induction disks as [|disk rest IH]; intros known; simpl.
  - apply adds_only_ret.
  - apply adds_only_bind.
    + apply (adds_only_impl (disk_event disk)); [|apply adds_only_process_disk].
      intros e He. left. exists disk. split; [now left | exact He].
    + intros _. apply (adds_only_impl (tick_event rest)); [|apply IH].
      intros e [(d & Hd & He) | He]; [left; exists d; split; [now right | exact He]|].
      now right.
Qed.

Lemma adds_only_tick known dev :
  adds_only (tick_event (elements (new_disks_of (get_disks dev) known)))
            (tick known dev).
Proof.
  unfold tick, log, print.
  apply adds_only_bind.
  - destruct (0 <? size _)%nat; [|apply adds_only_ret].
    apply adds_only_bind; [apply adds_only_emit; now right | intros _].
    apply adds_only_bind; [apply adds_only_process_new_disks | intros k].
    apply adds_only_bind; [apply adds_only_emit; now right | intros _].
    apply adds_only_ret.
  - intros k. apply adds_only_bind.
    + destruct (0 <? size _)%nat; [|apply adds_only_ret].
      apply adds_only_bind; [apply adds_only_emit; now right | intros _].
      apply adds_only_ret.
    + intros k'. apply adds_only_bind; [apply adds_only_emit; now right | intros _].
      apply adds_only_ret.
Qed.

Lemma process_new_disks_offers_all disks : forall known w st k,
  fst (process_new_disks disks known w st) = Ok k ->
  forall disk, In disk disks ->
    In (Run (udevadm_argv disk)) (trace (snd (process_new_disks disks known w st))).
Proof.
  induction disks as [|d rest IH]; intros known w st k Hok disk Hin; [destruct Hin|].
  cbn [process_new_disks] in *. unfold bind in *.
  pose proof (emits_udevadm_process_disk d w st) as Hemit.
  destruct (process_disk d w st) as [[[]|e] st1]; [|discriminate Hok].
  cbn [snd] in Hemit. destruct Hin as [<-|Hin].
  - destruct (grows_process_new_disks rest (known ∪ {[d]}) w st1) as [evs ->].
    apply in_or_app. now left.
  - now apply (IH _ w st1 k Hok).
Qed.

(** X20: a round that ends normally has handed to [process_disk] every
    disk of the poll that was not known, and no other: the udevadm calls
    it adds to the trace are those of exactly these disks. *)
Theorem round_offers_exactly_the_new_disks known dev w st known' :
  fst (tick known dev w st) = Ok known' ->
  forall disk,
    In (Run (udevadm_argv disk)) (trace (snd (tick known dev w st)))
    <-> In (Run (udevadm_argv disk)) (trace st)
        \/ disk ∈ new_disks_of (get_disks dev) known.
Proof.
  intros Hok disk. split.
  - destruct (adds_only_tick known dev w st) as (evs & -> & Hevs).
    intros H. apply in_app_or in H as [H|H]; [now left | right].
    rewrite List.Forall_forall in Hevs.
    destruct (Hevs _ H) as [(d & Hd & He) | []].
    apply disk_event_udevadm in He. subst d.
    apply elem_of_elements. now apply list_elem_of_In.
  - intros [Hold | Hnew].
    + destruct (grows_tick known dev w st) as [evs ->]. apply in_or_app. now left.
    + revert Hok. unfold tick.
      set (new := new_disks_of (get_disks dev) known) in *.
      assert (Hpos : (0 <? size new)%nat = true).
      { apply Nat.ltb_lt. destruct (size new) eqn:Hs; [|lia].
        apply size_empty_iff in Hs. apply leibniz_equiv in Hs.
        rewrite Hs in Hnew. now apply not_elem_of_empty in Hnew. }
      rewrite Hpos. intros Hok.
      assert (Hin : In disk (elements new)).
      { apply list_elem_of_In. now apply elem_of_elements. }
      match goal with
      | |- In _ (trace (snd (bind ?c ?k w st))) =>
          assert (Hfirst : exists k1 st1,
                    c w st = (Ok k1, st1)
                    /\ In (Run (udevadm_argv disk)) (trace st1));
          [|destruct Hfirst as (k1 & st1 & Hc & Hst1);
            unfold bind at 1; rewrite Hc;
            match goal with
            | |- In _ (trace (snd (?rest w st1))) =>
                assert (Hg : grows rest);
                [|destruct (Hg w st1) as [evs ->]; apply in_or_app; now left]
            end]
      end.
      * unfold log. unfold bind at 1, emit at 1.
        unfold bind at 1 in Hok. unfold log, bind at 1, emit at 1 in Hok.
        unfold bind at 1.  unfold bind at 1 in Hok.
        match goal with
        | |- context [process_new_disks ?d ?kn w ?s] =>
            pose proof (process_new_disks_offers_all d kn w s) as Hall;
            destruct (process_new_disks d kn w s) as [[k1|e] st1]
        end; [|discriminate Hok].
        exists k1. eexists. split; [reflexivity|].
        unfold print, bind, emit, ret. cbn [trace snd].
        apply in_or_app. left. apply (Hall k1 eq_refl disk Hin).
      * unfold log. repeat grows_step.
Qed.

Lemma round_offers_exactly_the_new_disks_witness :
  fst (tick (get_disks sda_alone) sda_and_sdc quiet_env (initial_state []))
    = Ok (get_disks sda_and_sdc)
  /\ (In (Run (udevadm_argv "/dev/sdc"))
         (trace (snd (tick (get_disks sda_alone) sda_and_sdc quiet_env
                        (initial_state []))))
      <-> In (Run (udevadm_argv "/dev/sdc")) (trace (initial_state []))
          \/ "/dev/sdc" ∈ new_disks_of (get_disks sda_and_sdc) (get_disks sda_alone)).
Proof.
  assert (H : fst (tick (get_disks sda_alone) sda_and_sdc quiet_env (initial_state []))
              = Ok (get_disks sda_and_sdc)) by (vm_compute; reflexivity).
  split; [exact H|].
  exact (round_offers_exactly_the_new_disks (get_disks sda_alone) sda_and_sdc
           quiet_env (initial_state []) (get_disks sda_and_sdc) H "/dev/sdc").
Defined.

(** ** Unmounting *)

Lemma adds_no_system_process_ntfs_partition part :
  adds_only (fun e => is_system e = false) (process_ntfs_partition part).
Proof.
  unfold process_ntfs_partition, log, print.
  apply adds_only_bind.
  { apply (adds_only_impl (mount_event part MOUNT_POINT)); [|apply adds_only_mount].
    intros [lvl msg | msg | q a | argv | c |]; simpl; tauto. }
  intros failed. destruct (truthy failed); [apply adds_only_ret|].
  apply adds_only_bind; [apply adds_only_ask | intros volume].
  apply adds_only_bind; [apply adds_only_lift | intros users].
  apply adds_only_bind; [now apply adds_only_emit | intros _].
  apply adds_only_bind.
  { apply adds_only_for_each. intros user _.
    apply adds_only_bind; [apply adds_only_ask | intros limit].
    apply adds_only_bind; [apply adds_only_lift | intros images].
    apply adds_only_bind; [now apply adds_only_emit | intros _].
    now apply adds_only_emit. }
  intros _. apply adds_only_bind; [now apply adds_only_emit | intros _].
  apply adds_only_ret.
Qed.

Lemma filter_none {A} (f : A -> bool) xs :
  Forall (fun x => f x = false) xs -> List.filter f xs = [].
Proof.
  induction 1 as [|x xs Hx _ IH]; [reflexivity|]. simpl. now rewrite Hx.
Qed.

Lemma process_and_unmount_systems part w st :
  fst (process_and_unmount part w st) = Ok tt ->
  List.filter is_system (trace (snd (process_and_unmount part w st)))
  = List.filter is_system (trace st) ++ [umount_of part].
Proof.
  unfold process_and_unmount, bind.
  destruct (adds_no_system_process_ntfs_partition part w st) as (evs & Hevs & Hno).
  destruct (process_ntfs_partition part w st) as [[failed|e] st1];
    [|discriminate].
  cbn [snd] in Hevs. intros _.
  destruct failed; unfold log, unmount, emit, ret; cbn [trace snd fst];
    rewrite Hevs, !List.filter_app, (filter_none _ _ Hno); cbn [List.filter is_system];
    rewrite ?app_nil_r; reflexivity.
Qed.

Lemma for_each_unmounts parts : forall w st,
  fst (for_each parts process_and_unmount w st) = Ok tt ->
  List.filter is_system (trace (snd (for_each parts process_and_unmount w st)))
  = List.filter is_system (trace st) ++ map umount_of parts.
Proof.
  induction parts as [|part parts IH]; intros w st.
  - intros _. simpl. now rewrite app_nil_r.
  - cbn [for_each]. unfold bind at 1 2.
    pose proof (process_and_unmount_systems part w st) as Hone.
    destruct (process_and_unmount part w st) as [[[]|e] st1]; [|discriminate].
    intros Hrest. rewrite (IH w st1 Hrest). cbn [snd] in Hone.
    rewrite (Hone eq_refl), <- app_assoc. reflexivity.
Qed.

(** X21: a call of [process_disk] that ends normally has run umount once
    for each partition that [get_ntfs_partitions] returned, in their
    order, and has run nothing else through the shell. *)
Theorem process_disk_unmounts_every_partition path output parts w st :
  fdisk_list w path = Some output ->
  parse_ntfs_partitions path output = Ok parts ->
  fst (process_disk path w st) = Ok tt ->
  List.filter is_system (trace (snd (process_disk path w st)))
  = List.filter is_system (trace st) ++ map umount_of parts.
Proof.
  intros Hrun Hparse. destruct parts as [|part more].
  - rewrite (process_disk_no_partitions path output w st Hrun Hparse).
    intros _. cbn [snd trace map]. rewrite !List.filter_app, app_nil_r.
    assert (Hnone : forall evs,
              forallb (fun e => negb (is_system e)) evs = true ->
              List.filter is_system evs = []).
    { induction evs as [|e evs IH]; [reflexivity|]. simpl.
      intros H. apply andb_true_iff in H as [He Hevs].
      apply negb_true_iff in He. rewrite He. now apply IH. }
    rewrite (Hnone (preamble_events w path))
      by (unfold preamble_events, udevadm_argv; now destruct (first_serial _)).
    reflexivity.
  - rewrite (process_disk_enters_loop path output part more w st Hrun Hparse).
    intros Hok. rewrite (for_each_unmounts (part :: more) w _ Hok).
    f_equal. unfold state_at_loop. cbn [trace].
    rewrite !List.filter_app.
    assert (Hpre : List.filter is_system (preamble_events w path) = []).
    { unfold preamble_events, udevadm_argv. now destruct (first_serial _). }
    rewrite Hpre. cbn [List.filter is_system parsed_events app].
    now rewrite !app_nil_r.
Qed.

Lemma process_disk_unmounts_every_partition_witness :
  fdisk_list busy_env "/dev/sdb" = Some sample_fdisk_output
  /\ parse_ntfs_partitions "/dev/sdb" sample_fdisk_output
     = Ok ["/dev/sdb1"; "/dev/sdb3"]
  /\ fst (process_disk "/dev/sdb" busy_env (initial_state [""; "Y"])) = Ok tt
  /\ List.filter is_system
       (trace (snd (process_disk "/dev/sdb" busy_env (initial_state [""; "Y"]))))
     = List.filter is_system (trace (initial_state [""; "Y"]))
       ++ map umount_of ["/dev/sdb1"; "/dev/sdb3"].
Proof.
  assert (H1 : fdisk_list busy_env "/dev/sdb" = Some sample_fdisk_output)
    by (vm_compute; reflexivity).
  assert (H2 : parse_ntfs_partitions "/dev/sdb" sample_fdisk_output
               = Ok ["/dev/sdb1"; "/dev/sdb3"]) by (vm_compute; reflexivity).
  assert (H3 : fst (process_disk "/dev/sdb" busy_env (initial_state [""; "Y"])) = Ok tt)
    by (vm_compute; reflexivity).
  split; [exact H1|]. split; [exact H2|]. split; [exact H3|].
  exact (process_disk_unmounts_every_partition "/dev/sdb" sample_fdisk_output
           ["/dev/sdb1"; "/dev/sdb3"] busy_env (initial_state [""; "Y"]) H1 H2 H3).
Defined.

(** ** Profiles *)

(** X22: [get_users] returns the entries of [Users] that are directories
    holding a marker in the order in which the directory lists them,
    each as often as it is listed; when [Users] cannot be listed, the
    error of the listing is the error of the call. *)
Theorem get_users_in_directory_order mount_point :
  match Fs.iterdir (Fs.join mount_point "Users") with
  | Ok dirs =>
      exists users,
        get_users mount_point = Ok users
        /\ selected (fun dir => Fs.is_dir dir = true /\ has_marker dir) dirs users
  | Raise e =>
      get_users mount_point = Raise e
      /\ (e = FileNotFoundError \/ e = NotADirectoryError)
  end.
Proof.
  unfold get_users.
  destruct (Fs.iterdir (Fs.join mount_point "Users")) as [dirs|e] eqn:Hit.
  - rewrite get_users_fold. simpl. eexists. split; [reflexivity|].
    apply filter_selected. intros dir. apply qualifies_spec.
  - split; [reflexivity|]. apply iterdir_raises in Hit. tauto.
Qed.

(** ** The program *)

(** X23: started while [/dev] holds no block device sdc, the program
    processes nothing: after the first log line [main] fails with
    [KeyError], and the [finally] clause still runs umount on the mount
    point before the error leaves the program. *)
Theorem program_needs_sdc startup polls w st :
  "/dev/sdc" ∉ get_disks startup ->
  run_program startup polls w st
  = (Raise KeyError,
     mkState (stdin st) (listings st)
       (trace st ++ [Log INFO Started; System ("umount " +:+ MOUNT_POINT)])).
Proof.
  intros Hout. unfold run_program, try_finally, main, cleanup, unmount, log.
  unfold bind, emit, raise. cbn [fst snd stdin listings trace].
  rewrite bool_decide_eq_false_2 by exact Hout.
  cbn [stdin listings trace]. now rewrite <- app_assoc.
Qed.

Lemma program_needs_sdc_witness :
  ("/dev/sdc" ∉ get_disks sda_alone)
  /\ fst (run_program sda_alone [sda_and_sdc] quiet_env (initial_state []))
     = Raise KeyError.
Proof.
  assert (Hout : "/dev/sdc" ∉ get_disks sda_alone).
  { apply (bool_decide_eq_false_1 ("/dev/sdc" ∈ get_disks sda_alone)).
    vm_compute. reflexivity. }
  split; [exact Hout|].
  rewrite (program_needs_sdc sda_alone [sda_and_sdc] quiet_env (initial_state []) Hout).
  reflexivity.
Defined.

(** * Image names, links and the partition loop *)

(** ** Letter case *)

Lemma nat_of_ascii_inj a b :
  Ascii.nat_of_ascii a = Ascii.nat_of_ascii b -> a = b.
Proof.
  intros H.
  rewrite <- (Ascii.ascii_nat_embedding a), <- (Ascii.ascii_nat_embedding b).
  now rewrite H.
Qed.

(** Against a character that is no capital letter, [same_letter] is
    equality after [Str.lower_char]. *)
Lemma same_letter_lower_char a b :
  ((65 <=? Ascii.nat_of_ascii b)%nat && (Ascii.nat_of_ascii b <=? 90)%nat) = false ->
  same_letter a b = true <-> Str.lower_char a = b.
Proof.
  intros Hb. unfold same_letter, Str.lower_char, Str.is_upper. cbv zeta.
  pose proof (Ascii.nat_ascii_bounded a) as Ha.
  rewrite Hb. cbn [andb]. rewrite orb_false_r.
  destruct ((65 <=? Ascii.nat_of_ascii a)%nat && (Ascii.nat_of_ascii a <=? 90)%nat)
    eqn:Hu; cbn [andb].
  - apply andb_true_iff in Hu as [Hu1 Hu2].
    apply Nat.leb_le in Hu1. apply Nat.leb_le in Hu2.
    rewrite orb_true_iff, !Nat.eqb_eq. split.
    + intros [H | H].
      * rewrite <- H in Hb.
        apply andb_false_iff in Hb as [Hb | Hb]; apply Nat.leb_gt in Hb; lia.
      * rewrite <- H. apply Ascii.ascii_nat_embedding.
    + intros <-. right. rewrite Ascii.nat_ascii_embedding by lia. reflexivity.
  - rewrite orb_false_r, Nat.eqb_eq. split.
    + apply nat_of_ascii_inj.
    + now intros ->.
Qed.

Lemma caseless_lower s : forall t,
  small t = true -> caseless s t = true <-> Str.lower s = t.
Proof.
  induction s as [|a s IH]; intros [|b t] Ht; simpl.
  - tauto.
  - split; discriminate.
  - split; discriminate.
  - simpl in Ht. apply andb_true_iff in Ht as [Hb Ht].
    apply negb_true_iff in Hb.
    rewrite andb_true_iff, (same_letter_lower_char a b Hb), (IH t Ht).
    split; [intros [-> ->]; reflexivity | intros [= -> ->]; now split].
Qed.

Lemma eqb_lower_caseless s t :
  small t = true -> String.eqb (Str.lower s) t = caseless s t.
Proof.
  intros Ht. apply bool_iff_eq.
  rewrite String.eqb_eq. symmetry. now apply caseless_lower.
Qed.

(** The test of [count_images] on a file is the test on its name. *)
Lemma is_image_image_name f : is_image f = image_name f.
Proof.
  unfold is_image, image_name, IMAGE_EXTENSIONS. cbn [existsb].
  now rewrite !eqb_lower_caseless by reflexivity.
Qed.

Lemma same_letter_dot a b :
  same_letter a b = true -> Ascii.eqb b "." = false -> Ascii.eqb a "." = false.
Proof.
  unfold same_letter. cbv zeta. intros H Hb.
  apply Ascii.eqb_neq. apply Ascii.eqb_neq in Hb. intros ->.
  change (Ascii.nat_of_ascii ".") with 46%nat in H.
  assert (Hne : Ascii.nat_of_ascii b <> 46%nat).
  { intros Hn. apply Hb. apply nat_of_ascii_inj. exact Hn. }
  rewrite !orb_true_iff, !andb_true_iff, !Nat.eqb_eq, !Nat.leb_le in H.
  lia.
Qed.

Lemma caseless_no_dot s : forall t,
  caseless s t = true -> no_dot t = true -> no_dot s = true.
Proof.
  induction s as [|a s IH]; intros [|b t]; simpl; try discriminate; [reflexivity|].
  rewrite !andb_true_iff, !negb_true_iff. intros [Hab Hst] [Hb Ht].
  split; [now apply (same_letter_dot a b) | now apply (IH t)].
Qed.

Lemma caseless_nonempty s t : caseless s t = true -> t <> "" -> s <> "".
Proof. destruct s, t; simpl; congruence. Qed.

(** ** Names with an extension *)

Lemma suffix_file_name dir base ext e :
  no_dot ext = true -> ext <> "" -> base <> "" ->
  Fs.suffix (mkPath (dir ++ [file_name base ext]) e) = String "." ext.
Proof.
  intros Hext Hne Hbase. unfold Fs.suffix, Fs.name, file_name. cbn [parts].
  rewrite last_snoc, (rfind_last_dot base ext Hext), length_append.
  assert (H0 : (0 <? String.length base)%nat = true).
  { apply Nat.ltb_lt. destruct base; [contradiction | simpl; lia]. }
  assert (Hlt : (String.length base <? String.length base
                   + String.length (String "." ext) - 1)%nat = true).
  { apply Nat.ltb_lt. destruct ext; [contradiction|]. simpl. lia. }
  rewrite H0, Hlt. cbn [andb]. apply drop_app_length.
Qed.

Lemma suffix_caseless dir base ext known e :
  caseless ext known = true -> no_dot known = true -> known <> "" ->
  base <> "" ->
  Fs.suffix (mkPath (dir ++ [file_name base ext]) e) = String "." ext.
Proof.
  intros Hc Hdot Hne Hbase. apply suffix_file_name; [|  | exact Hbase].
  - now apply (caseless_no_dot ext known).
  - now apply (caseless_nonempty ext known).
Qed.

Lemma image_file_name dir base ext known e :
  In known ["png"; "jpg"; "jpeg"; "cr2"] -> caseless ext known = true ->
  base <> "" ->
  is_image (mkPath (dir ++ [file_name base ext]) e) = true.
Proof.
  intros Hin Hc Hbase. rewrite is_image_image_name. unfold image_name.
  assert (Hk : no_dot known = true /\ known <> ""
               /\ In (String "." known) [".png"; ".jpg"; ".jpeg"; ".cr2"]).
  { destruct Hin as [<- | [<- | [<- | [<- | []]]]];
      (split; [reflexivity | split; [discriminate | simpl; tauto]]). }
  destruct Hk as (Hdot & Hne & Hmem).
  rewrite (suffix_caseless dir base ext known e Hc Hdot Hne Hbase).
  apply existsb_exists. exists (String "." known). split; [exact Hmem|].
  simpl. now rewrite Hc.
Qed.

Lemma text_file_name dir base ext e :
  caseless ext "txt" = true -> base <> "" ->
  is_image (mkPath (dir ++ [file_name base ext]) e) = false.
Proof.
  intros Hc Hbase. unfold is_image.
  rewrite (suffix_caseless dir base ext "txt" e Hc eq_refl) by
    (discriminate || exact Hbase).
  apply caseless_lower in Hc; [|reflexivity].
  cbn [Str.lower]. rewrite Hc. reflexivity.
Qed.

(** ** Profiles and their pictures *)

Lemma list_files_profile stack upper n1 n2 n3 marker a b notes :
  list_files (S stack) (profile_path upper n1 n2 n3 marker a b notes)
    DEFAULT_MAX_DEPTH
  = Ok [mkPath ["/"; "mnt"; "4"; "Users"; "alice"; marker_name upper]
          (Some (File marker));
        mkPath ["/"; "mnt"; "4"; "Users"; "alice"; n1] (Some (File a));
        mkPath ["/"; "mnt"; "4"; "Users"; "alice"; n2] (Some (File b));
        mkPath ["/"; "mnt"; "4"; "Users"; "alice"; n3] (Some (File notes))].
Proof. reflexivity. Qed.

Lemma get_users_profile upper n1 n2 n3 marker a b notes c :
  get_users (mount_point_path
               (Some (profile_volume upper n1 n2 n3 marker a b notes c)))
  = Ok [profile_path upper n1 n2 n3 marker a b notes].
Proof.
  unfold get_users, mount_point_path, profile_volume, profile_path, profile_dir.
  unfold Fs.iterdir, Fs.join, Fs.stat, Fs.exists_, Fs.is_dir, Fs.stat.
  cbn [parts entry Fs.resolve Fs.find_entry String.eqb Ascii.eqb Bool.eqb
       app map fst snd fold_left negb].
  destruct upper; cbn [marker_name].
  - change (String.eqb "NTUSER.DAT" "ntuser.dat") with false.
    change (String.eqb "NTUSER.DAT" "NTUSER.DAT") with true.
    cbv iota.
    destruct (String.eqb n1 "ntuser.dat"); [reflexivity|].
    destruct (String.eqb n2 "ntuser.dat"); [reflexivity|].
    destruct (String.eqb n3 "ntuser.dat"); reflexivity.
  - reflexivity.
Qed.

Lemma count_images_profile stack upper b1 e1 b2 e2 b3 e3 marker a b notes :
  b1 <> "" -> b2 <> "" -> b3 <> "" ->
  caseless e1 "jpg" = true -> caseless e2 "jpg" = true ->
  caseless e3 "txt" = true ->
  count_images (S stack)
    (profile_path upper (file_name b1 e1) (file_name b2 e2) (file_name b3 e3)
       marker a b notes)
  = Ok 2%nat.
Proof.
  intros H1 H2 H3 J1 J2 T3.
  rewrite count_images_spec, list_files_profile.
  assert (Hjpg : In "jpg" ["png"; "jpg"; "jpeg"; "cr2"]) by (simpl; tauto).
  pose proof (image_file_name ["/"; "mnt"; "4"; "Users"; "alice"] b1 e1 "jpg"
                (Some (File a)) Hjpg J1 H1) as I1.
  pose proof (image_file_name ["/"; "mnt"; "4"; "Users"; "alice"] b2 e2 "jpg"
                (Some (File b)) Hjpg J2 H2) as I2.
  pose proof (text_file_name ["/"; "mnt"; "4"; "Users"; "alice"] b3 e3
                (Some (File notes)) T3 H3) as I3.
  cbn [app] in I1, I2, I3. cbn [List.filter].
  rewrite I1, I2, I3.
  assert (Hm : is_image (mkPath ["/"; "mnt"; "4"; "Users"; "alice"; marker_name upper]
                           (Some (File marker))) = false)
    by (destruct upper; vm_compute; reflexivity).
  rewrite Hm. reflexivity.
Qed.

Lemma count_images_by_name stack user_dir :
  DEFAULT_MAX_DEPTH + 2 <= Z.of_nat stack ->
  Fs.is_dir user_dir = true ->
  exists files,
    list_files stack user_dir DEFAULT_MAX_DEPTH = Ok files
    /\ (forall f, In f files <-> within user_dir DEFAULT_MAX_DEPTH f)
    /\ count_images stack user_dir = Ok (length (List.filter image_name files)).
Proof.
  intros Hs Hdir.
  assert (H1 : (1 <= stack)%nat) by (unfold DEFAULT_MAX_DEPTH in Hs; lia).
  destruct (list_files_enough_stack stack user_dir DEFAULT_MAX_DEPTH Hs H1
              (or_intror Hdir)) as [files Hfiles].
  exists files. split; [exact Hfiles|]. split.
  - now apply (list_files_within stack user_dir DEFAULT_MAX_DEPTH).
  - rewrite count_images_spec, Hfiles. do 2 f_equal.
    apply List.filter_ext. intros f. apply is_image_image_name.
Qed.

(** C9: in the scenario of the specification, with the marker in either
    spelling, any sizes, and any names for the three files whose
    extensions are jpg, jpg and txt in any mix of upper and lower case,
    [get_users] returns the profile alice alone and [count_images] counts
    her two pictures. In general a directory below [Users] is returned
    exactly when a marker named ntuser.dat or NTUSER.DAT lies directly
    inside it; a file counts exactly when its suffix is .png, .jpg, .jpeg
    or .cr2 but for the case of its letters, whatever its size; and the
    count of a profile directory is the number of the files with such a
    name among those reached within the default depth. *)
Theorem alice_has_two_images :
  (forall (upper : bool) (b1 e1 b2 e2 b3 e3 : string) (marker a b notes c : Z)
          (stack : nat),
     b1 <> "" -> b2 <> "" -> b3 <> "" ->
     caseless e1 "jpg" = true -> caseless e2 "jpg" = true ->
     caseless e3 "txt" = true ->
     get_users
       (mount_point_path
          (Some (profile_volume upper (file_name b1 e1) (file_name b2 e2)
                   (file_name b3 e3) marker a b notes c)))
     = Ok [profile_path upper (file_name b1 e1) (file_name b2 e2)
             (file_name b3 e3) marker a b notes]
     /\ count_images (S stack)
          (profile_path upper (file_name b1 e1) (file_name b2 e2)
             (file_name b3 e3) marker a b notes)
        = Ok 2%nat)
  /\ (forall mount_point,
        match Fs.iterdir (Fs.join mount_point "Users") with
        | Ok dirs =>
            exists users,
              get_users mount_point = Ok users
              /\ forall dir, In dir users
                   <-> In dir dirs /\ Fs.is_dir dir = true /\ has_marker dir
        | Raise e => get_users mount_point = Raise e
        end)
  /\ (forall f, is_image f = true
        <-> exists ext, In ext [".png"; ".jpg"; ".jpeg"; ".cr2"]
                        /\ caseless (Fs.suffix f) ext = true)
  /\ (forall dir base ext known e,
        In known ["png"; "jpg"; "jpeg"; "cr2"] -> caseless ext known = true ->
        base <> "" ->
        is_image (mkPath (dir ++ [file_name base ext]) e) = true)
  /\ (forall stack user_dir,
        DEFAULT_MAX_DEPTH + 2 <= Z.of_nat stack ->
        Fs.is_dir user_dir = true ->
        exists files,
          list_files stack user_dir DEFAULT_MAX_DEPTH = Ok files
          /\ (forall f, In f files <-> within user_dir DEFAULT_MAX_DEPTH f)
          /\ count_images stack user_dir
             = Ok (length (List.filter image_name files))).
Proof.
  split.
  { intros upper b1 e1 b2 e2 b3 e3 marker a b notes c stack H1 H2 H3 J1 J2 T3.
    split; [apply get_users_profile | now apply count_images_profile]. }
  split.
  { intros mount_point. unfold get_users.
    destruct (Fs.iterdir (Fs.join mount_point "Users")) as [dirs|e]; [|reflexivity].
    rewrite get_users_fold. simpl. eexists. split; [reflexivity|].
    intros dir. rewrite List.filter_In, qualifies_spec. reflexivity. }
  split.
  { intros f. rewrite is_image_image_name. unfold image_name.
    rewrite existsb_exists. reflexivity. }
  split; [exact image_file_name | exact count_images_by_name].
Qed.

Lemma alice_has_two_images_witness :
  ("IMG_0001" <> "" /\ "portrait" <> "" /\ "notes" <> ""
   /\ caseless "JPG" "jpg" = true /\ caseless "Jpg" "jpg" = true
   /\ caseless "TXT" "txt" = true)
  /\ get_users
       (mount_point_path
          (Some (profile_volume true "IMG_0001.JPG" "portrait.Jpg" "notes.TXT"
                   0 1 2 3 4)))
     = Ok [profile_path true "IMG_0001.JPG" "portrait.Jpg" "notes.TXT" 0 1 2 3]
  /\ count_images 7
       (profile_path true "IMG_0001.JPG" "portrait.Jpg" "notes.TXT" 0 1 2 3)
     = Ok 2%nat
  /\ is_image (mkPath (["u"] ++ ["holiday.JPEG"]) (Some (File 0))) = true
  /\ (DEFAULT_MAX_DEPTH + 2 <= Z.of_nat 7
      /\ Fs.is_dir (alice_path 0 1 2 3) = true
      /\ exists files,
           list_files 7 (alice_path 0 1 2 3) DEFAULT_MAX_DEPTH = Ok files
           /\ (forall f, In f files
                 <-> within (alice_path 0 1 2 3) DEFAULT_MAX_DEPTH f)
           /\ count_images 7 (alice_path 0 1 2 3)
              = Ok (length (List.filter image_name files))).
Proof.
  assert (H1 : "IMG_0001" <> "") by discriminate.
  assert (H2 : "portrait" <> "") by discriminate.
  assert (H3 : "notes" <> "") by discriminate.
  assert (J1 : caseless "JPG" "jpg" = true) by (vm_compute; reflexivity).
  assert (J2 : caseless "Jpg" "jpg" = true) by (vm_compute; reflexivity).
  assert (T3 : caseless "TXT" "txt" = true) by (vm_compute; reflexivity).
  assert (Hk : In "jpeg" ["png"; "jpg"; "jpeg"; "cr2"]) by (simpl; tauto).
  assert (J4 : caseless "JPEG" "jpeg" = true) by (vm_compute; reflexivity).
  assert (H4 : "holiday" <> "") by discriminate.
  assert (Hs : DEFAULT_MAX_DEPTH + 2 <= Z.of_nat 7) by (vm_compute; discriminate).
  assert (Hdir : Fs.is_dir (alice_path 0 1 2 3) = true) by (vm_compute; reflexivity).
  destruct alice_has_two_images as (Hscenario & _ & _ & Hname & Hcount).
  split; [repeat split; assumption|].
  destruct (Hscenario true "IMG_0001" "JPG" "portrait" "Jpg" "notes" "TXT"
              0 1 2 3 4 6%nat H1 H2 H3 J1 J2 T3) as [Husers Htwo].
  split; [exact Husers|]. split; [exact Htwo|].
  split; [exact (Hname ["u"] "holiday" "JPEG" "jpeg" (Some (File 0)) Hk J4 H4)|].
  split; [exact Hs|]. split; [exact Hdir|].
  exact (Hcount 7%nat (alice_path 0 1 2 3) Hs Hdir).
Defined.

(** ** Symbolic links among the entries of a walked directory *)





(** ** The partition loop of [process_disk] *)







(** On that disk the first and the third partition are scanned, the
    second is skipped after the warning. *)
Example second_partition_fails :
  fst (process_disk "/dev/sdb" mixed_env (initial_state ["n"])) = Ok tt
  /\ List.filter
       (fun e => match e with Print _ | Log WARNING _ | System _ => true | _ => false end)
       (trace (snd (process_disk "/dev/sdb" mixed_env (initial_state ["n"]))))
     = [Log WARNING (FailedToGetSerial "/dev/sdb");
        Print (FoundDisk "");
        Print (FoundUserWithImages "alice" 2);
        System "umount /dev/sdb1";
        Log WARNING MountFailed;
        Log WARNING (FailedToProcessPartition "/dev/sdb2");
        System "umount /dev/sdb2";
        Print (FoundUserWithImages "alice" 2);
        System "umount /dev/sdb3"].
Proof. vm_compute. split; reflexivity. Qed.
